(** * NerveSparks retrieval and scoring pipeline: a shallow embedding

    The development embeds the two server classes of the repository,
    [VectorStore] (src/server/vector/vectorStore.js) and [RAGPipeline]
    (src/server/rag/ragPipeline.js), and proves the properties of the
    retrieval and scoring core.

    Modelling conventions.
    - A JavaScript string is a [string]: a sequence of code units, here the
      code units 0..255.
    - A JavaScript number that counts or indexes (lengths, loop counters,
      the 32-bit hash) is a [nat] or a [Z], with the 32-bit wrap-around
      written out.  A number that carries a score (embedding components,
      similarities, metrics) is a real number [R]: the laws of the
      pipeline are proved in exact arithmetic.  JavaScript computes in
      binary64; where rounding, NaN or an overflow decides a property,
      module [Binary64] embeds the same code on primitive floats, which
      evaluate as JavaScript numbers do.
    - A [Map] that is iterated is an association list in insertion order.
    - A [Set] is the list of its elements in insertion order.
    - Console output is not modelled.
    - The external HuggingFace client is a record of functions whose results
      are outcomes: a value, or a thrown error. *)

From Stdlib Require Import List String Ascii Bool Arith ZArith Lia.
From Stdlib Require Import Reals Lra Permutation Sorted DecimalString DecimalNat.
From Stdlib Require PrimFloat.
Import ListNotations.

(* ================================================================== *)
(** * The JavaScript primitives the two classes use *)
(* ================================================================== *)

Module Js.

(** ** Outcomes: a returned value or a thrown error *)

Inductive Outcome (A : Type) : Type :=
| Returned (a : A)
| Thrown (e : string).
Arguments Returned {A} a.
Arguments Thrown {A} e.

Definition bind {A B : Type} (m : Outcome A) (k : A -> Outcome B) : Outcome B :=
  match m with
  | Returned a => k a
  | Thrown e => Thrown e
  end.

(** [try { m } catch (error) { h error }] *)
Definition tryCatch {A : Type} (m : Outcome A) (h : string -> Outcome A) : Outcome A :=
  match m with
  | Returned a => Returned a
  | Thrown e => h e
  end.

Notation "x <- m ;; k" := (bind m (fun x => k))
  (at level 61, m at next level, right associativity).

(** ** Strings *)

Definition charCode (c : ascii) : Z := Z.of_nat (nat_of_ascii c).

(** The characters matched by [\s] and stripped by [trim]: TAB, LF, VT, FF,
    CR, SPACE and NO-BREAK SPACE. *)
Definition isWhiteSpace (c : ascii) : bool :=
  let n := nat_of_ascii c in
  ((9 <=? n) && (n <=? 13)) || (n =? 32) || (n =? 160).

(** [String.prototype.toLowerCase] on one code unit: A-Z, and the Latin-1
    capitals U+00C0..U+00DE without the multiplication sign U+00D7. *)
Definition lowerChar (c : ascii) : ascii :=
  let n := nat_of_ascii c in
  if ((65 <=? n) && (n <=? 90))
     || ((192 <=? n) && (n <=? 222) && negb (n =? 215))
  then ascii_of_nat (n + 32) else c.

Fixpoint toLowerCase (s : string) : string :=
  match s with
  | EmptyString => EmptyString
  | String c s' => String (lowerChar c) (toLowerCase s')
  end.

(** [s.split(/\s+/)]: the pieces between the maximal runs of white space.
    The result is never empty: the empty string gives one empty piece, and
    a run at either end of the string gives an empty piece there. *)
Fixpoint splitWs (s : string) : list string :=
  match s with
  | EmptyString => [EmptyString]
  | String c rest =>
      let r := splitWs rest in
      if isWhiteSpace c then
        match rest with
        | String c' _ => if isWhiteSpace c' then r else EmptyString :: r
        | EmptyString => EmptyString :: r
        end
      else
        match r with
        | w :: ws => String c w :: ws
        | [] => [String c EmptyString]
        end
  end.

(** [s.split(sep)] for a non-empty literal separator; [skip] counts the
    code units of a separator occurrence still to be passed over. *)
Fixpoint splitOn (sep : string) (skip : nat) (s : string) : list string :=
  match s with
  | EmptyString => [EmptyString]
  | String c rest =>
      match skip with
      | S k => splitOn sep k rest
      | O =>
          if String.prefix sep s
          then EmptyString :: splitOn sep (String.length sep - 1) rest
          else match splitOn sep 0 rest with
               | w :: ws => String c w :: ws
               | [] => [String c EmptyString]
               end
      end
  end.

Definition split (sep s : string) : list string := splitOn sep 0 s.

Fixpoint trimStart (s : string) : string :=
  match s with
  | String c s' => if isWhiteSpace c then trimStart s' else s
  | EmptyString => EmptyString
  end.

Fixpoint rev_string (s acc : string) : string :=
  match s with
  | EmptyString => acc
  | String c s' => rev_string s' (String c acc)
  end.

Definition trim (s : string) : string :=
  rev_string (trimStart (rev_string (trimStart s) EmptyString)) EmptyString.

(** [arr.join(sep)] *)
Definition join (sep : string) (l : list string) : string := String.concat sep l.

(** [s.substring(0, n)] *)
Definition substring0 (n : nat) (s : string) : string := String.substring 0 n s.

Definition isDigit (c : ascii) : bool :=
  let n := nat_of_ascii c in (48 <=? n) && (n <=? 57).

(** Decimal rendering of a loop counter inside a template literal. *)
Definition natToString (n : nat) : string := NilEmpty.string_of_uint (Nat.to_uint n).

(** ** Case-insensitive search of a literal alternative (regex flag [i]) *)

(** Canonicalisation of a code unit under the flag [i]: its upper-case
    form within the code units of the model. *)
Definition canonicalize (c : ascii) : ascii :=
  let n := nat_of_ascii c in
  if ((97 <=? n) && (n <=? 122))
     || ((224 <=? n) && (n <=? 254) && negb (n =? 247))
  then ascii_of_nat (n - 32) else c.

Fixpoint matchesAt (p s : string) : bool :=
  match p, s with
  | EmptyString, _ => true
  | String _ _, EmptyString => false
  | String a p', String b s' =>
      Ascii.eqb (canonicalize a) (canonicalize b) && matchesAt p' s'
  end.

Fixpoint searchCI (p s : string) : bool :=
  matchesAt p s ||
  match s with
  | EmptyString => false
  | String _ s' => searchCI p s'
  end.

(** [/a1|a2|.../i.test(s)] for literal alternatives. *)
Definition regexTest (alternatives : list string) (s : string) : bool :=
  existsb (fun p => searchCI p s) alternatives.

(** ** Sets of strings, in insertion order *)

Definition has (s : list string) (x : string) : bool :=
  existsb (String.eqb x) s.

(** [new Set(arr)]: each element once, at its first occurrence. *)
Fixpoint addAll (acc : list string) (arr : list string) : list string :=
  match arr with
  | [] => acc
  | x :: arr' => addAll (if has acc x then acc else acc ++ [x]) arr'
  end.

Definition newSet (arr : list string) : list string := addAll [] arr.

(** [new Set([...a].filter(x => b.has(x)))] *)
Definition intersection (a b : list string) : list string :=
  newSet (filter (has b) a).

(** ** Arrays *)

(** [arr.slice(0, k)]: a negative [k] counts from the end. *)
Definition slice0 {A : Type} (k : Z) (l : list A) : list A :=
  if (0 <=? k)%Z then firstn (Z.to_nat k) l
  else firstn (List.length l - Z.to_nat (- k)) l.

(** [Array.prototype.sort(cmp)] is a stable sort: [a] is placed after [b]
    exactly when [cmp a b > 0], and elements that compare equal keep their
    order.  For a consistent comparator that fixes the result; it is
    computed here by stable insertion. *)
Fixpoint insertSorted {A : Type} (cmp : A -> A -> R) (x : A) (l : list A) : list A :=
  match l with
  | [] => [x]
  | y :: l' =>
      if Rlt_dec 0 (cmp x y) then y :: insertSorted cmp x l' else x :: l
  end.

Fixpoint sort {A : Type} (cmp : A -> A -> R) (l : list A) : list A :=
  match l with
  | [] => []
  | x :: l' => insertSorted cmp x (sort cmp l')
  end.

(** [map.set(k, v)] on a [Map] kept in insertion order: an existing key
    keeps its place, a new key goes last. *)
Fixpoint mapSet {V : Type} (k : string) (v : V) (m : list (string * V)) : list (string * V) :=
  match m with
  | [] => [(k, v)]
  | (k', v') :: m' =>
      if String.eqb k k' then (k, v) :: m' else (k', v') :: mapSet k v m'
  end.

(** [arr[i] += x] for an index inside the array. *)
Fixpoint addAt (i : nat) (x : R) (l : list R) : list R :=
  match l, i with
  | [], _ => []
  | v :: l', O => (v + x)%R :: l'
  | v :: l', S i' => v :: addAt i' x l'
  end.

(** [arr[0] = x] for a non-empty array. *)
Definition setHead (x : R) (l : list R) : list R :=
  match l with
  | [] => []
  | _ :: l' => x :: l'
  end.

(** [ToInt32]: the signed 32-bit integer congruent to [z]. *)
Definition toInt32 (z : Z) : Z := ((z + 2 ^ 31) mod 2 ^ 32 - 2 ^ 31)%Z.

(** [arr.reduce((sum, v) => sum + f(v), 0)] *)
Definition sumOf {A : Type} (f : A -> R) (l : list A) : R :=
  fold_left (fun sum v => (sum + f v)%R) l 0%R.

End Js.

(* ================================================================== *)
(** * src/server/vector/vectorStore.js *)
(* ================================================================== *)

Module VectorStore.
Import Js.

(** A value found where an embedding is expected: an array of numbers, or
    anything else, of which only its truthiness and what [Array.from]
    makes of it are ever read. *)
Inductive JsValue : Type :=
| JArray (l : list R)
| JOther (truthy : bool) (arrayFrom : list R).

Definition undefined : JsValue := JOther false [].

Definition truthy (v : JsValue) : bool :=
  match v with
  | JArray _ => true
  | JOther t _ => t
  end.

Record Metadata : Type := { semanticChunk : bool }.

(** A passage as the document processor hands it over. *)
Record Chunk : Type := {
  chunk_content : string;
  chunk_type : string;
  chunk_metadata : option Metadata;
  chunk_embedding : JsValue;
  chunk_embeddingModel : option string
}.

Record ProcessingResult : Type := {
  chunks : option (list Chunk);
  metadata : option Metadata
}.

(** An entry of [this.vectors]. *)
Record Vector : Type := {
  id : string;
  documentId : string;
  chunkId : nat;
  content : string;
  vmetadata : option Metadata;
  type : string;
  embedding : list R;
  embeddingModel : string
}.

(** An entry of [this.documents] (its [storedAt] date is left out). *)
Record DocumentRecord : Type := {
  doc_id : string;
  doc_metadata : option Metadata;
  chunksCount : nat
}.

(** What [await hf.textGeneration(...)] resolves to: [null] or
    [undefined], of which no property can be read, or any other value
    with its [generated_text], a string ([None] when that property is
    undefined or [null]). *)
Inductive TextGenerationOutput : Type :=
| Nullish
| Output (generated_text : option string).

(** The HuggingFace client: [featureExtraction0 text] is the outcome of
    [(await hf.featureExtraction({model, inputs: text}))[0]], and
    [textGeneration model prompt] the outcome of
    [await hf.textGeneration({model, inputs: prompt, ...})].  A call that
    fails throws an [Error], whose message [Thrown] carries. *)
Record HfClient : Type := {
  featureExtraction0 : string -> Outcome JsValue;
  textGeneration : string -> string -> Outcome TextGenerationOutput
}.

(** The state of a [VectorStore] object.  [this.openai] is never set (its
    initialisation is disabled in the source), so it has no field. *)
Record Store : Type := {
  vectors : list (string * Vector);
  documents : list (string * DocumentRecord);
  hf : option HfClient
}.

Definition new (client : option HfClient) : Store :=
  {| vectors := []; documents := []; hf := client |}.

(** ** simpleHashEmbedding *)

(** The inner loop: [hash = ((hash << 5) - hash) + c; hash = hash & hash]. *)
Fixpoint hashLoop (hash : Z) (word : string) : Z :=
  match word with
  | EmptyString => hash
  | String c word' =>
      let hash1 := (toInt32 (Z.shiftl (toInt32 hash) 5) - hash + charCode c)%Z in
      let hash2 := Z.land (toInt32 hash1) (toInt32 hash1) in
      hashLoop hash2 word'
  end.

(** [Math.abs(hash) % 384] *)
Definition wordIndex (word : string) : nat :=
  Z.to_nat (Z.abs (hashLoop 0 word) mod 384).

Definition wordLoop (words : list string) (embedding : list R) : list R :=
  fold_left (fun emb word => addAt (wordIndex word) 1 emb) words embedding.

(** [for (let i = 0; i < Math.min(text.length, 100); i++)]: [s] is the text
    from position [i] on. *)
Fixpoint charLoop (i : nat) (s : string) (embedding : list R) : list R :=
  match s with
  | EmptyString => embedding
  | String c s' =>
      if i <? 100 then
        let index := Z.to_nat ((charCode c * Z.of_nat i) mod 384) in
        charLoop (S i) s' (addAt index 0.1 embedding)
      else embedding
  end.

Definition magnitudeOf (embedding : list R) : R :=
  sqrt (sumOf (fun val => val * val)%R embedding).

(** The vector before normalisation. *)
Definition accumulate (text : string) : list R :=
  let text := if (String.length text =? 0) then "default text"%string else text in
  let words := filter (fun word => 2 <? String.length word) (splitWs (toLowerCase text)) in
  charLoop 0 text (wordLoop words (repeat 0%R 384)).

(** The last step of the method, under its comment [// Normalize]. *)
Definition normalize (embedding : list R) : list R :=
  let magnitude := magnitudeOf embedding in
  if Req_dec_T magnitude 0 then setHead 1 embedding
  else map (fun v => v / magnitude)%R embedding.

Definition simpleHashEmbedding (text : string) : list R :=
  normalize (accumulate text).

(** ** generateEmbedding *)

Definition generateEmbedding (st : Store) (text : string) : Outcome (list R) :=
  tryCatch
    (match hf st with
     | Some client =>
         tryCatch
           (response0 <- featureExtraction0 client text ;;
            Returned (match response0 with
                      | JArray l => l
                      | JOther t arrayFrom => if t then arrayFrom else []
                      end))
           (fun _ => Returned (simpleHashEmbedding text))
     | None => Returned (simpleHashEmbedding text)
     end)
    (fun _ => Returned (simpleHashEmbedding text)).

(** ** calculateCosineSimilarity *)

(** [while (v.length < maxLength) v.push(0)] *)
Definition padTo (maxLength : nat) (v : list R) : list R :=
  v ++ repeat 0%R (maxLength - List.length v).

(** The loop over [i < maxLength], on two arrays of that length, with its
    three accumulators. *)
Fixpoint similarityLoop (v1 v2 : list R) (dotProduct norm1 norm2 : R) : R * R * R :=
  match v1, v2 with
  | x :: v1', y :: v2' =>
      similarityLoop v1' v2' (dotProduct + x * y)%R (norm1 + x * x)%R (norm2 + y * y)%R
  | _, _ => (dotProduct, norm1, norm2)
  end.

Definition calculateCosineSimilarity (vec1 vec2 : JsValue) : R :=
  match vec1, vec2 with
  | JArray a, JArray b =>
      let maxLength := Nat.max (List.length a) (List.length b) in
      let normalizedVec1 := padTo maxLength a in
      let normalizedVec2 := padTo maxLength b in
      let '(dotProduct, norm1, norm2) :=
        similarityLoop normalizedVec1 normalizedVec2 0%R 0%R 0%R in
      let denominator := (sqrt norm1 * sqrt norm2)%R in
      if Req_dec_T denominator 0 then 0%R
      else (dotProduct / denominator)%R
  | _, _ => 0%R
  end.

(** ** searchWithEmbedding *)

(** [filters]: a field is [None] when the key is absent. *)
Record Filters : Type := {
  minSimilarity : option R;
  topK : option Z
}.

(** [{...vector, similarity}] *)
Record SearchResult : Type := {
  vector : Vector;
  similarity : R
}.

(** [filters.minSimilarity || 0.1] *)
Definition effectiveMinSimilarity (filters : Filters) : R :=
  match minSimilarity filters with
  | Some m => if Req_dec_T m 0 then 0.1%R else m
  | None => 0.1%R
  end.

(** [filters.topK || 10] *)
Definition effectiveTopK (filters : Filters) : Z :=
  match topK filters with
  | Some k => if (k =? 0)%Z then 10%Z else k
  | None => 10%Z
  end.

(** [documentIds && !documentIds.includes(vector.documentId)] *)
Definition excluded (documentIds : option (list string)) (v : Vector) : bool :=
  match documentIds with
  | Some ids => negb (existsb (String.eqb (documentId v)) ids)
  | None => false
  end.

(** The scan [for (const [chunkId, vector] of this.vectors)]. *)
Fixpoint searchLoop (queryEmbedding : JsValue) (documentIds : option (list string))
    (minSim : R) (entries : list (string * Vector)) (results : list SearchResult)
  : list SearchResult :=
  match entries with
  | [] => results
  | (_, v) :: rest =>
      if excluded documentIds v
      then searchLoop queryEmbedding documentIds minSim rest results
      else
        let sim := calculateCosineSimilarity queryEmbedding (JArray (embedding v)) in
        if Rle_dec minSim sim
        then searchLoop queryEmbedding documentIds minSim rest
               (results ++ [{| vector := v; similarity := sim |}])
        else searchLoop queryEmbedding documentIds minSim rest results
  end.

Definition searchWithEmbedding (st : Store) (queryEmbedding : JsValue)
    (documentIds : option (list string)) (filters : Filters) : list SearchResult :=
  let minSim := effectiveMinSimilarity filters in
  let k := effectiveTopK filters in
  let results := searchLoop queryEmbedding documentIds minSim (vectors st) [] in
  slice0 k (sort (fun a b => similarity b - similarity a)%R results).

(** ** storeDocument *)

(** The body of the loop for the chunk at index [i], after its embedding
    is known: validation, then [this.vectors.set(chunkId, {...})]. *)
Definition storeChunk (st : Store) (docId : string) (i : nat) (chunk : Chunk)
    (emb : JsValue) : Store :=
  let embedding :=
    match emb with
    | JArray l => l
    | JOther _ _ => simpleHashEmbedding (chunk_content chunk)
    end in
  let key := (docId ++ "_" ++ natToString i)%string in
  {| vectors :=
       mapSet key
         {| id := key;
            documentId := docId;
            chunkId := i;
            content := chunk_content chunk;
            vmetadata := chunk_metadata chunk;
            type := chunk_type chunk;
            embedding := embedding;
            embeddingModel :=
              match chunk_embeddingModel chunk with
              | Some m => if (String.length m =? 0) then "fallback"%string else m
              | None => "fallback"%string
              end |}
         (vectors st);
     documents := documents st;
     hf := hf st |}.

(** The loop [for (let i = 0; i < chunks.length; i++)] from index [i] on.
    The function is [async]: at every [await] it is suspended and other
    requests run on the state it has built so far.  The first component of
    the result lists those states, in order; the second is the outcome,
    with the final state. *)
Fixpoint storeChunks (st : Store) (docId : string) (i : nat) (cs : list Chunk)
  : list Store * Outcome Store :=
  match cs with
  | [] => ([], Returned st)
  | chunk :: cs' =>
      if truthy (chunk_embedding chunk) then
        storeChunks (storeChunk st docId i chunk (chunk_embedding chunk)) docId (S i) cs'
      else
        match generateEmbedding st (chunk_content chunk) with
        | Thrown e => ([st], Thrown e)
        | Returned l =>
            let '(seen, out) :=
              storeChunks (storeChunk st docId i chunk (JArray l)) docId (S i) cs' in
            (st :: seen, out)
        end
  end.

Record StoreReport : Type := { success : bool; chunksStored : nat }.

Definition storeDocument (st : Store) (docId : string) (processingResult : ProcessingResult)
  : list Store * Outcome (Store * StoreReport) :=
  let cs := match chunks processingResult with Some l => l | None => [] end in
  let st1 :=
    {| vectors := vectors st;
       documents :=
         mapSet docId
           {| doc_id := docId;
              doc_metadata := metadata processingResult;
              chunksCount := List.length cs |}
           (documents st);
       hf := hf st |} in
  let '(seen, out) := storeChunks st1 docId 0 cs in
  (seen,
   st2 <- out ;;
   Returned (st2, {| success := true; chunksStored := List.length cs |})).

(** ** searchWithQuery *)

Definition searchWithQuery (st : Store) (query : string)
    (documentIds : option (list string)) (filters : Filters)
  : Outcome (list SearchResult) :=
  queryEmbedding <- generateEmbedding st query ;;
  Returned (searchWithEmbedding st (JArray queryEmbedding) documentIds filters).

(** ** The legacy methods *)

Definition simpleHash (text : string) : Z := Z.abs (hashLoop 0 text).

(** [calculateSimilarity]; the division by [Math.max(queryHash, contentHash)]
    is the real one whenever that maximum is not 0. *)
Definition calculateSimilarity (query content : string) (queryHash contentHash : R) : R :=
  let queryWords := newSet (splitWs (toLowerCase query)) in
  let contentWords := newSet (splitWs (toLowerCase content)) in
  let inter := intersection queryWords contentWords in
  let union := newSet (queryWords ++ contentWords) in
  let jaccardSimilarity := (INR (List.length inter) / INR (List.length union))%R in
  let hashSimilarity :=
    (1 - Rabs (queryHash - contentHash) / Rmax queryHash contentHash)%R in
  ((jaccardSimilarity * 0.7) + (hashSimilarity * 0.3))%R.

(** ** getStats, getEmbeddingModelStats and clear *)

(** [obj[k]] on an object kept as an association list. *)
Fixpoint mapGet {V : Type} (k : string) (m : list (string * V)) : option V :=
  match m with
  | [] => None
  | (k', v) :: m' => if String.eqb k k' then Some v else mapGet k m'
  end.

(** [vector.embeddingModel || 'unknown'] *)
Definition modelOf (v : Vector) : string :=
  if (String.length (embeddingModel v) =? 0) then "unknown"%string else embeddingModel v.

(** The object [modelCounts] as an association list.  Two things of the
    JavaScript object are not kept: the order of its keys (an object lists
    integer-like keys first; nothing below reads the order), and the
    properties a plain object inherits: for a model named like one of them
    ([constructor], [toString], ...) [modelCounts[model]] is not a count.
    The definition is the method on all other model names. *)
Definition getEmbeddingModelStats (st : Store) : list (string * nat) :=
  fold_left
    (fun modelCounts kv =>
       let model := modelOf (snd kv) in
       mapSet model
         (match mapGet model modelCounts with Some n => n | None => 0 end + 1)
         modelCounts)
    (vectors st) [].

Record Stats : Type := {
  totalVectors : nat;
  totalDocuments : nat;
  averageChunksPerDocument : R;
  embeddingModels : list (string * nat)
}.

Definition getStats (st : Store) : Stats :=
  {| totalVectors := List.length (vectors st);
     totalDocuments := List.length (documents st);
     averageChunksPerDocument :=
       if (0 <? List.length (documents st))
       then (INR (List.length (vectors st)) / INR (List.length (documents st)))%R
       else 0%R;
     embeddingModels := getEmbeddingModelStats st |}.

Definition clear (st : Store) : Store :=
  {| vectors := []; documents := []; hf := hf st |}.

End VectorStore.

(* ================================================================== *)
(** * calculateCosineSimilarity in binary64 *)
(* ================================================================== *)

(** The steps of [VectorStore.calculateCosineSimilarity] on two arrays, in
    the arithmetic JavaScript runs them in. *)
Module Binary64.
Import PrimFloat.

Definition padTo (maxLength : nat) (v : list float) : list float :=
  v ++ repeat 0%float (maxLength - List.length v).

Fixpoint similarityLoop (v1 v2 : list float) (dotProduct norm1 norm2 : float)
  : float * float * float :=
  match v1, v2 with
  | x :: v1', y :: v2' =>
      similarityLoop v1' v2' (dotProduct + x * y)%float (norm1 + x * x)%float
        (norm2 + y * y)%float
  | _, _ => (dotProduct, norm1, norm2)
  end.

Definition calculateCosineSimilarity (vec1 vec2 : list float) : float :=
  let maxLength := Nat.max (List.length vec1) (List.length vec2) in
  let normalizedVec1 := padTo maxLength vec1 in
  let normalizedVec2 := padTo maxLength vec2 in
  let '(dotProduct, norm1, norm2) :=
    similarityLoop normalizedVec1 normalizedVec2 0%float 0%float 0%float in
  let denominator := (sqrt norm1 * sqrt norm2)%float in
  if (denominator =? 0)%float then 0%float
  else (dotProduct / denominator)%float.

End Binary64.

(* ================================================================== *)
(** * src/server/rag/ragPipeline.js *)
(* ================================================================== *)

Module RAGPipeline.
Import Js.

Definition JsValue := VectorStore.JsValue.
Definition Metadata := VectorStore.Metadata.
Definition HfClient := VectorStore.HfClient.
Definition Filters := VectorStore.Filters.
Definition SearchResult := VectorStore.SearchResult.

(** The intent labels of [classifyIntent], and the default label. *)
Inductive Intent : Type :=
| factual | comparison | procedural | analytical | numerical
| visual | temporal | location | causal | list_intent
| information_request.

(** What the constructor reads of [process.env]: [TOP_K_RESULTS] after
    [parseInt] and [MIN_SIMILARITY_THRESHOLD] after [parseFloat] ([None]
    when the result is NaN), and the client built from
    [HUGGINGFACE_API_KEY]. *)
Record Env : Type := {
  TOP_K_RESULTS : option Z;
  MIN_SIMILARITY_THRESHOLD : option R;
  HUGGINGFACE : option HfClient
}.

(** The state of a [RAGPipeline] object.  [this.openai] is never set. *)
Record Pipeline : Type := {
  vectorStore : VectorStore.Store;
  topK : Z;
  hf : option HfClient;
  env : Env
}.

(** [constructor()], with the store that index.js assigns afterwards. *)
Definition new (e : Env) (store : VectorStore.Store) : Pipeline :=
  {| vectorStore := store;
     topK := match TOP_K_RESULTS e with
             | Some k => if (k =? 0)%Z then 5%Z else k
             | None => 5%Z
             end;
     hf := HUGGINGFACE e;
     env := e |}.

(** ** simpleHashEmbedding (the pipeline's own) *)

Definition wordLoop (words : list string) (embedding : list R) : list R :=
  fold_left (fun emb word => addAt (VectorStore.wordIndex word) 1 emb) words embedding.

Definition accumulate (text : string) : list R :=
  wordLoop (splitWs (toLowerCase text)) (repeat 0%R 384).

Definition simpleHashEmbedding (text : string) : list R :=
  let embedding := accumulate text in
  let magnitude := sqrt (sumOf (fun val => val * val)%R embedding) in
  map (fun val => val / magnitude)%R embedding.

Definition generateQueryEmbedding (p : Pipeline) (query : string) : Outcome JsValue :=
  tryCatch
    (match hf p with
     | Some client => VectorStore.featureExtraction0 client query
     | None => Returned (VectorStore.JArray (simpleHashEmbedding query))
     end)
    (fun _ => Returned (VectorStore.JArray (simpleHashEmbedding query))).

(** ** Query understanding *)

(** The object [intents], in the order of its keys. *)
Definition intents : list (Intent * list string) :=
  [ (factual, ["what is"; "define"; "explain"; "tell me about"; "describe"]%string);
    (comparison, ["compare"; "versus"; "vs"; "difference between"; "contrast"]%string);
    (procedural, ["how to"; "steps"; "process"; "procedure"; "method"]%string);
    (analytical, ["analyze"; "analysis"; "insights"; "trends"; "patterns"]%string);
    (numerical, ["statistics"; "numbers"; "data"; "metrics"; "calculate"; "count"]%string);
    (visual, ["chart"; "graph"; "table"; "image"; "figure"; "diagram"; "plot"]%string);
    (temporal, ["when"; "date"; "time"; "schedule"; "timeline"; "history"]%string);
    (location, ["where"; "location"; "place"; "address"; "site"]%string);
    (causal, ["why"; "cause"; "effect"; "because"; "reason"]%string);
    (list_intent, ["list"; "enumerate"; "examples"; "instances"; "items"]%string) ].

(** [for (const [intent, pattern] of Object.entries(intents))] *)
Fixpoint classifyLoop (entries : list (Intent * list string)) (query : string) : Intent :=
  match entries with
  | [] => information_request
  | (intent, pattern) :: rest =>
      if regexTest pattern query then intent else classifyLoop rest query
  end.

Definition classifyIntent (query : string) : Intent := classifyLoop intents query.

Definition isUpper (c : ascii) : bool :=
  let n := nat_of_ascii c in (65 <=? n) && (n <=? 90).

Definition isLower (c : ascii) : bool :=
  let n := nat_of_ascii c in (97 <=? n) && (n <=? 122).

(** [word.match(/^[A-Z][a-z]+/) || word.match(/^[A-Z]{2,}/)] *)
Definition isEntity (word : string) : bool :=
  match word with
  | String a (String b _) => isUpper a && (isLower b || isUpper b)
  | _ => false
  end.

Definition extractEntities (query : string) : list string :=
  filter isEntity (splitWs query).

Definition stopWords : list string :=
  newSet ["the"; "a"; "an"; "and"; "or"; "but"; "in"; "on"; "at"; "to"; "for";
          "of"; "with"; "by"; "is"; "are"; "was"; "were"; "be"; "been"; "have";
          "has"; "had"; "do"; "does"; "did"; "will"; "would"; "could"; "should";
          "may"; "might"; "can"; "this"; "that"; "these"; "those"]%string.

Definition extractKeywords (query : string) : list string :=
  slice0 10
    (filter (fun word => (2 <? String.length word) && negb (has stopWords word))
       (splitWs (toLowerCase query))).

Definition expandQuery (query : string) (keywords : list string) : string :=
  (query ++ " " ++ join " " keywords)%string.

Record ProcessedQuery : Type := {
  text : string;
  intent : Intent;
  entities : list string;
  keywords : list string;
  processedText : string
}.

Definition preprocessQuery (query : string) : ProcessedQuery :=
  let intent := classifyIntent query in
  let entities := extractEntities query in
  let keywords := extractKeywords query in
  {| text := query;
     intent := intent;
     entities := entities;
     keywords := keywords;
     processedText := expandQuery query keywords |}.

(** ** Reranking *)

(** The three properties [calculateChunkRelevance] reads of a chunk;
    [cv_similarity] is [None] when the chunk has no [similarity]. *)
Record ChunkView : Type := {
  cv_content : string;
  cv_similarity : option R;
  cv_metadata : option Metadata
}.

Definition viewOf (r : SearchResult) : ChunkView :=
  {| cv_content := VectorStore.content (VectorStore.vector r);
     cv_similarity := Some (VectorStore.similarity r);
     cv_metadata := VectorStore.vmetadata (VectorStore.vector r) |}.

(** [new Set(s.toLowerCase().split(/\s+/))] *)
Definition wordSet (s : string) : list string := newSet (splitWs (toLowerCase s)).

Definition calculateChunkRelevance (query : string) (chunk : ChunkView) : R :=
  let queryWords := wordSet query in
  let chunkWords := wordSet (cv_content chunk) in
  let intersection := intersection queryWords chunkWords in
  let wordOverlapScore := (INR (List.length intersection) / INR (List.length queryWords))%R in
  let vectorScore := match cv_similarity chunk with Some s => s | None => 0%R end in
  let lengthScore := Rmin (INR (String.length (cv_content chunk)) / 500) 1 in
  let metadataBonus :=
    match cv_metadata chunk with
    | Some m => if VectorStore.semanticChunk m then 0.1%R else 0%R
    | None => 0%R
    end in
  ((wordOverlapScore * 0.4) + (vectorScore * 0.4) + (lengthScore * 0.1) + metadataBonus)%R.

Definition rerank (query : string) (chunks : list SearchResult) : list SearchResult :=
  sort (fun a b =>
          let aScore := calculateChunkRelevance query (viewOf a) in
          let bScore := calculateChunkRelevance query (viewOf b) in
          (bScore - aScore)%R)
       chunks.

(** ** Answer generation *)

Definition contentOf (r : SearchResult) : string :=
  VectorStore.content (VectorStore.vector r).

Definition nl : string := String (ascii_of_nat 10) EmptyString.
Definition dquote : string := String (ascii_of_nat 34) EmptyString.

Definition buildContext (chunks : list SearchResult) : string :=
  join (nl ++ nl) (map contentOf chunks).

Definition intentName (i : Intent) : string :=
  match i with
  | factual => "factual"
  | comparison => "comparison"
  | procedural => "procedural"
  | analytical => "analytical"
  | numerical => "numerical"
  | visual => "visual"
  | temporal => "temporal"
  | location => "location"
  | causal => "causal"
  | list_intent => "list"
  | information_request => "information_request"
  end.

Definition buildPrompt (query context : string) (intent : Intent) : string :=
  ("Question: " ++ query ++ nl ++
   "Intent: " ++ intentName intent ++ nl ++
   "Context: " ++ context ++ nl ++ nl ++
   "Please provide a clear and accurate answer based on the context provided. If the context doesn't contain enough information to answer the question, please say so.")%string.

(** [s.match(/\d+(?:\.\d+)?/g)]: the state of the scan. *)
Inductive NumState : Type :=
| Idle
| InInt (acc : string)
| AfterDot (acc : string)
| InFrac (acc : string).

Fixpoint scanNumbers (st : NumState) (s : string) : list string :=
  match s with
  | EmptyString =>
      match st with
      | Idle => []
      | InInt a | AfterDot a | InFrac a => [a]
      end
  | String c s' =>
      match st with
      | Idle =>
          if isDigit c then scanNumbers (InInt (String c EmptyString)) s'
          else scanNumbers Idle s'
      | InInt a =>
          if isDigit c then scanNumbers (InInt (a ++ String c EmptyString)) s'
          else if Ascii.eqb c "."%char then scanNumbers (AfterDot a) s'
          else a :: scanNumbers Idle s'
      | AfterDot a =>
          if isDigit c then scanNumbers (InFrac (a ++ "." ++ String c EmptyString)) s'
          else a :: scanNumbers Idle s'
      | InFrac a =>
          if isDigit c then scanNumbers (InFrac (a ++ String c EmptyString)) s'
          else a :: scanNumbers Idle s'
      end
  end.

(** The loop that picks the chunk with the greatest word overlap. *)
Fixpoint bestChunkLoop (queryWords : list string) (chunks : list string)
    (bestChunk : string) (bestScore : R) : string :=
  match chunks with
  | [] => bestChunk
  | chunk :: rest =>
      let chunkWords := wordSet chunk in
      let inter := intersection queryWords chunkWords in
      let score := (INR (List.length inter) / INR (List.length queryWords))%R in
      if Rlt_dec bestScore score
      then bestChunkLoop queryWords rest chunk score
      else bestChunkLoop queryWords rest bestChunk bestScore
  end.

(** [`${s.substring(0, n)}${s.length > n ? '...' : ''}`] *)
Definition excerpt (n : nat) (s : string) : string :=
  (substring0 n s ++ (if Nat.ltb n (String.length s) then "..." else ""))%string.

Definition generateSimpleResponse (query context : string) (intent : Intent) : string :=
  let contextChunks :=
    filter (fun chunk => 0 <? String.length (trim chunk)) (split (nl ++ nl) context) in
  match contextChunks with
  | [] =>
      ("I don't have enough information to answer your question: " ++ dquote ++ query
       ++ dquote ++ ". Please try uploading relevant documents first.")%string
  | first :: _ =>
      let queryWords := wordSet query in
      let bestChunk := bestChunkLoop queryWords contextChunks first 0 in
      match intent with
      | factual =>
          ("Based on the document content: " ++ excerpt 300 bestChunk)%string
      | comparison =>
          ("To compare the requested information, here are the relevant details from the documents: "
           ++ excerpt 300 bestChunk)%string
      | procedural =>
          ("Here are the steps or process details: " ++ excerpt 300 bestChunk)%string
      | numerical =>
          match scanNumbers Idle bestChunk with
          | [] => ("Here's the relevant information: " ++ excerpt 300 bestChunk)%string
          | numbers =>
              ("The numerical data from the documents includes: "
               ++ join ", " (slice0 5 numbers) ++ ". Full context: "
               ++ excerpt 200 bestChunk)%string
          end
      | _ =>
          ("Here's what I found in the documents regarding your question: "
           ++ excerpt 300 bestChunk)%string
      end
  end.

(** [generated_text || 'Generated response based on the provided context.'] *)
Definition generatedTextOr (generated_text : option string) : string :=
  match generated_text with
  | Some t =>
      if (String.length t =? 0)
      then "Generated response based on the provided context."%string
      else t
  | None => "Generated response based on the provided context."%string
  end.

(** The inner [try] holds the first call only, and its [catch] the second
    one; [response.generated_text] is read after both, under the outer
    [try], so that a response that is [null] or [undefined] throws there
    and is answered by [generateSimpleResponse]. *)
Definition generateWithHuggingFace (client : HfClient) (query context : string)
    (intent : Intent) : Outcome string :=
  tryCatch
    (let prompt := buildPrompt query context intent in
     response <-
       tryCatch
         (VectorStore.textGeneration client "microsoft/DialoGPT-small" prompt)
         (fun _ =>
            tryCatch
              (VectorStore.textGeneration client "gpt2" prompt)
              (fun _ => Thrown "All HuggingFace models failed")) ;;
     match response with
     | VectorStore.Nullish =>
         Thrown "Cannot read properties of undefined (reading 'generated_text')"
     | VectorStore.Output generated_text =>
         Returned (generatedTextOr generated_text)
     end)
    (fun _ => Returned (generateSimpleResponse query context intent)).

Definition generate (p : Pipeline) (query context : string) (intent : Intent)
  : Outcome string :=
  match hf p with
  | Some client => generateWithHuggingFace client query context intent
  | None => Returned (generateSimpleResponse query context intent)
  end.

(** ** Scores *)

Definition calculateRelevanceScore (chunks : list SearchResult) (response : string) : R :=
  if (List.length chunks =? 0) then 0%R
  else
    let avgSimilarity :=
      (fold_left (fun sum chunk => sum + VectorStore.similarity chunk) chunks 0
       / INR (List.length chunks))%R in
    let diversityBonus := Rmin (INR (List.length chunks) / 3) 0.2 in
    Rmin (avgSimilarity + diversityBonus) 1.

(** [new Set(sources.map(s => s.content.toLowerCase().split(/\s+/)).flat())] *)
Definition sourceWordSet (sources : list SearchResult) : list string :=
  newSet (List.concat (map (fun s => splitWs (toLowerCase (contentOf s))) sources)).

Definition calculateFaithfulness (response : string) (sources : list SearchResult) : R :=
  let responseWords := wordSet response in
  let sourceWords := sourceWordSet sources in
  let inter := intersection responseWords sourceWords in
  (INR (List.length inter) / INR (Nat.max (List.length responseWords) 1))%R.

Definition calculateAnswerRelevancy (query response : string) : R :=
  let queryWords := wordSet query in
  let responseWords := wordSet response in
  let inter := intersection queryWords responseWords in
  (INR (List.length inter) / INR (Nat.max (List.length queryWords) 1))%R.

Definition calculateContextRecall (query : string) (sources : list SearchResult) : R :=
  let queryWords := wordSet query in
  let sourceWords := sourceWordSet sources in
  let inter := intersection queryWords sourceWords in
  (INR (List.length inter) / INR (Nat.max (List.length queryWords) 1))%R.

Definition calculateContextPrecision (query : string) (sources : list SearchResult) : R :=
  let queryWords := wordSet query in
  let relevantSources :=
    filter (fun source =>
              let sourceWords := wordSet (contentOf source) in
              let inter := intersection queryWords sourceWords in
              0 <? List.length inter)
           sources in
  (INR (List.length relevantSources) / INR (Nat.max (List.length sources) 1))%R.

Record Metrics : Type := {
  faithfulness : R;
  answerRelevancy : R;
  contextRecall : R;
  contextPrecision : R;
  overallScore : R
}.

(** The four helpers are total on strings and on retrieved chunks, so the
    [catch] branch of the source, with its fixed defaults, is not reached. *)
Definition calculateRAGASMetrics (query response : string) (sources : list SearchResult)
  : Metrics :=
  let faithfulness := calculateFaithfulness response sources in
  let answerRelevancy := calculateAnswerRelevancy query response in
  let contextRecall := calculateContextRecall query sources in
  let contextPrecision := calculateContextPrecision query sources in
  {| faithfulness := faithfulness;
     answerRelevancy := answerRelevancy;
     contextRecall := contextRecall;
     contextPrecision := contextPrecision;
     overallScore :=
       ((faithfulness + answerRelevancy + contextRecall + contextPrecision) / 4)%R |}.

(** ** query *)

Record Source : Type := {
  src_content : string;
  src_similarity : R;
  src_documentId : string;
  src_type : string;
  src_metadata : option Metadata
}.

Record QueryResult : Type := {
  answer : string;
  sources : list Source;
  relevanceScore : R;
  context : string;
  queryIntent : Intent;
  metrics : Metrics
}.

(** The answer of the branch [relevantChunks.length === 0]. *)
Definition noChunksAnswer (query : string) : string :=
  ("I couldn't find specific information to answer your question: " ++ dquote ++ query
   ++ dquote ++ ". This might be because:" ++ nl
   ++ "          " ++ nl
   ++ "1. The document content doesn't contain information related to your query" ++ nl
   ++ "2. The similarity threshold is too high" ++ nl
   ++ "3. There might be an issue with the document processing" ++ nl
   ++ nl
   ++ "Please try:" ++ nl
   ++ "- Rephrasing your question" ++ nl
   ++ "- Asking about specific topics mentioned in the document" ++ nl
   ++ "- Uploading additional relevant documents")%string.

(** [{minSimilarity: parseFloat(env) || 0.1, topK: this.topK, ...filters}] *)
Definition searchFilters (p : Pipeline) (filters : Filters) : Filters :=
  {| VectorStore.minSimilarity :=
       match VectorStore.minSimilarity filters with
       | Some m => Some m
       | None =>
           Some (match MIN_SIMILARITY_THRESHOLD (env p) with
                 | Some m => if Req_dec_T m 0 then 0.1%R else m
                 | None => 0.1%R
                 end)
       end;
     VectorStore.topK :=
       match VectorStore.topK filters with
       | Some k => Some k
       | None => Some (topK p)
       end |}.

Definition toSource (chunk : SearchResult) : Source :=
  {| src_content := contentOf chunk;
     src_similarity := VectorStore.similarity chunk;
     src_documentId := VectorStore.documentId (VectorStore.vector chunk);
     src_type := VectorStore.type (VectorStore.vector chunk);
     src_metadata := VectorStore.vmetadata (VectorStore.vector chunk) |}.

Definition query (p : Pipeline) (query : string) (documentIds : option (list string))
    (filters : Filters) : Outcome QueryResult :=
  tryCatch
    (let processedQuery := preprocessQuery query in
     queryEmbedding <- generateQueryEmbedding p (text processedQuery) ;;
     let relevantChunks :=
       VectorStore.searchWithEmbedding (vectorStore p) queryEmbedding documentIds
         (searchFilters p filters) in
     if (List.length relevantChunks =? 0) then
       Returned
         {| answer := noChunksAnswer query;
            sources := [];
            relevanceScore := 0;
            context := "";
            queryIntent := information_request;
            metrics :=
              {| faithfulness := 0;
                 answerRelevancy := 0;
                 contextRecall := 0;
                 contextPrecision := 0;
                 overallScore := 0 |} |}
     else
       let rerankedChunks := rerank query relevantChunks in
       let selectedChunks := slice0 (topK p) rerankedChunks in
       let context := buildContext selectedChunks in
       response <- generate p query context (intent processedQuery) ;;
       let relevanceScore := calculateRelevanceScore selectedChunks response in
       let metrics := calculateRAGASMetrics query response selectedChunks in
       Returned
         {| answer := response;
            sources := map toSource selectedChunks;
            relevanceScore := relevanceScore;
            context := context;
            queryIntent := intent processedQuery;
            metrics := metrics |})
    (fun error => Thrown error).

End RAGPipeline.

(* ================================================================== *)
(** * src/server/processors/documentProcessor.js: sentences and chunks *)
(* ================================================================== *)

Module DocumentProcessor.
Import Js.

(** The state of a [DocumentProcessor] the chunking reads: [this.hf].
    [this.openai] is never set (both of its initialisations are
    disabled). *)
Record Processor : Type := { hf : option VectorStore.HfClient }.

(** [s.split(/[...]+/)] for a class of code units: the pieces between the
    maximal runs of separators, with an empty piece for a run at either
    end. *)
Fixpoint splitRuns (isSep : ascii -> bool) (s : string) : list string :=
  match s with
  | EmptyString => [EmptyString]
  | String c rest =>
      let r := splitRuns isSep rest in
      if isSep c then
        match rest with
        | String c' _ => if isSep c' then r else EmptyString :: r
        | EmptyString => EmptyString :: r
        end
      else
        match r with
        | w :: ws => String c w :: ws
        | [] => [String c EmptyString]
        end
  end.

(** The class [[.!?]]. *)
Definition isTerminator (c : ascii) : bool :=
  Ascii.eqb c "."%char || Ascii.eqb c "!"%char || Ascii.eqb c "?"%char.

Definition splitIntoSentences (text : string) : list string :=
  filter (fun sentence => 10 <? String.length sentence)
    (map trim (splitRuns isTerminator text)).

(** A chunk as the processor builds it.  Of its metadata
    [{...metadata, sentenceCount, semanticChunk}] the two keys set here
    are kept, [semanticChunk] being inherited from the [metadata] argument
    where the chunk does not set it. *)
Record Chunk : Type := {
  id : nat;
  content : string;
  type : string;
  sentenceCount : nat;
  semanticChunk : bool;
  embedding : VectorStore.JsValue;
  embeddingModel : option string
}.

Definition inheritedSemantic (metadata : option VectorStore.Metadata) : bool :=
  match metadata with
  | Some m => VectorStore.semanticChunk m
  | None => false
  end.

(** The method returns [false] on every path: its only call of a model is
    under [this.openai && false]. *)
Definition analyzeChunkBreakpoint (chunkText : string) : bool := false.

(** [createSemanticChunks]: the loop over the sentences, with [chunks],
    [currentChunk] and [chunkId]. *)
Fixpoint semanticLoop (sentences : list string) (type : string)
    (chunks : list Chunk) (currentChunk : list string) (chunkId : nat)
  : list Chunk * list string * nat :=
  match sentences with
  | [] => (chunks, currentChunk, chunkId)
  | sentence :: rest =>
      let currentChunk := currentChunk ++ [sentence] in
      if 400 <? String.length (join " " currentChunk) then
        let chunkText := join " " currentChunk in
        let shouldSplit := analyzeChunkBreakpoint chunkText in
        if shouldSplit && (1 <? List.length currentChunk) then
          let lastSentence := last currentChunk EmptyString in
          let currentChunk := removelast currentChunk in
          semanticLoop rest type
            (chunks ++ [{| id := chunkId;
                           content := join " " currentChunk;
                           type := type;
                           sentenceCount := List.length currentChunk;
                           semanticChunk := true;
                           embedding := VectorStore.undefined;
                           embeddingModel := None |}])
            [lastSentence] (S chunkId)
        else semanticLoop rest type chunks currentChunk chunkId
      else semanticLoop rest type chunks currentChunk chunkId
  end.

Definition createSemanticChunks (sentences : list string) (type : string)
    (metadata : option VectorStore.Metadata) : list Chunk :=
  let '(chunks, currentChunk, chunkId) := semanticLoop sentences type [] [] 0 in
  if 0 <? List.length currentChunk then
    chunks ++ [{| id := chunkId;
                  content := join " " currentChunk;
                  type := type;
                  sentenceCount := List.length currentChunk;
                  semanticChunk := true;
                  embedding := VectorStore.undefined;
                  embeddingModel := None |}]
  else chunks.

(** The chunk [createBasicChunks] pushes for a non-blank [currentChunk]. *)
Definition basicChunk (chunkId : nat) (currentChunk type : string)
    (metadata : option VectorStore.Metadata) : Chunk :=
  {| id := chunkId;
     content := trim currentChunk;
     type := type;
     sentenceCount := List.length (splitRuns isTerminator currentChunk) - 1;
     semanticChunk := inheritedSemantic metadata;
     embedding := VectorStore.undefined;
     embeddingModel := None |}.

(** [createBasicChunks]: the loop over the sentences. *)
Fixpoint basicLoop (sentences : list string) (type : string)
    (metadata : option VectorStore.Metadata)
    (chunks : list Chunk) (currentChunk : string) (chunkId : nat)
  : list Chunk * string * nat :=
  match sentences with
  | [] => (chunks, currentChunk, chunkId)
  | sentence :: rest =>
      if 500 <? String.length currentChunk + String.length sentence then
        if 0 <? String.length (trim currentChunk) then
          basicLoop rest type metadata
            (chunks ++ [basicChunk chunkId currentChunk type metadata])
            sentence (S chunkId)
        else basicLoop rest type metadata chunks sentence chunkId
      else
        basicLoop rest type metadata chunks (currentChunk ++ " " ++ sentence) chunkId
  end.

Definition createBasicChunks (sentences : list string) (type : string)
    (metadata : option VectorStore.Metadata) : list Chunk :=
  let '(chunks, currentChunk, chunkId) :=
    basicLoop sentences type metadata [] EmptyString 0 in
  if 0 <? String.length (trim currentChunk) then
    chunks ++ [basicChunk chunkId currentChunk type metadata]
  else chunks.

(** [createIntelligentChunks]: the semantic chunks when a model client is
    set, the basic ones when there is none or when that gave nothing.
    Nothing in [createSemanticChunks] throws, so its [catch] is not
    reached. *)
Definition createIntelligentChunks (p : Processor) (textContent type : string)
    (metadata : option VectorStore.Metadata) : list Chunk :=
  let sentences := splitIntoSentences textContent in
  let chunks :=
    match hf p with
    | Some _ => createSemanticChunks sentences type metadata
    | None => []
    end in
  if (List.length chunks =? 0) then createBasicChunks sentences type metadata
  else chunks.

(** The body of the loop of [generateEmbeddings] for one chunk: a failed
    call leaves the chunk as it was. *)
Definition embedChunk (p : Processor) (chunk : Chunk) : Chunk :=
  match hf p with
  | Some client =>
      match VectorStore.featureExtraction0 client (content chunk) with
      | Returned response0 =>
          {| id := id chunk;
             content := content chunk;
             type := type chunk;
             sentenceCount := sentenceCount chunk;
             semanticChunk := semanticChunk chunk;
             embedding := response0;
             embeddingModel := Some "sentence-transformers/all-MiniLM-L6-v2"%string |}
      | Thrown _ => chunk
      end
  | None => chunk
  end.

Definition generateEmbeddings (p : Processor) (chunks : list Chunk) : list Chunk :=
  map (embedChunk p) chunks.

(** The chunk as [storeDocument] reads it: the same object, of which it
    reads [content], [type], [metadata], [embedding] and
    [embeddingModel]. *)
Definition toStoreChunk (chunk : Chunk) : VectorStore.Chunk :=
  {| VectorStore.chunk_content := content chunk;
     VectorStore.chunk_type := type chunk;
     VectorStore.chunk_metadata :=
       Some {| VectorStore.semanticChunk := semanticChunk chunk |};
     VectorStore.chunk_embedding := embedding chunk;
     VectorStore.chunk_embeddingModel := embeddingModel chunk |}.

End DocumentProcessor.

(* ================================================================== *)
(** * src/server/index.js: the query route *)
(* ================================================================== *)

Module Server.
Import Js.

(** [req.body.query] as the route tests it: a value for which [!query]
    holds without being a string ([undefined], [null], [false], [0]), a
    string, or any other value, which is truthy and has no [trim]. *)
Inductive QueryValue : Type :=
| QueryFalsy
| QueryString (s : string)
| QueryOther.

(** [req.body.documentIds]: [undefined] or [null], an array, or any other
    value, which has no [join].  The ids of the index are strings and
    [includes] compares with [===], so that of an array only the elements
    that are strings matter: [ids] lists them. *)
Inductive IdsValue : Type :=
| IdsNullish
| IdsArray (ids : list string)
| IdsOther.

(** [req.body] of [POST /api/query], a JSON object: [body_filters] is
    [None] when [filters] is absent or holds neither [minSimilarity] nor
    [topK]; when it holds them, [minSimilarity] is a number and [topK] an
    integer. *)
Record QueryBody : Type := {
  body_query : QueryValue;
  body_documentIds : IdsValue;
  body_filters : option VectorStore.Filters
}.

(** The JSON answer of the route (its [latency] is left out). *)
Record QueryAnswer : Type := {
  response_text : string;
  response_confidence : R;
  response_intent : RAGPipeline.Intent;
  answer_sources : list RAGPipeline.Source;
  answer_relevanceScore : R;
  answer_metrics : RAGPipeline.Metrics;
  answer_queryIntent : RAGPipeline.Intent
}.

Inductive Response : Type :=
| Ok200 (body : QueryAnswer)
| BadRequest400 (error : string)
| ServerError500 (error : string).

(** [!query || query.trim().length === 0] *)
Definition queryIsMissing (query : QueryValue) : Outcome bool :=
  match query with
  | QueryFalsy => Returned true
  | QueryString s => Returned (String.length (trim s) =? 0)
  | QueryOther => Thrown "query.trim is not a function"
  end.

(** [documentIds?.join(', ') || 'all'], the text the route logs before it
    calls the pipeline. *)
Definition documentsLabel (documentIds : IdsValue) : Outcome string :=
  match documentIds with
  | IdsNullish => Returned "all"%string
  | IdsArray ids =>
      let joined := join ", " ids in
      Returned (if (String.length joined =? 0) then "all"%string else joined)
  | IdsOther => Thrown "documentIds?.join is not a function"
  end.

(** The [documentIds] argument the pipeline receives. *)
Definition idsArgument (documentIds : IdsValue) : option (list string) :=
  match documentIds with
  | IdsArray ids => Some ids
  | _ => None
  end.

(** The [filters] argument, [None] standing for a value without the two
    fields. *)
Definition filtersArgument (filters : option VectorStore.Filters) : VectorStore.Filters :=
  match filters with
  | Some f => f
  | None => {| VectorStore.minSimilarity := None; VectorStore.topK := None |}
  end.

(** The text of a string [query]; the other values do not reach the
    pipeline. *)
Definition queryText (query : QueryValue) : string :=
  match query with
  | QueryString s => s
  | _ => EmptyString
  end.

(** The handler of [app.post('/api/query', ...)] on the pipeline of the
    server: the body of its [try], then its [catch]. *)
Definition postQuery (ragPipeline : RAGPipeline.Pipeline) (body : QueryBody) : Response :=
  let query := body_query body in
  let documentIds := body_documentIds body in
  let filters := body_filters body in
  let attempt : Outcome Response :=
    missing <- queryIsMissing query ;;
    if missing : bool then Returned (BadRequest400 "Query is required")
    else
      _ <- documentsLabel documentIds ;;
      response <-
        RAGPipeline.query ragPipeline (queryText query) (idsArgument documentIds)
          (filtersArgument filters) ;;
      Returned
        (Ok200
           {| response_text := RAGPipeline.answer response;
              response_confidence := RAGPipeline.relevanceScore response;
              response_intent := RAGPipeline.queryIntent response;
              answer_sources := RAGPipeline.sources response;
              answer_relevanceScore := RAGPipeline.relevanceScore response;
              answer_metrics := RAGPipeline.metrics response;
              answer_queryIntent := RAGPipeline.queryIntent response |})
  in
  match attempt with
  | Returned answer => answer
  | Thrown message => ServerError500 ("Query processing failed: " ++ message)
  end.

End Server.

(* ================================================================== *)
(** * Specification vocabulary *)
(* ================================================================== *)

Module Spec.
Import Js.

(** The number of elements of a finite set of strings given by a
    predicate: the length of any duplicate-free enumeration of it. *)
Definition card (P : string -> Prop) (n : nat) : Prop :=
  exists l, NoDup l /\ (forall x, In x l <-> P x) /\ List.length l = n.

(** A ratio of two counts that is 0 when its divisor is 0. *)
Definition ratio (n d : nat) : R :=
  if (d =? 0) then 0%R else (INR n / INR d)%R.

(** Descending order of a list by a score. *)
Definition descending {A : Type} (score : A -> R) (l : list A) : Prop :=
  StronglySorted (fun a b => (score b <= score a)%R) l.

(** The elements of a list whose score is [s], in their order. *)
Definition withScore {A : Type} (score : A -> R) (s : R) (l : list A) : list A :=
  filter (fun a => if Req_dec_T (score a) s then true else false) l.

(** [ranked] lists the elements of [l] in descending order of [score],
    elements of equal score in the order they have in [l]. *)
Definition stablyRanked {A : Type} (score : A -> R) (l ranked : list A) : Prop :=
  Permutation l ranked /\
  descending score ranked /\
  forall s, withScore score s ranked = withScore score s l.

(** Dot product and squared norm of vectors as mathematics has them. *)
Fixpoint dot (u v : list R) : R :=
  match u, v with
  | x :: u', y :: v' => (x * y + dot u' v')%R
  | _, _ => 0%R
  end.

Definition normSq (u : list R) : R := dot u u.

Definition norm (u : list R) : R := sqrt (normSq u).


(** An invariant of both accumulation loops of the hash embedding: the
    array keeps its length and its non-negative entries, and no entry
    decreases. *)
Definition grows (before after : list R) : Prop :=
  List.length after = List.length before
  /\ (Forall (Rle 0) before -> Forall (Rle 0) after)
  /\ forall k, (nth k before 0 <= nth k after 0)%R.

(** The lower-cased white-space separated tokens of a text, as the code
    splits it: the pieces between the runs of white space, among them the
    empty piece before a leading and after a trailing run. *)
Definition tokens (s : string) : list string := splitWs (toLowerCase s).

(** The words of a text, which is what the specification's ratios count
    as its tokens: the maximal runs of code units other than white space,
    in order.  No word is empty, and a text without such a code unit has
    no word. *)
Fixpoint runs (s : string) : list string :=
  match s with
  | EmptyString => []
  | String c rest =>
      if isWhiteSpace c then runs rest
      else
        match rest with
        | EmptyString => [String c EmptyString]
        | String c' _ =>
            if isWhiteSpace c' then String c EmptyString :: runs rest
            else
              match runs rest with
              | w :: ws => String c w :: ws
              | [] => [String c EmptyString]
              end
        end
  end.

Definition words (s : string) : list string := runs (toLowerCase s).

(** The text begins, or ends, with a white-space code unit. *)
Definition startsWithSpace (s : string) : bool :=
  match s with
  | EmptyString => false
  | String c _ => isWhiteSpace c
  end.

Fixpoint endsWithSpace (s : string) : bool :=
  match s with
  | EmptyString => false
  | String c rest =>
      match rest with
      | EmptyString => isWhiteSpace c
      | String _ _ => endsWithSpace rest
      end
  end.

(** The share of the distinct words [a] that are among the words [b],
    0 when there is no word in [a]. *)
Definition wordShare (a b : list string) : R :=
  ratio (List.length (intersection (newSet a) (newSet b))) (List.length (newSet a)).

(** The words of all the sources. *)
Definition sourceWords (sources : list VectorStore.SearchResult) : list string :=
  List.concat (map (fun s => words (RAGPipeline.contentOf s)) sources).

(** The four ratios over words, as the specification states them. *)
Definition wordFaithfulness (answer : string) (sources : list VectorStore.SearchResult) : R :=
  wordShare (words answer) (sourceWords sources).

Definition wordAnswerRelevancy (query answer : string) : R :=
  wordShare (words query) (words answer).

Definition wordContextRecall (query : string) (sources : list VectorStore.SearchResult) : R :=
  wordShare (words query) (sourceWords sources).

Definition wordContextPrecision (query : string) (sources : list VectorStore.SearchResult) : R :=
  ratio
    (List.length
       (filter (fun s => existsb (has (words (RAGPipeline.contentOf s))) (words query))
          sources))
    (List.length sources).

(** [n] elements of the list satisfy [P]. *)
Inductive count {A : Type} (P : A -> Prop) : list A -> nat -> Prop :=
| count_nil : count P [] 0
| count_yes : forall x l n, P x -> count P l n -> count P (x :: l) (S n)
| count_no : forall x l n, ~ P x -> count P l n -> count P (x :: l) n.

(** The store, or the pipeline, takes the deterministic fallback path on
    [text]: it has no HuggingFace client, or the client's call throws. *)
Definition storeUsesFallback (st : VectorStore.Store) (text : string) : Prop :=
  VectorStore.hf st = None
  \/ exists client e,
       VectorStore.hf st = Some client
       /\ VectorStore.featureExtraction0 client text = Thrown e.

Definition pipelineUsesFallback (p : RAGPipeline.Pipeline) (text : string) : Prop :=
  RAGPipeline.hf p = None
  \/ exists client e,
       RAGPipeline.hf p = Some client
       /\ VectorStore.featureExtraction0 client text = Thrown e.

(** The three terms of the composite score that do not depend on the
    query. *)
Definition vectorSimilarity (chunk : RAGPipeline.ChunkView) : R :=
  match RAGPipeline.cv_similarity chunk with
  | Some s => s
  | None => 0%R
  end.

Definition lengthScore (chunk : RAGPipeline.ChunkView) : R :=
  Rmin (INR (String.length (RAGPipeline.cv_content chunk)) / 500) 1.

Definition metadataBonus (chunk : RAGPipeline.ChunkView) : R :=
  match RAGPipeline.cv_metadata chunk with
  | Some m => if VectorStore.semanticChunk m then 0.1%R else 0%R
  | None => 0%R
  end.



(** The key of the passage at index [i] of a document. *)
Definition keyOf (docId : string) (i : nat) : string :=
  (docId ++ "_" ++ natToString i)%string.

(** The chunks of a processing result ([processingResult.chunks || []]). *)
Definition chunksOf (pr : VectorStore.ProcessingResult) : list VectorStore.Chunk :=
  match VectorStore.chunks pr with
  | Some l => l
  | None => []
  end.

Definition hasEmbedding (c : VectorStore.Chunk) : Prop :=
  VectorStore.truthy (VectorStore.chunk_embedding c) = true.

(** The passages of the index, in insertion order. *)
Definition passages (st : VectorStore.Store) : list VectorStore.Vector :=
  map snd (VectorStore.vectors st).

(** The similarity of a query embedding to a passage of the index. *)
Definition similarityTo (q : VectorStore.JsValue) (v : VectorStore.Vector) : R :=
  VectorStore.calculateCosineSimilarity q (VectorStore.JArray (VectorStore.embedding v)).

Definition scored (q : VectorStore.JsValue) (v : VectorStore.Vector)
  : VectorStore.SearchResult :=
  {| VectorStore.vector := v; VectorStore.similarity := similarityTo q v |}.

(** The passage belongs to one of the documents asked for, when a list of
    document ids is supplied. *)
Definition inDocuments (ids : option (list string)) (v : VectorStore.Vector) : Prop :=
  match ids with
  | Some l => In (VectorStore.documentId v) l
  | None => True
  end.

Definition qualifies (q : VectorStore.JsValue) (ids : option (list string)) (m : R)
    (v : VectorStore.Vector) : bool :=
  negb (VectorStore.excluded ids v)
  && (if Rle_dec m (similarityTo q v) then true else false).

(** The passages a search must rank: those of the documents asked for
    whose similarity is at least [m], in insertion order. *)
Definition candidates (q : VectorStore.JsValue) (ids : option (list string)) (m : R)
    (st : VectorStore.Store) : list VectorStore.SearchResult :=
  map (scored q) (filter (qualifies q ids m) (passages st)).

(** The hash of a word before any wrap-around: [hash * 31 + c] over its
    code units, from [h]. *)
Fixpoint polyHash (h : Z) (word : string) : Z :=
  match word with
  | EmptyString => h
  | String c word' => polyHash (31 * h + charCode c) word'
  end.

(** A signed 32-bit integer. *)
Definition isInt32 (z : Z) : Prop := (- 2 ^ 31 <= z < 2 ^ 31)%Z.

(** The property names every plain object inherits from
    [Object.prototype]. *)
Definition inheritedKeys : list string :=
  ["constructor"; "__proto__"; "hasOwnProperty"; "isPrototypeOf";
   "propertyIsEnumerable"; "toLocaleString"; "toString"; "valueOf";
   "__defineGetter__"; "__defineSetter__"; "__lookupGetter__";
   "__lookupSetter__"]%string.

(** The keys of the index, in insertion order, and the lookup of one. *)
Definition keys (st : VectorStore.Store) : list string :=
  map fst (VectorStore.vectors st).

Definition lookup (k : string) (st : VectorStore.Store) : option VectorStore.Vector :=
  VectorStore.mapGet k (VectorStore.vectors st).

(** What [storeDocument] leaves under the key of a chunk. *)
Definition storedAs (st : VectorStore.Store) (docId : string) (n : nat)
    (c : VectorStore.Chunk) (v : VectorStore.Vector) : Prop :=
  VectorStore.id v = keyOf docId n
  /\ VectorStore.documentId v = docId
  /\ VectorStore.chunkId v = n
  /\ VectorStore.content v = VectorStore.chunk_content c
  /\ VectorStore.type v = VectorStore.chunk_type c
  /\ VectorStore.vmetadata v = VectorStore.chunk_metadata c
  /\ (forall l, VectorStore.chunk_embedding c = VectorStore.JArray l ->
        VectorStore.embedding v = l)
  /\ (forall arrayFrom, VectorStore.chunk_embedding c = VectorStore.JOther true arrayFrom ->
        VectorStore.embedding v = VectorStore.simpleHashEmbedding (VectorStore.chunk_content c))
  /\ (VectorStore.truthy (VectorStore.chunk_embedding c) = false ->
        VectorStore.generateEmbedding st (VectorStore.chunk_content c)
        = Returned (VectorStore.embedding v))
  /\ VectorStore.embeddingModel v
     = match VectorStore.chunk_embeddingModel c with
       | Some m => if (String.length m =? 0)%nat then "fallback"%string else m
       | None => "fallback"%string
       end.

(** The threshold and the result count a query ends up searching with:
    the request's own value when it has one that is not 0, else the
    pipeline's; a 0 from the request falls through to the store's
    default. *)
Definition queryThreshold (p : RAGPipeline.Pipeline) (filters : VectorStore.Filters) : R :=
  match VectorStore.minSimilarity filters with
  | Some m => if Req_dec_T m 0 then 0.1%R else m
  | None =>
      match RAGPipeline.MIN_SIMILARITY_THRESHOLD (RAGPipeline.env p) with
      | Some m => if Req_dec_T m 0 then 0.1%R else m
      | None => 0.1%R
      end
  end.


(** The place of an intent in the order of the rules; the default comes
    last. *)
Definition priority (i : RAGPipeline.Intent) : nat :=
  match i with
  | RAGPipeline.factual => 0
  | RAGPipeline.comparison => 1
  | RAGPipeline.procedural => 2
  | RAGPipeline.analytical => 3
  | RAGPipeline.numerical => 4
  | RAGPipeline.visual => 5
  | RAGPipeline.temporal => 6
  | RAGPipeline.location => 7
  | RAGPipeline.causal => 8
  | RAGPipeline.list_intent => 9
  | RAGPipeline.information_request => 10
  end.

(** The index of the first rule whose pattern matches, or the number of
    rules. *)
Fixpoint matchIndex (entries : list (RAGPipeline.Intent * list string)) (query : string)
  : nat :=
  match entries with
  | [] => 0
  | (_, pattern) :: rest =>
      if regexTest pattern query then 0 else S (matchIndex rest query)
  end.

(** A text with every code unit in its canonical case. *)
Fixpoint foldCase (s : string) : string :=
  match s with
  | EmptyString => EmptyString
  | String c s' => String (canonicalize c) (foldCase s')
  end.

(** A recogniser of the decimal numerals [\d+(\.\d+)?], by the state
    reached on a text: 0 at the start, 1 inside the integer part, 2 after
    the dot, 3 inside the fraction. *)
Fixpoint numeralRun (state : nat) (s : string) : option nat :=
  match s with
  | EmptyString => Some state
  | String c s' =>
      match state with
      | 0 => if isDigit c then numeralRun 1 s' else None
      | 1 => if isDigit c then numeralRun 1 s'
             else if Ascii.eqb c "."%char then numeralRun 2 s' else None
      | 2 => if isDigit c then numeralRun 3 s' else None
      | _ => if isDigit c then numeralRun 3 s' else None
      end
  end.

Definition isNumeral (s : string) : bool :=
  match numeralRun 0 s with
  | Some 1 | Some 3 => true
  | _ => false
  end.

(** The digits of a text, in order, and the concatenation of a list of
    texts. *)
Fixpoint digitsOf (s : string) : string :=
  match s with
  | EmptyString => EmptyString
  | String c s' => if isDigit c then String c (digitsOf s') else digitsOf s'
  end.

Definition flatten (l : list string) : string :=
  fold_right String.append EmptyString l.

(** The text matched so far in a state of the scan, and what holds of it. *)
Definition accOf (st : RAGPipeline.NumState) : string :=
  match st with
  | RAGPipeline.Idle => EmptyString
  | RAGPipeline.InInt a | RAGPipeline.AfterDot a | RAGPipeline.InFrac a => a
  end.

Definition stateOk (st : RAGPipeline.NumState) : Prop :=
  match st with
  | RAGPipeline.Idle => True
  | RAGPipeline.InInt a | RAGPipeline.AfterDot a => numeralRun 0 a = Some 1%nat
  | RAGPipeline.InFrac a => numeralRun 0 a = Some 3%nat
  end.

(** The text has no line feed. *)
Fixpoint noNewline (s : string) : bool :=
  match s with
  | EmptyString => true
  | String c s' => negb (Ascii.eqb c (ascii_of_nat 10)) && noNewline s'
  end.

(** No code unit of the string is in the class [p]. *)
Fixpoint freeOf (p : ascii -> bool) (s : string) : bool :=
  match s with
  | EmptyString => true
  | String c s' => negb (p c) && freeOf p s'
  end.

(** The string does not begin with white space; it neither begins nor
    ends with white space. *)
Definition startsClean (s : string) : bool :=
  match s with
  | EmptyString => true
  | String c _ => negb (isWhiteSpace c)
  end.

Definition trimmed (s : string) : bool :=
  startsClean s && startsClean (rev_string s EmptyString).

(** An upper-case code unit: one that [toLowerCase] changes. *)
Definition isCapital (c : ascii) : bool := negb (Ascii.eqb (lowerChar c) c).

(** Every code unit of the string is white space. *)
Fixpoint blank (s : string) : bool :=
  match s with
  | EmptyString => true
  | String c s' => isWhiteSpace c && blank s'
  end.

(** The word overlap by which [generateSimpleResponse] picks its chunk. *)
Definition overlapScore (query chunk : string) : R :=
  (INR (List.length (intersection (RAGPipeline.wordSet query) (RAGPipeline.wordSet chunk)))
   / INR (List.length (RAGPipeline.wordSet query)))%R.

(** The non-blank pieces of a context between blank lines. *)
Definition contextChunks (context : string) : list string :=
  filter (fun chunk => (0 <? String.length (trim chunk))%nat)
    (split (RAGPipeline.nl ++ RAGPipeline.nl) context).

(** The number of passages of the index whose model is [model]. *)
Definition passagesOfModel (model : string) (st : VectorStore.Store) : nat :=
  List.length (filter (fun v => String.eqb (VectorStore.modelOf v) model) (passages st)).

End Spec.

(* ================================================================== *)
(** * Concrete stores, queries and documents *)
(* ================================================================== *)

Module Examples.
Import Js.

Definition passage (doc : string) (i : nat) (text : string) (emb : list R)
  : VectorStore.Vector :=
  {| VectorStore.id := (doc ++ "_" ++ natToString i)%string;
     VectorStore.documentId := doc;
     VectorStore.chunkId := i;
     VectorStore.content := text;
     VectorStore.vmetadata := None;
     VectorStore.type := "pdf"%string;
     VectorStore.embedding := emb;
     VectorStore.embeddingModel := "fallback"%string |}.

Definition storeOf (vs : list VectorStore.Vector) : VectorStore.Store :=
  {| VectorStore.vectors := map (fun v => (VectorStore.id v, v)) vs;
     VectorStore.documents := [];
     VectorStore.hf := None |}.

(** One passage whose embedding is orthogonal to the query [1, 0]. *)
Definition orthogonalStore : VectorStore.Store :=
  storeOf [passage "1" 0 "revenue report" [0%R; 1%R]].

Definition zeroThreshold : VectorStore.Filters :=
  {| VectorStore.minSimilarity := Some 0%R; VectorStore.topK := Some 5%Z |}.

Definition noFilters : VectorStore.Filters :=
  {| VectorStore.minSimilarity := None; VectorStore.topK := None |}.

(** A store with no passage and no HuggingFace client. *)
Definition emptyStore : VectorStore.Store := VectorStore.new None.

(** A HuggingFace client whose every call throws. *)
Definition failingClient : VectorStore.HfClient :=
  {| VectorStore.featureExtraction0 := fun _ => Thrown "503"%string;
     VectorStore.textGeneration := fun _ _ => Thrown "503"%string |}.

(** A store that holds a passage and whose client fails. *)
Definition degradedStore : VectorStore.Store :=
  {| VectorStore.vectors := VectorStore.vectors orthogonalStore;
     VectorStore.documents := [];
     VectorStore.hf := Some failingClient |}.

Definition noEnv : RAGPipeline.Env :=
  {| RAGPipeline.TOP_K_RESULTS := None;
     RAGPipeline.MIN_SIMILARITY_THRESHOLD := None;
     RAGPipeline.HUGGINGFACE := None |}.

Definition degradedEnv : RAGPipeline.Env :=
  {| RAGPipeline.TOP_K_RESULTS := Some 3%Z;
     RAGPipeline.MIN_SIMILARITY_THRESHOLD := None;
     RAGPipeline.HUGGINGFACE := Some failingClient |}.


(** A document of two passages: the first arrives with its embedding,
    the second without one. *)
Definition twoChunkDocument : VectorStore.ProcessingResult :=
  {| VectorStore.chunks :=
       Some [ {| VectorStore.chunk_content :=
                   "The quarterly revenue was 42 million dollars."%string;
                 VectorStore.chunk_type := "pdf"%string;
                 VectorStore.chunk_metadata := None;
                 VectorStore.chunk_embedding := VectorStore.JArray [1%R];
                 VectorStore.chunk_embeddingModel := None |};
              {| VectorStore.chunk_content := "Costs fell by a tenth."%string;
                 VectorStore.chunk_type := "pdf"%string;
                 VectorStore.chunk_metadata := None;
                 VectorStore.chunk_embedding := VectorStore.undefined;
                 VectorStore.chunk_embeddingModel := None |} ];
     VectorStore.metadata := None |}.

(** An index holding one passage under the hash embedding of its text. *)
Definition hashedStore : VectorStore.Store :=
  storeOf [passage "1" 0 "revenue report"
             (VectorStore.simpleHashEmbedding "revenue report")].

(** A pipeline over an empty index, without providers. *)
Definition emptyPipeline : RAGPipeline.Pipeline := RAGPipeline.new noEnv emptyStore.

Definition degradedPipeline : RAGPipeline.Pipeline :=
  RAGPipeline.new degradedEnv degradedStore.

(** A pipeline over the index [hashedStore], without providers. *)
Definition hashedPipeline : RAGPipeline.Pipeline := RAGPipeline.new noEnv hashedStore.

(** A client whose [response[0]] is a number, not an array (a non-zero
    number is truthy, and [Array.from] of it is empty); its text
    generation fails. *)
Definition scalarClient : VectorStore.HfClient :=
  {| VectorStore.featureExtraction0 := fun _ => Returned (VectorStore.JOther true []);
     VectorStore.textGeneration := fun _ _ => Thrown "503"%string |}.

(** A pipeline with that client over the index [hashedStore]. *)
Definition scalarPipeline : RAGPipeline.Pipeline :=
  RAGPipeline.new
    {| RAGPipeline.TOP_K_RESULTS := None;
       RAGPipeline.MIN_SIMILARITY_THRESHOLD := None;
       RAGPipeline.HUGGINGFACE := Some scalarClient |}
    hashedStore.

(** A retrieved passage whose text ends with a space. *)
Definition dogSource : VectorStore.SearchResult :=
  {| VectorStore.vector := passage "1" 0 "dog " [1%R];
     VectorStore.similarity := 1%R |}.

(** A document processor without model client. *)
Definition plainProcessor : DocumentProcessor.Processor :=
  {| DocumentProcessor.hf := None |}.

End Examples.

(* ================================================================== *)
(** * Properties of the primitives *)
(* ================================================================== *)

Section SortFacts.
Import Js Spec.
Context {A : Type} (score : A -> R).

(** The comparator of both sorts of the source: [(a, b) => score(b) - score(a)]. *)
Let cmp (a b : A) : R := (score b - score a)%R.

Lemma insertSorted_perm (x : A) (l : list A) :
  Permutation (x :: l) (insertSorted cmp x l).
Proof.
  induction l as [|y l IH]; simpl.
  - apply Permutation_refl.
  - destruct (Rlt_dec 0 (cmp x y)).
    + eapply perm_trans; [apply perm_swap | apply perm_skip, IH].
    + apply Permutation_refl.
Qed.

Lemma sort_perm (l : list A) : Permutation l (sort cmp l).
Proof.
  induction l as [|x l IH]; simpl.
  - apply perm_nil.
  - eapply perm_trans; [apply perm_skip, IH | apply insertSorted_perm].
Qed.

Lemma insertSorted_descending (x : A) (l : list A) :
  descending score l -> descending score (insertSorted cmp x l).
Proof.
  unfold descending.
  induction l as [|y l IH]; simpl; intros Hs.
  - constructor; [constructor | constructor].
  - inversion Hs as [|? ? Hl Hy]; subst.
    destruct (Rlt_dec 0 (cmp x y)) as [Hlt | Hge].
    + constructor; [apply IH; assumption |].
      apply (Permutation_Forall (insertSorted_perm x l)).
      constructor; [unfold cmp in Hlt; lra | assumption].
    + constructor; [assumption |].
      constructor; [unfold cmp in Hge; lra |].
      eapply Forall_impl; [| exact Hy].
      intros a Ha; simpl in Ha. unfold cmp in Hge. lra.
Qed.

Lemma sort_descending (l : list A) : descending score (sort cmp l).
Proof.
  induction l as [|x l IH]; simpl.
  - constructor.
  - apply insertSorted_descending, IH.
Qed.

Lemma insertSorted_withScore (s : R) (x : A) (l : list A) :
  withScore score s (insertSorted cmp x l) = withScore score s (x :: l).
Proof.
  induction l as [|y l IH]; [reflexivity |].
  simpl insertSorted.
  destruct (Rlt_dec 0 (cmp x y)) as [Hlt | Hge]; [| reflexivity].
  unfold withScore in *. simpl in *. rewrite IH.
  unfold cmp in Hlt.
  destruct (Req_dec_T (score y) s), (Req_dec_T (score x) s); try reflexivity.
  exfalso; lra.
Qed.

Lemma sort_withScore (s : R) (l : list A) :
  withScore score s (sort cmp l) = withScore score s l.
Proof.
  induction l as [|x l IH]; [reflexivity |].
  simpl sort. rewrite insertSorted_withScore.
  unfold withScore in *. simpl. rewrite IH. reflexivity.
Qed.

Lemma sort_stablyRanked (l : list A) : stablyRanked score l (sort cmp l).
Proof.
  split; [apply sort_perm | split; [apply sort_descending | intro s; apply sort_withScore]].
Qed.

End SortFacts.

Section SliceFacts.
Import Js.
Context {A : Type}.

Lemma slice0_nil (k : Z) : slice0 k (@nil A) = [].
Proof.
  unfold slice0. destruct (0 <=? k)%Z; [apply firstn_nil | reflexivity].
Qed.

Lemma slice0_firstn (k : Z) (l : list A) :
  (0 <= k)%Z -> slice0 k l = firstn (Z.to_nat k) l.
Proof.
  intros Hk. unfold slice0.
  destruct (Z.leb_spec 0 k); [reflexivity | lia].
Qed.

Lemma slice0_length (k : Z) (l : list A) :
  (0 <= k)%Z -> (Z.of_nat (List.length (slice0 k l)) <= k)%Z.
Proof.
  intros Hk. rewrite slice0_firstn by assumption.
  rewrite length_firstn. lia.
Qed.

Lemma firstn_In (n : nat) (l : list A) (x : A) : In x (firstn n l) -> In x l.
Proof.
  intros H. rewrite <- (firstn_skipn n l). apply in_or_app. left. exact H.
Qed.

Lemma slice0_incl (k : Z) (l : list A) (x : A) : In x (slice0 k l) -> In x l.
Proof.
  unfold slice0. destruct (0 <=? k)%Z; apply firstn_In.
Qed.

End SliceFacts.

Section VectorFacts.
Import Js Spec.
Open Scope R_scope.

Lemma normSq_nonneg (u : list R) : 0 <= normSq u.
Proof.
  unfold normSq. induction u as [|x u IH]; simpl; [lra | nra].
Qed.

Lemma dot_repeat_zero_r (u : list R) (k : nat) : dot u (repeat 0 k) = 0.
Proof.
  revert k. induction u as [|x u IH]; intros [|k]; simpl; try reflexivity.
  rewrite IH. lra.
Qed.

Lemma normSq_app_zeros (u : list R) (k : nat) : normSq (u ++ repeat 0 k) = normSq u.
Proof.
  unfold normSq. induction u as [|x u IH]; simpl.
  - apply dot_repeat_zero_r.
  - rewrite IH. reflexivity.
Qed.

Lemma normSq_padTo (n : nat) (u : list R) : normSq (VectorStore.padTo n u) = normSq u.
Proof. apply normSq_app_zeros. Qed.

Lemma padTo_length (n : nat) (u : list R) :
  (List.length u <= n)%nat -> List.length (VectorStore.padTo n u) = n.
Proof.
  intros H. unfold VectorStore.padTo. rewrite length_app, repeat_length. lia.
Qed.

Lemma normSq_all_zero (u : list R) : Forall (eq 0) u -> normSq u = 0.
Proof.
  unfold normSq. induction 1 as [|x u Hx _ IH]; simpl; [reflexivity |].
  subst x. rewrite IH. lra.
Qed.

(** The loop adds the dot product and the two squared norms to its
    accumulators. *)
Lemma similarityLoop_sums (u v : list R) :
  List.length u = List.length v ->
  forall d n1 n2,
    VectorStore.similarityLoop u v d n1 n2 = (d + dot u v, n1 + normSq u, n2 + normSq v).
Proof.
  unfold normSq. revert v.
  induction u as [|x u IH]; intros [|y v] Hlen d n1 n2; simpl in *; try discriminate.
  - f_equal; [f_equal |]; lra.
  - rewrite IH by lia. f_equal; [f_equal |]; lra.
Qed.

(** Cauchy-Schwarz. *)
Lemma dot_sq_le (u v : list R) : dot u v * dot u v <= normSq u * normSq v.
Proof.
  revert v. induction u as [|x u IH]; intros [|y v].
  - unfold normSq; simpl; lra.
  - unfold normSq; simpl; lra.
  - unfold normSq; simpl; lra.
  - specialize (IH v).
    pose proof (normSq_nonneg u) as Hu. pose proof (normSq_nonneg v) as Hv.
    change (normSq (x :: u)) with (x * x + normSq u).
    change (normSq (y :: v)) with (y * y + normSq v).
    change (dot (x :: u) (y :: v)) with (x * y + dot u v).
    set (d := dot u v) in *. set (nu := normSq u) in *. set (nv := normSq v) in *.
    assert (Hcross : 2 * (x * y * d) <= x * x * nv + y * y * nu).
    { set (p := x * x * nv + y * y * nu). set (q := 2 * (x * y * d)).
      destruct (Rle_lt_dec q p) as [H | H]; [exact H | exfalso].
      assert (Hp : 0 <= p) by (unfold p; nra).
      assert (Hsq : 0 < (q - p) * (q + p)) by (apply Rmult_lt_0_compat; lra).
      assert (Hxy : 0 <= (x * y) * (x * y)) by apply Rle_0_sqr.
      assert (Hm : (x * y) * (x * y) * (d * d) <= (x * y) * (x * y) * (nu * nv))
        by (apply Rmult_le_compat_l; assumption).
      assert (Hamgm : 0 <= (x * x * nv - y * y * nu) * (x * x * nv - y * y * nu))
        by apply Rle_0_sqr.
      assert (Hpp : p * p = (x * x * nv - y * y * nu) * (x * x * nv - y * y * nu)
                            + 4 * ((x * y) * (x * y) * (nu * nv))) by (unfold p; ring).
      assert (Hqq : q * q = 4 * ((x * y) * (x * y) * (d * d))) by (unfold q; ring).
      assert (Hexp : (q - p) * (q + p) = q * q - p * p) by ring.
      lra. }
    nra.
Qed.

Lemma abs_dot_le (u v : list R) : Rabs (dot u v) <= sqrt (normSq u) * sqrt (normSq v).
Proof.
  rewrite <- sqrt_mult by apply normSq_nonneg.
  rewrite <- sqrt_Rsqr_abs. apply sqrt_le_1_alt. unfold Rsqr. apply dot_sq_le.
Qed.

(** The similarity of two arrays, in terms of the padded vectors. *)
Lemma cosine_formula (a b : list R) :
  let n := Nat.max (List.length a) (List.length b) in
  let u := VectorStore.padTo n a in
  let v := VectorStore.padTo n b in
  VectorStore.calculateCosineSimilarity (VectorStore.JArray a) (VectorStore.JArray b)
  = if Req_dec_T (norm u * norm v) 0 then 0 else dot u v / (norm u * norm v).
Proof.
  intros n u v. unfold VectorStore.calculateCosineSimilarity.
  fold n. fold u. fold v.
  rewrite similarityLoop_sums
    by (unfold u, v; rewrite !padTo_length; unfold n; lia).
  rewrite !Rplus_0_l. reflexivity.
Qed.

Lemma cosine_bounds (a b : list R) :
  -1 <= VectorStore.calculateCosineSimilarity (VectorStore.JArray a) (VectorStore.JArray b) <= 1.
Proof.
  rewrite cosine_formula. cbv zeta.
  set (u := VectorStore.padTo _ a). set (v := VectorStore.padTo _ b).
  destruct (Req_dec_T (norm u * norm v) 0) as [_ | Hne]; [lra |].
  pose proof (abs_dot_le u v) as Habs. fold (norm u) in Habs. fold (norm v) in Habs.
  assert (Hpos : 0 < norm u * norm v).
  { pose proof (sqrt_pos (normSq u)). pose proof (sqrt_pos (normSq v)).
    unfold norm in *. nra. }
  assert (Hd : - (norm u * norm v) <= dot u v <= norm u * norm v)
    by (unfold Rabs in Habs; destruct (Rcase_abs (dot u v)); lra).
  split.
  - apply Rmult_le_reg_r with (norm u * norm v); [exact Hpos |].
    unfold Rdiv. rewrite Rmult_assoc, Rinv_l by lra. lra.
  - apply Rmult_le_reg_r with (norm u * norm v); [exact Hpos |].
    unfold Rdiv. rewrite Rmult_assoc, Rinv_l by lra. lra.
Qed.

Lemma cosine_zero_norm (a b : list R) :
  norm a = 0 \/ norm b = 0 ->
  VectorStore.calculateCosineSimilarity (VectorStore.JArray a) (VectorStore.JArray b) = 0.
Proof.
  intros H. rewrite cosine_formula. cbv zeta.
  destruct (Req_dec_T _ 0) as [_ | Hne]; [reflexivity | exfalso; apply Hne].
  unfold norm in *. rewrite !normSq_padTo.
  destruct H as [H | H]; rewrite H; lra.
Qed.

Lemma norm_all_zero (u : list R) : Forall (eq 0) u -> norm u = 0.
Proof.
  intros H. unfold norm. rewrite normSq_all_zero by assumption. apply sqrt_0.
Qed.

End VectorFacts.

Section SearchFacts.
Import Js Spec.
Open Scope R_scope.

Lemma excluded_false_iff (ids : option (list string)) (v : VectorStore.Vector) :
  VectorStore.excluded ids v = false <-> inDocuments ids v.
Proof.
  destruct ids as [l |]; simpl; [| tauto].
  rewrite negb_false_iff, existsb_exists. split.
  - intros [x [Hin Heq]]. apply String.eqb_eq in Heq. subst x. exact Hin.
  - intros Hin. exists (VectorStore.documentId v). split; [exact Hin | apply String.eqb_refl].
Qed.

Lemma qualifies_iff q ids m v :
  qualifies q ids m v = true <-> inDocuments ids v /\ m <= similarityTo q v.
Proof.
  unfold qualifies. rewrite andb_true_iff, negb_true_iff, excluded_false_iff.
  destruct (Rle_dec m (similarityTo q v)); intuition discriminate.
Qed.

(** The scan appends the candidates to the results it starts from. *)
Lemma searchLoop_candidates q ids m (entries : list (string * VectorStore.Vector)) :
  forall results,
    VectorStore.searchLoop q ids m entries results
    = results ++ map (scored q) (filter (qualifies q ids m) (map snd entries)).
Proof.
  induction entries as [| [key v] entries IH]; intros results; simpl.
  - rewrite app_nil_r. reflexivity.
  - unfold qualifies at 1. fold (similarityTo q v).
    destruct (VectorStore.excluded ids v); simpl.
    + apply IH.
    + destruct (Rle_dec m (similarityTo q v)); simpl.
      * rewrite IH, <- app_assoc. reflexivity.
      * apply IH.
Qed.

Lemma candidates_In q ids m st (r : VectorStore.SearchResult) :
  In r (candidates q ids m st) <->
  exists v, In v (passages st) /\ r = scored q v
            /\ m <= VectorStore.similarity r /\ inDocuments ids v.
Proof.
  unfold candidates. rewrite in_map_iff. split.
  - intros [v [Hr Hin]]. apply filter_In in Hin. destruct Hin as [Hin Hq].
    apply qualifies_iff in Hq. exists v. subst r. simpl. tauto.
  - intros [v [Hin [Hr [Hm Hd]]]]. exists v. split; [symmetry; exact Hr |].
    apply filter_In. split; [exact Hin |]. apply qualifies_iff. subst r. simpl in Hm. tauto.
Qed.

Lemma search_unfold st q ids filters :
  VectorStore.searchWithEmbedding st q ids filters
  = slice0 (VectorStore.effectiveTopK filters)
      (sort (fun a b => VectorStore.similarity b - VectorStore.similarity a)
         (candidates q ids (VectorStore.effectiveMinSimilarity filters) st)).
Proof.
  unfold VectorStore.searchWithEmbedding. rewrite searchLoop_candidates. reflexivity.
Qed.

Lemma search_results_in_passages st q ids filters (r : VectorStore.SearchResult) :
  In r (VectorStore.searchWithEmbedding st q ids filters) ->
  In (VectorStore.vector r) (passages st).
Proof.
  rewrite search_unfold. intros H. apply slice0_incl in H.
  eapply Permutation_in in H; [| apply Permutation_sym, sort_perm].
  apply candidates_In in H. destruct H as [v [Hv [Hr _]]]. subst r. exact Hv.
Qed.

Lemma search_empty_index st q ids filters :
  VectorStore.vectors st = [] -> VectorStore.searchWithEmbedding st q ids filters = [].
Proof.
  intros H. rewrite search_unfold. unfold candidates, passages. rewrite H. simpl.
  apply slice0_nil.
Qed.

(** In exact arithmetic only: the quotient the code computes in binary64
    is not clamped and can exceed 1 by a rounding error. *)
Lemma similarityTo_le_1 q v : similarityTo q v <= 1.
Proof.
  unfold similarityTo. destruct q as [a | t af]; simpl VectorStore.calculateCosineSimilarity.
  - apply cosine_bounds.
  - lra.
Qed.


End SearchFacts.

(* ================================================================== *)
(** * Similarity search *)
(* ================================================================== *)

Section Search.
Import Js Spec.
Open Scope R_scope.
#[local] Arguments VectorStore.calculateCosineSimilarity : simpl never.

Lemma orthogonal_similarity :
  VectorStore.calculateCosineSimilarity
    (VectorStore.JArray [1; 0]) (VectorStore.JArray [0; 1]) = 0.
Proof.
  rewrite cosine_formula. cbv zeta.
  destruct (Req_dec_T _ 0); [reflexivity |].
  unfold VectorStore.padTo; simpl. lra.
Qed.

(** C1, as stated, fails: with [minSimilarity = 0] the passage of
    [orthogonalStore] has similarity 0, which is at least the threshold
    asked for, and the search still returns nothing, because a threshold
    of 0 is replaced by 0.1. *)
Lemma search_zero_threshold_counterexample :
  (exists v, In v (passages Examples.orthogonalStore)
             /\ 0 <= similarityTo (VectorStore.JArray [1; 0]) v)
  /\ VectorStore.searchWithEmbedding Examples.orthogonalStore
       (VectorStore.JArray [1; 0]) None Examples.zeroThreshold = [].
Proof.
  split.
  - eexists. split; [left; reflexivity |].
    unfold similarityTo; simpl VectorStore.embedding.
    rewrite orthogonal_similarity. lra.
  - rewrite search_unfold.
    assert (Hc : candidates (VectorStore.JArray [1; 0]) None
                   (VectorStore.effectiveMinSimilarity Examples.zeroThreshold)
                   Examples.orthogonalStore = []).
    { unfold candidates, passages; simpl.
      unfold qualifies, similarityTo; simpl.
      rewrite orthogonal_similarity.
      unfold VectorStore.effectiveMinSimilarity; simpl.
      destruct (Req_dec_T 0 0) as [_ | Hne]; [| exfalso; apply Hne; reflexivity].
      destruct (Rle_dec 0.1 0) as [Hle | _]; [exfalso; lra | reflexivity]. }
    rewrite Hc. apply slice0_nil.
Qed.

(** C1, amended: the search ranks exactly the passages of the documents
    asked for whose similarity is at least the effective threshold
    ([minSimilarity], or 0.1 when it is 0 or absent), in descending order
    of similarity with ties in insertion order, and returns the first
    [topK] of them (the first 10 when [topK] is 0 or absent). *)
Theorem search_ranked_results :
  forall (st : VectorStore.Store) (q : VectorStore.JsValue)
         (ids : option (list string)) (filters : VectorStore.Filters),
    let m := VectorStore.effectiveMinSimilarity filters in
    let k := VectorStore.effectiveTopK filters in
    (forall m0, VectorStore.minSimilarity filters = Some m0 -> m0 <> 0 -> m = m0)
    /\ (VectorStore.minSimilarity filters = Some 0
        \/ VectorStore.minSimilarity filters = None -> m = 0.1)
    /\ (forall k0, VectorStore.topK filters = Some k0 -> k0 <> 0%Z -> k = k0)
    /\ (VectorStore.topK filters = Some 0%Z
        \/ VectorStore.topK filters = None -> k = 10%Z)
    /\ exists ranked,
         stablyRanked VectorStore.similarity (candidates q ids m st) ranked
         /\ (forall r, In r ranked <->
               exists v, In v (passages st) /\ r = scored q v
                         /\ m <= VectorStore.similarity r /\ inDocuments ids v)
         /\ VectorStore.searchWithEmbedding st q ids filters = slice0 k ranked
         /\ ((0 <= k)%Z ->
             VectorStore.searchWithEmbedding st q ids filters
             = firstn (Z.to_nat k) ranked
             /\ (Z.of_nat (List.length
                   (VectorStore.searchWithEmbedding st q ids filters)) <= k)%Z)
         /\ (forall r, In r (VectorStore.searchWithEmbedding st q ids filters) ->
               m <= VectorStore.similarity r
               /\ inDocuments ids (VectorStore.vector r)).
Proof.
  intros st q ids filters m k.
  split; [| split; [| split; [| split]]].
  - intros m0 H Hne. unfold m, VectorStore.effectiveMinSimilarity. rewrite H.
    destruct (Req_dec_T m0 0); [contradiction | reflexivity].
  - unfold m, VectorStore.effectiveMinSimilarity. intros [H | H]; rewrite H.
    + destruct (Req_dec_T 0 0) as [_ | Hne]; [reflexivity | exfalso; apply Hne; reflexivity].
    + reflexivity.
  - intros k0 H Hne. unfold k, VectorStore.effectiveTopK. rewrite H.
    destruct (Z.eqb_spec k0 0); [contradiction | reflexivity].
  - unfold k, VectorStore.effectiveTopK. intros [H | H]; rewrite H; reflexivity.
  - exists (sort (fun a b => VectorStore.similarity b - VectorStore.similarity a)
              (candidates q ids m st)).
    pose proof (sort_stablyRanked VectorStore.similarity (candidates q ids m st)) as Hr.
    assert (Hin : forall r,
              In r (sort (fun a b => VectorStore.similarity b - VectorStore.similarity a)
                      (candidates q ids m st))
              <-> exists v, In v (passages st) /\ r = scored q v
                            /\ m <= VectorStore.similarity r /\ inDocuments ids v).
    { intros r. rewrite <- candidates_In. destruct Hr as [Hp _]. split; intros Hin.
      - eapply Permutation_in; [apply Permutation_sym; exact Hp | exact Hin].
      - eapply Permutation_in; [exact Hp | exact Hin]. }
    split; [exact Hr |].
    split; [exact Hin |].
    split; [apply search_unfold |].
    split.
    + intros Hk. rewrite search_unfold. fold m. fold k. split.
      * apply slice0_firstn; exact Hk.
      * apply slice0_length; exact Hk.
    + intros r Hr0. rewrite search_unfold in Hr0. apply slice0_incl in Hr0.
      apply Hin in Hr0. destruct Hr0 as [v [_ [Hv [Hm Hd]]]].
      split; [exact Hm |]. subst r. exact Hd.
Qed.

End Search.

(* ================================================================== *)
(** * Cosine similarity *)
(* ================================================================== *)

Section Cosine.
Import Js Spec.
Open Scope R_scope.


End Cosine.

Section CosineBinary64.
Import PrimFloat.


End CosineBinary64.

(* ================================================================== *)
(** * The hash embedding *)
(* ================================================================== *)

Section HashEmbedding.
Import Js Spec.
Open Scope R_scope.

Lemma addAt_length (i : nat) (x : R) (l : list R) :
  List.length (addAt i x l) = List.length l.
Proof.
  revert i. induction l as [|v l IH]; intros [|i]; simpl; try reflexivity.
  rewrite IH. reflexivity.
Qed.

Lemma addAt_nonneg (i : nat) (x : R) (l : list R) :
  0 <= x -> Forall (Rle 0) l -> Forall (Rle 0) (addAt i x l).
Proof.
  intros Hx. revert i. induction l as [|v l IH]; intros [|i] H; simpl; try assumption;
    inversion H; subst; constructor; try assumption; [lra | apply IH; assumption].
Qed.

Lemma addAt_nth_same (i : nat) (x : R) (l : list R) :
  (i < List.length l)%nat -> nth i (addAt i x l) 0 = nth i l 0 + x.
Proof.
  revert i. induction l as [|v l IH]; intros [|i] H; simpl in *; try lia; try reflexivity.
  apply IH. lia.
Qed.

Lemma addAt_nth_ge (i k : nat) (x : R) (l : list R) :
  0 <= x -> nth k l 0 <= nth k (addAt i x l) 0.
Proof.
  intros Hx. revert i k. induction l as [|v l IH]; intros [|i] [|k]; simpl; try lra.
  apply IH.
Qed.

Lemma grows_refl (l : list R) : grows l l.
Proof. split; [reflexivity | split; [tauto | intros; lra]]. Qed.

Lemma grows_trans (a b c : list R) : grows a b -> grows b c -> grows a c.
Proof.
  intros [L1 [N1 M1]] [L2 [N2 M2]].
  split; [congruence | split; [tauto |]].
  intros k. specialize (M1 k). specialize (M2 k). lra.
Qed.

Lemma grows_addAt (i : nat) (x : R) (l : list R) : 0 <= x -> grows l (addAt i x l).
Proof.
  intros Hx. split; [apply addAt_length | split].
  - apply addAt_nonneg; assumption.
  - intros k. apply addAt_nth_ge; assumption.
Qed.

Lemma wordLoop_grows (words : list string) (emb : list R) :
  grows emb (VectorStore.wordLoop words emb).
Proof.
  unfold VectorStore.wordLoop. revert emb.
  induction words as [|w words IH]; intros emb; simpl.
  - apply grows_refl.
  - eapply grows_trans; [| apply IH]. apply grows_addAt. lra.
Qed.

Lemma charLoop_grows (s : string) : forall (i : nat) (emb : list R),
  grows emb (VectorStore.charLoop i s emb).
Proof.
  induction s as [|c s IH]; intros i emb; simpl.
  - apply grows_refl.
  - destruct (i <? 100)%nat; [| apply grows_refl].
    eapply grows_trans; [| apply IH]. apply grows_addAt. lra.
Qed.

Lemma zeros_nonneg (n : nat) : Forall (Rle 0) (repeat 0 n).
Proof. induction n; simpl; constructor; [lra | assumption]. Qed.

Lemma sumOf_squares (l : list R) : sumOf (fun val => val * val) l = normSq l.
Proof.
  unfold sumOf, normSq.
  assert (H : forall acc, fold_left (fun sum v => sum + v * v) l acc = acc + dot l l).
  { induction l as [|x l IH]; intros acc; simpl; [lra |]. rewrite IH. lra. }
  rewrite H. lra.
Qed.

Lemma magnitudeOf_norm (l : list R) : VectorStore.magnitudeOf l = norm l.
Proof. unfold VectorStore.magnitudeOf, norm. rewrite sumOf_squares. reflexivity. Qed.

Lemma normSq_nth (k : nat) (l : list R) : nth k l 0 * nth k l 0 <= normSq l.
Proof.
  unfold normSq. revert k. induction l as [|x l IH]; intros [|k]; simpl; try lra.
  - pose proof (normSq_nonneg l) as H. unfold normSq in H. nra.
  - specialize (IH k). nra.
Qed.

Lemma norm_pos_of_entry (k : nat) (l : list R) : 0 < nth k l 0 -> 0 < norm l.
Proof.
  intros H. unfold norm. apply sqrt_lt_R0.
  pose proof (normSq_nth k l). nra.
Qed.

(** Dividing every entry by the norm gives a vector of norm 1. *)
Lemma normSq_scaled (m : R) (l : list R) :
  m <> 0 -> normSq (map (fun v => v / m) l) = normSq l / (m * m).
Proof.
  intros Hm. unfold normSq. induction l as [|x l IH]; simpl.
  - unfold Rdiv. lra.
  - rewrite IH. field. exact Hm.
Qed.

Lemma norm_normalized (l : list R) :
  0 < norm l -> norm (map (fun v => v / norm l) l) = 1.
Proof.
  intros Hpos. unfold norm at 1. rewrite normSq_scaled by lra.
  unfold norm. rewrite sqrt_sqrt by apply normSq_nonneg.
  unfold norm in Hpos.
  assert (Hn : 0 < normSq l).
  { destruct (Rle_lt_dec (normSq l) 0) as [H | H]; [| exact H].
    pose proof (normSq_nonneg l). replace (normSq l) with 0 in Hpos by lra.
    rewrite sqrt_0 in Hpos. lra. }
  replace (normSq l / normSq l) with 1 by (field; lra).
  apply sqrt_1.
Qed.

(** The text the store's method works on is never empty. *)
Lemma accumulate_head_pos (text : string) :
  0 < nth 0 (VectorStore.accumulate text) 0
  /\ List.length (VectorStore.accumulate text) = 384%nat.
Proof.
  unfold VectorStore.accumulate.
  set (t := if (String.length text =? 0)%nat then "default text"%string else text).
  set (w := VectorStore.wordLoop _ _).
  assert (Hw : grows (repeat 0 384) w) by apply wordLoop_grows.
  assert (Ht : exists c rest, t = String c rest).
  { unfold t. destruct text as [|c rest]; simpl; eauto. }
  destruct Ht as [c [rest Ht]]. rewrite Ht.
  simpl VectorStore.charLoop.
  rewrite Z.mul_0_r. change (Z.to_nat (0 mod 384)) with 0%nat.
  pose proof (charLoop_grows rest 1 (addAt 0 0.1 w)) as [L [_ M]].
  destruct Hw as [Lw [Nw Mw]].
  rewrite repeat_length in Lw.
  split.
  - specialize (M 0%nat). specialize (Mw 0%nat).
    rewrite addAt_nth_same in M by lia.
    change (nth 0 (repeat 0 384) 0) with 0 in Mw. lra.
  - rewrite L, addAt_length. exact Lw.
Qed.

Lemma store_magnitude_pos (text : string) :
  0 < VectorStore.magnitudeOf (VectorStore.accumulate text).
Proof.
  rewrite magnitudeOf_norm. apply norm_pos_of_entry with (k := 0%nat).
  apply accumulate_head_pos.
Qed.

Lemma store_embedding_normalized (text : string) :
  VectorStore.simpleHashEmbedding text
  = map (fun v => v / norm (VectorStore.accumulate text)) (VectorStore.accumulate text).
Proof.
  unfold VectorStore.simpleHashEmbedding, VectorStore.normalize.
  pose proof (store_magnitude_pos text) as H.
  destruct (Req_dec_T _ 0) as [E | _]; [rewrite E in H; lra |].
  rewrite magnitudeOf_norm. reflexivity.
Qed.

Lemma splitWs_nonempty (s : string) : splitWs s <> [].
Proof.
  induction s as [|c s IH]; simpl; [discriminate |].
  destruct (isWhiteSpace c).
  - destruct s as [|c' s']; [discriminate |].
    destruct (isWhiteSpace c'); [exact IH | discriminate].
  - destruct (splitWs s); discriminate.
Qed.

Lemma wordIndex_bound (w : string) : (VectorStore.wordIndex w < 384)%nat.
Proof.
  unfold VectorStore.wordIndex.
  pose proof (Z.mod_pos_bound (Z.abs (VectorStore.hashLoop 0 w)) 384). lia.
Qed.

(** The pipeline's method always counts at least one token. *)
Lemma pipeline_accumulate_entry (text : string) :
  (exists k, 1 <= nth k (RAGPipeline.accumulate text) 0)
  /\ List.length (RAGPipeline.accumulate text) = 384%nat.
Proof.
  unfold RAGPipeline.accumulate.
  change RAGPipeline.wordLoop with VectorStore.wordLoop.
  destruct (splitWs (toLowerCase text)) as [|w ws] eqn:E;
    [exfalso; exact (splitWs_nonempty _ E) |].
  unfold VectorStore.wordLoop. cbn [fold_left].
  fold (VectorStore.wordLoop ws (addAt (VectorStore.wordIndex w) 1 (repeat 0 384))).
  pose proof (wordLoop_grows ws (addAt (VectorStore.wordIndex w) 1 (repeat 0 384)))
    as [L [_ M]].
  pose proof (wordIndex_bound w) as Hb.
  split.
  - exists (VectorStore.wordIndex w). specialize (M (VectorStore.wordIndex w)).
    rewrite addAt_nth_same in M by (rewrite repeat_length; exact Hb).
    rewrite nth_repeat in M. lra.
  - rewrite L, addAt_length, repeat_length. reflexivity.
Qed.

Lemma pipeline_magnitude_pos (text : string) :
  0 < norm (RAGPipeline.accumulate text).
Proof.
  destruct (pipeline_accumulate_entry text) as [[k Hk] _].
  apply norm_pos_of_entry with (k := k). lra.
Qed.

Lemma pipeline_embedding_normalized (text : string) :
  RAGPipeline.simpleHashEmbedding text
  = map (fun v => v / norm (RAGPipeline.accumulate text)) (RAGPipeline.accumulate text).
Proof.
  unfold RAGPipeline.simpleHashEmbedding. rewrite sumOf_squares. reflexivity.
Qed.








Lemma store_fallback_embedding (st : VectorStore.Store) (text : string) :
  storeUsesFallback st text ->
  VectorStore.generateEmbedding st text
  = Returned (VectorStore.simpleHashEmbedding text).
Proof.
  unfold VectorStore.generateEmbedding.
  intros [H | [client [e [H He]]]]; rewrite H; [reflexivity |].
  rewrite He. reflexivity.
Qed.

Lemma pipeline_fallback_embedding (p : RAGPipeline.Pipeline) (text : string) :
  pipelineUsesFallback p text ->
  RAGPipeline.generateQueryEmbedding p text
  = Returned (VectorStore.JArray (RAGPipeline.simpleHashEmbedding text)).
Proof.
  unfold RAGPipeline.generateQueryEmbedding.
  intros [H | [client [e [H He]]]]; rewrite H; [reflexivity |].
  rewrite He. reflexivity.
Qed.

(** C4: on the fallback path the embedding of a text is a function of
    the text alone: whatever the state of the store or of the pipeline
    (their index, their documents, their failing client), two calls on
    the same text return the same vector, the hash embedding of the
    text. *)
Theorem fallback_embedding_depends_on_text_only :
  forall (st1 st2 : VectorStore.Store) (p1 p2 : RAGPipeline.Pipeline) (text : string),
    storeUsesFallback st1 text -> storeUsesFallback st2 text ->
    pipelineUsesFallback p1 text -> pipelineUsesFallback p2 text ->
    VectorStore.generateEmbedding st1 text
    = Returned (VectorStore.simpleHashEmbedding text)
    /\ VectorStore.generateEmbedding st2 text = VectorStore.generateEmbedding st1 text
    /\ RAGPipeline.generateQueryEmbedding p1 text
       = Returned (VectorStore.JArray (RAGPipeline.simpleHashEmbedding text))
    /\ RAGPipeline.generateQueryEmbedding p2 text
       = RAGPipeline.generateQueryEmbedding p1 text.
Proof.
  intros st1 st2 p1 p2 text H1 H2 H3 H4.
  rewrite (store_fallback_embedding st1), (store_fallback_embedding st2) by assumption.
  rewrite (pipeline_fallback_embedding p1), (pipeline_fallback_embedding p2) by assumption.
  repeat split.
Qed.

(** The hypotheses of C4 hold of an empty store and a store whose client
    fails, and of the two pipelines over them. *)
Lemma fallback_embedding_witness :
  VectorStore.generateEmbedding Examples.emptyStore "quarterly revenue"
  = Returned (VectorStore.simpleHashEmbedding "quarterly revenue")
  /\ VectorStore.generateEmbedding Examples.degradedStore "quarterly revenue"
     = VectorStore.generateEmbedding Examples.emptyStore "quarterly revenue"
  /\ RAGPipeline.generateQueryEmbedding Examples.emptyPipeline "quarterly revenue"
     = Returned (VectorStore.JArray (RAGPipeline.simpleHashEmbedding "quarterly revenue"))
  /\ RAGPipeline.generateQueryEmbedding Examples.degradedPipeline "quarterly revenue"
     = RAGPipeline.generateQueryEmbedding Examples.emptyPipeline "quarterly revenue".
Proof.
  apply (fallback_embedding_depends_on_text_only
           Examples.emptyStore Examples.degradedStore
           Examples.emptyPipeline Examples.degradedPipeline "quarterly revenue").
  - left. reflexivity.
  - right. exists Examples.failingClient, "503"%string. split; reflexivity.
  - left. reflexivity.
  - right. exists Examples.failingClient, "503"%string. split; reflexivity.
Defined.

End HashEmbedding.

(* ================================================================== *)
(** * Intent classification *)
(* ================================================================== *)

Section Intent.
Import Js Spec.

(** The loop returns the label of the first entry whose pattern matches,
    and the default label when none does. *)
Lemma classifyLoop_first_match (entries : list (RAGPipeline.Intent * list string))
    (query : string) :
  (exists before intent pattern after,
      entries = before ++ (intent, pattern) :: after
      /\ Forall (fun e => regexTest (snd e) query = false) before
      /\ regexTest pattern query = true
      /\ RAGPipeline.classifyLoop entries query = intent)
  \/ (Forall (fun e => regexTest (snd e) query = false) entries
      /\ RAGPipeline.classifyLoop entries query = RAGPipeline.information_request).
Proof.
  induction entries as [| [intent pattern] rest IH]; simpl.
  - right. split; [constructor | reflexivity].
  - destruct (regexTest pattern query) eqn:E.
    + left. exists [], intent, pattern, rest. repeat split; [constructor | exact E].
    + destruct IH as [[before [i [p [after [Hsplit [Hnone [Hhit Hres]]]]]]] | [Hnone Hres]].
      * left. exists ((intent, pattern) :: before), i, p, after.
        split; [rewrite Hsplit; reflexivity |].
        split; [constructor; [exact E | exact Hnone] |].
        split; [exact Hhit | exact Hres].
      * right. split; [constructor; [exact E | exact Hnone] | exact Hres].
Qed.

(** C8, as stated, fails on its scenario: the query of the scenario is
    not classified as [factual]. *)
Lemma classifyIntent_scenario_counterexample :
  RAGPipeline.classifyIntent "What was the revenue?" <> RAGPipeline.factual.
Proof. vm_compute. discriminate. Qed.

(** C8, amended: the rules are tried in the order factual, comparison,
    procedural, analytical, numerical, visual, temporal, location,
    causal, list; the label of the first rule whose pattern matches is
    returned, and [information_request] when none matches.  The query
    "What was the revenue?" matches no rule (the factual rule asks for
    "what is", not "what was") and is classified [information_request]. *)
Theorem classifyIntent_first_match :
  map fst RAGPipeline.intents
  = [RAGPipeline.factual; RAGPipeline.comparison; RAGPipeline.procedural;
     RAGPipeline.analytical; RAGPipeline.numerical; RAGPipeline.visual;
     RAGPipeline.temporal; RAGPipeline.location; RAGPipeline.causal;
     RAGPipeline.list_intent]
  /\ (forall query : string,
        (exists before intent pattern after,
            RAGPipeline.intents = before ++ (intent, pattern) :: after
            /\ Forall (fun e => regexTest (snd e) query = false) before
            /\ regexTest pattern query = true
            /\ RAGPipeline.classifyIntent query = intent)
        \/ (Forall (fun e => regexTest (snd e) query = false) RAGPipeline.intents
            /\ RAGPipeline.classifyIntent query = RAGPipeline.information_request))
  /\ Forall (fun e => regexTest (snd e) "What was the revenue?" = false)
       RAGPipeline.intents
  /\ RAGPipeline.classifyIntent "What was the revenue?" = RAGPipeline.information_request
  /\ RAGPipeline.classifyIntent "What is the revenue?" = RAGPipeline.factual.
Proof.
  split; [reflexivity |].
  split; [intro query; apply classifyLoop_first_match |].
  split; [| split; vm_compute; reflexivity].
  repeat constructor.
Qed.

End Intent.

(* ================================================================== *)
(** * The query pipeline *)
(* ================================================================== *)

Section Query.
Import Js Spec.
Open Scope R_scope.

Lemma generateQueryEmbedding_returns (p : RAGPipeline.Pipeline) (q : string) :
  exists emb, RAGPipeline.generateQueryEmbedding p q = Returned emb.
Proof.
  unfold RAGPipeline.generateQueryEmbedding.
  destruct (RAGPipeline.hf p) as [client |]; simpl; [| eauto].
  destruct (VectorStore.featureExtraction0 client q); simpl; eauto.
Qed.

Lemma generate_returns (p : RAGPipeline.Pipeline) (q c : string) (i : RAGPipeline.Intent) :
  exists response, RAGPipeline.generate p q c i = Returned response.
Proof.
  unfold RAGPipeline.generate, RAGPipeline.generateWithHuggingFace.
  destruct (RAGPipeline.hf p) as [client |]; [| eauto].
  destruct (VectorStore.textGeneration client "microsoft/DialoGPT-small" _)
    as [[| g1] | e1]; simpl; eauto.
  destruct (VectorStore.textGeneration client "gpt2" _) as [[| g2] | e2];
    simpl; eauto.
Qed.

(** The two branches of [query], once the query embedding is known. *)
Lemma query_branches (p : RAGPipeline.Pipeline) (q : string)
    (ids : option (list string)) (filters : VectorStore.Filters)
    (emb : VectorStore.JsValue) :
  RAGPipeline.generateQueryEmbedding p q = Returned emb ->
  let relevant :=
    VectorStore.searchWithEmbedding (RAGPipeline.vectorStore p) emb ids
      (RAGPipeline.searchFilters p filters) in
  let selected := slice0 (RAGPipeline.topK p) (RAGPipeline.rerank q relevant) in
  (relevant = [] ->
   RAGPipeline.query p q ids filters
   = Returned
       {| RAGPipeline.answer := RAGPipeline.noChunksAnswer q;
          RAGPipeline.sources := [];
          RAGPipeline.relevanceScore := 0;
          RAGPipeline.context := "";
          RAGPipeline.queryIntent := RAGPipeline.information_request;
          RAGPipeline.metrics :=
            {| RAGPipeline.faithfulness := 0;
               RAGPipeline.answerRelevancy := 0;
               RAGPipeline.contextRecall := 0;
               RAGPipeline.contextPrecision := 0;
               RAGPipeline.overallScore := 0 |} |})
  /\ (relevant <> [] ->
      exists response,
        RAGPipeline.generate p q (RAGPipeline.buildContext selected)
          (RAGPipeline.classifyIntent q) = Returned response
        /\ RAGPipeline.query p q ids filters
           = Returned
               {| RAGPipeline.answer := response;
                  RAGPipeline.sources := map RAGPipeline.toSource selected;
                  RAGPipeline.relevanceScore :=
                    RAGPipeline.calculateRelevanceScore selected response;
                  RAGPipeline.context := RAGPipeline.buildContext selected;
                  RAGPipeline.queryIntent := RAGPipeline.classifyIntent q;
                  RAGPipeline.metrics :=
                    RAGPipeline.calculateRAGASMetrics q response selected |}).
Proof.
  intros Hemb relevant selected.
  unfold RAGPipeline.query.
  cbn [RAGPipeline.preprocessQuery RAGPipeline.text RAGPipeline.intent].
  rewrite Hemb. cbn [bind]. fold relevant.
  split.
  - intros H. rewrite H. reflexivity.
  - intros H. destruct relevant as [| r rs] eqn:E; [contradiction |].
    cbn [List.length Nat.eqb]. fold selected.
    destruct (generate_returns p q (RAGPipeline.buildContext selected)
                (RAGPipeline.classifyIntent q)) as [response Hg].
    exists response. split; [exact Hg |]. rewrite Hg. reflexivity.
Qed.




(** C10: the intent a result reports is [information_request] whenever
    retrieval yields no passage, whatever the classification of the
    query, and the classified intent whenever a passage is retrieved.
    The query "How to reset the password?" is classified [procedural]
    and, on an empty index, reported as [information_request]. *)
Theorem query_reports_classified_intent_only_with_evidence :
  (forall (p : RAGPipeline.Pipeline) (q : string) (ids : option (list string))
          (filters : VectorStore.Filters),
     exists emb r,
       RAGPipeline.generateQueryEmbedding p q = Returned emb
       /\ RAGPipeline.query p q ids filters = Returned r
       /\ RAGPipeline.queryIntent r
          = match VectorStore.searchWithEmbedding (RAGPipeline.vectorStore p) emb ids
                    (RAGPipeline.searchFilters p filters) with
            | [] => RAGPipeline.information_request
            | _ :: _ => RAGPipeline.classifyIntent q
            end)
  /\ RAGPipeline.classifyIntent "How to reset the password?" = RAGPipeline.procedural
  /\ exists r,
       RAGPipeline.query Examples.emptyPipeline "How to reset the password?" None
         Examples.noFilters = Returned r
       /\ RAGPipeline.queryIntent r = RAGPipeline.information_request.
Proof.
  split; [| split].
  - intros p q ids filters.
    destruct (generateQueryEmbedding_returns p q) as [emb Hemb].
    destruct (query_branches p q ids filters emb Hemb) as [Hempty Hsome].
    exists emb.
    destruct (VectorStore.searchWithEmbedding (RAGPipeline.vectorStore p) emb ids
                (RAGPipeline.searchFilters p filters)) as [| r0 rs] eqn:E.
    + eexists. split; [exact Hemb |]. split; [apply Hempty; reflexivity | reflexivity].
    + destruct Hsome as [response [_ Hq]]; [discriminate |].
      eexists. split; [exact Hemb |]. split; [exact Hq | reflexivity].
  - vm_compute. reflexivity.
  - destruct (query_branches Examples.emptyPipeline "How to reset the password?" None
                Examples.noFilters _ eq_refl) as [Hempty _].
    eexists. split; [apply Hempty; reflexivity | reflexivity].
Qed.

End Query.

(* ================================================================== *)
(** * Sets of tokens and overlap ratios *)
(* ================================================================== *)

Section TokenSets.
Import Js Spec.
Open Scope R_scope.

Lemma has_In (s : list string) (x : string) : has s x = true <-> In x s.
Proof.
  unfold has. rewrite existsb_exists. split.
  - intros [y [Hin Heq]]. apply String.eqb_eq in Heq. subst y. exact Hin.
  - intros Hin. exists x. split; [exact Hin | apply String.eqb_refl].
Qed.

Lemma addAll_spec (arr : list string) : forall acc,
  NoDup acc ->
  NoDup (addAll acc arr) /\ forall x, In x (addAll acc arr) <-> In x acc \/ In x arr.
Proof.
  induction arr as [|a arr IH]; intros acc Hnd; simpl.
  - split; [exact Hnd | intros x; tauto].
  - destruct (has acc a) eqn:E.
    + destruct (IH acc Hnd) as [N I]. split; [exact N |].
      intros x. rewrite I. apply has_In in E. split; [tauto |].
      intros [H | [H | H]]; [tauto | subst; tauto | tauto].
    + assert (Hna : ~ In a acc) by (intros H; apply has_In in H; congruence).
      assert (Hnd' : NoDup (acc ++ [a])).
      { apply NoDup_app; [exact Hnd | repeat constructor; intros [] |].
        intros x H1 [H2 | []]. subst. contradiction. }
      destruct (IH (acc ++ [a]) Hnd') as [N I]. split; [exact N |].
      intros x. rewrite I, in_app_iff. simpl. tauto.
Qed.

Lemma newSet_NoDup (l : list string) : NoDup (newSet l).
Proof. apply (addAll_spec l []). constructor. Qed.

Lemma newSet_In (l : list string) (x : string) : In x (newSet l) <-> In x l.
Proof.
  destruct (addAll_spec l [] (NoDup_nil _)) as [_ I]. unfold newSet. rewrite I.
  simpl. tauto.
Qed.

Lemma newSet_card (l : list string) :
  card (fun x => In x l) (List.length (newSet l)).
Proof.
  exists (newSet l). split; [apply newSet_NoDup | split; [apply newSet_In | reflexivity]].
Qed.

Lemma intersection_In (a b : list string) (x : string) :
  In x (intersection a b) <-> In x a /\ In x b.
Proof.
  unfold intersection. rewrite newSet_In, filter_In, has_In. tauto.
Qed.

Lemma intersection_card (a b : list string) :
  card (fun x => In x a /\ In x b) (List.length (intersection a b)).
Proof.
  exists (intersection a b).
  split; [apply newSet_NoDup | split; [apply intersection_In | reflexivity]].
Qed.

Lemma intersection_length_le (a b : list string) :
  NoDup a -> (List.length (intersection a b) <= List.length a)%nat.
Proof.
  intros Ha. apply NoDup_incl_length; [apply newSet_NoDup |].
  intros x Hx. apply intersection_In in Hx. tauto.
Qed.

Lemma newSet_nonempty (l : list string) : l <> [] -> (1 <= List.length (newSet l))%nat.
Proof.
  intros Hl. destruct l as [|x l]; [contradiction |].
  assert (Hin : In x (newSet (x :: l))) by (apply newSet_In; left; reflexivity).
  destruct (newSet (x :: l)); [destruct Hin | simpl; lia].
Qed.

Lemma wordSet_nonempty (s : string) : (1 <= List.length (RAGPipeline.wordSet s))%nat.
Proof. apply newSet_nonempty, splitWs_nonempty. Qed.

Lemma sourceWordSet_In (sources : list VectorStore.SearchResult) (w : string) :
  In w (RAGPipeline.sourceWordSet sources)
  <-> exists s, In s sources /\ In w (tokens (RAGPipeline.contentOf s)).
Proof.
  unfold RAGPipeline.sourceWordSet. rewrite newSet_In, in_concat. split.
  - intros [ws [Hws Hw]]. apply in_map_iff in Hws. destruct Hws as [s [Heq Hs]].
    exists s. subst ws. split; assumption.
  - intros [s [Hs Hw]]. exists (tokens (RAGPipeline.contentOf s)). split; [| exact Hw].
    apply in_map_iff. exists s. split; [reflexivity | exact Hs].
Qed.

Lemma card_ext (P Q : string -> Prop) (n : nat) :
  (forall x, P x <-> Q x) -> card P n -> card Q n.
Proof.
  intros H [l [Hnd [Hin Hlen]]]. exists l.
  split; [exact Hnd | split; [| exact Hlen]].
  intros x. rewrite Hin. apply H.
Qed.

(** The quotient the source computes, with its divisor [Math.max(d, 1)],
    is the ratio that is 0 on a zero divisor. *)
Lemma guarded_quotient (n d : nat) :
  (n <= d)%nat -> INR n / INR (Nat.max d 1) = ratio n d.
Proof.
  intros H. unfold ratio. destruct d as [|d].
  - assert (n = 0%nat) by lia. subst n. simpl. lra.
  - replace (Nat.max (S d) 1) with (S d) by lia. reflexivity.
Qed.

Lemma ratio_bounds (n d : nat) : (n <= d)%nat -> 0 <= ratio n d <= 1.
Proof.
  intros H. unfold ratio. destruct d as [|d]; simpl Nat.eqb; cbv iota; [lra |].
  assert (Hd : 0 < INR (S d)) by (apply lt_0_INR; lia).
  assert (Hn : 0 <= INR n) by apply pos_INR.
  assert (Hle : INR n <= INR (S d)) by (apply le_INR; exact H).
  split.
  - apply Rmult_le_reg_r with (INR (S d)); [exact Hd |].
    unfold Rdiv. rewrite Rmult_assoc, Rinv_l by lra. lra.
  - apply Rmult_le_reg_r with (INR (S d)); [exact Hd |].
    unfold Rdiv. rewrite Rmult_assoc, Rinv_l by lra. lra.
Qed.

Lemma count_filter {A : Type} (P : A -> Prop) (b : A -> bool) (l : list A) :
  (forall x, b x = true <-> P x) -> count P l (List.length (filter b l)).
Proof.
  intros H. induction l as [|x l IH]; simpl.
  - constructor.
  - destruct (b x) eqn:E; simpl.
    + apply count_yes; [apply H; exact E | exact IH].
    + apply count_no; [| exact IH]. intros HP. apply H in HP. congruence.
Qed.

Lemma filter_length_le {A : Type} (b : A -> bool) (l : list A) :
  (List.length (filter b l) <= List.length l)%nat.
Proof.
  induction l as [|x l IH]; simpl; [lia |]. destruct (b x); simpl; lia.
Qed.

End TokenSets.

(* ================================================================== *)
(** * Evidence metrics *)
(* ================================================================== *)

Section Metrics.
Import Js Spec.
Open Scope R_scope.

Lemma wordSet_In (s w : string) : In w (RAGPipeline.wordSet s) <-> In w (tokens s).
Proof. apply newSet_In. Qed.

Lemma nonempty_length {A : Type} (l : list A) :
  (0 <? List.length l)%nat = true <-> exists x, In x l.
Proof.
  destruct l as [|x l]; simpl; split.
  - discriminate.
  - intros [x []].
  - intros _. exists x. left. reflexivity.
  - reflexivity.
Qed.

Lemma overlap_card (a b : string) :
  card (fun w => In w (tokens a) /\ In w (tokens b))
       (List.length (intersection (RAGPipeline.wordSet a) (RAGPipeline.wordSet b))).
Proof.
  eapply card_ext; [| apply intersection_card].
  intros w. simpl. rewrite !wordSet_In. tauto.
Qed.

Lemma source_overlap_card (a : string) (sources : list VectorStore.SearchResult) :
  card (fun w => In w (tokens a)
                 /\ exists s, In s sources /\ In w (tokens (RAGPipeline.contentOf s)))
       (List.length (intersection (RAGPipeline.wordSet a)
                       (RAGPipeline.sourceWordSet sources))).
Proof.
  eapply card_ext; [| apply intersection_card].
  intros w. simpl. rewrite wordSet_In, sourceWordSet_In. tauto.
Qed.

Lemma wordSet_card (a : string) :
  card (fun w => In w (tokens a)) (List.length (RAGPipeline.wordSet a)).
Proof. apply newSet_card. Qed.

Lemma isWhiteSpace_lowerChar (c : ascii) : isWhiteSpace (lowerChar c) = isWhiteSpace c.
Proof. destruct c as [[] [] [] [] [] [] [] []]; reflexivity. Qed.

Lemma runs_cons (c : ascii) (rest : string) :
  runs (String c rest)
  = if isWhiteSpace c then runs rest
    else if startsWithSpace rest then String c EmptyString :: runs rest
    else match runs rest with
         | w :: ws => String c w :: ws
         | [] => [String c EmptyString]
         end.
Proof. destruct rest; reflexivity. Qed.

Lemma splitWs_cons (c : ascii) (rest : string) :
  splitWs (String c rest)
  = if isWhiteSpace c
    then (if startsWithSpace rest then splitWs rest else EmptyString :: splitWs rest)
    else match splitWs rest with
         | w :: ws => String c w :: ws
         | [] => [String c EmptyString]
         end.
Proof.
  cbn [splitWs]. destruct (isWhiteSpace c); [| reflexivity].
  destruct rest as [| c' rest']; reflexivity.
Qed.

(** The first piece is empty exactly when the text is empty or begins
    with white space. *)
Lemma splitWs_head (s : string) :
  exists w ws,
    splitWs s = w :: ws
    /\ (w = EmptyString <-> s = EmptyString \/ startsWithSpace s = true).
Proof.
  induction s as [| c rest IH].
  - exists EmptyString, []. split; [reflexivity |]. tauto.
  - rewrite splitWs_cons. destruct IH as [w [ws [Hr Hw]]].
    cbn [startsWithSpace]. destruct (isWhiteSpace c) eqn:Ec.
    + destruct (startsWithSpace rest) eqn:Es.
      * exists w, ws. split; [exact Hr |].
        split; [intros _; right; reflexivity |]. intros _. apply Hw. right. reflexivity.
      * exists EmptyString, (splitWs rest). split; [reflexivity |].
        split; [intros _; right; reflexivity | reflexivity].
    + rewrite Hr. exists (String c w), ws. split; [reflexivity |].
      split; [discriminate |]. intros [H | H]; discriminate.
Qed.

(** The words are the pieces that are not empty. *)
Lemma splitWs_runs (s : string) :
  filter (fun w => negb (String.eqb w EmptyString)) (splitWs s) = runs s.
Proof.
  induction s as [| c rest IH]; [reflexivity |].
  rewrite splitWs_cons, runs_cons.
  destruct (splitWs_head rest) as [w [ws [Hr Hw]]].
  destruct (isWhiteSpace c) eqn:Ec.
  - destruct (startsWithSpace rest); [exact IH | exact IH].
  - rewrite Hr in IH |- *. cbn [filter String.eqb negb].
    destruct (startsWithSpace rest) eqn:Es.
    + assert (w = EmptyString) as -> by (apply Hw; right; reflexivity).
      cbn [filter String.eqb negb] in IH. rewrite IH. reflexivity.
    + destruct rest as [| c' rest'].
      * cbn [splitWs] in Hr. injection Hr as <- <-. reflexivity.
      * destruct w as [| a w'].
        { exfalso. destruct Hw as [Hw _]. destruct (Hw eq_refl); discriminate. }
        cbn [filter String.eqb negb] in IH. rewrite <- IH. reflexivity.
Qed.

(** A later piece is empty exactly when the text ends with white space. *)
Lemma splitWs_tail (s : string) :
  In EmptyString (tl (splitWs s)) <-> endsWithSpace s = true.
Proof.
  induction s as [| c rest IH]; [cbn; intuition discriminate |].
  rewrite splitWs_cons.
  destruct (splitWs_head rest) as [w [ws [Hr Hw]]].
  assert (Hends : endsWithSpace (String c rest)
                  = match rest with
                    | EmptyString => isWhiteSpace c
                    | String _ _ => endsWithSpace rest
                    end) by reflexivity.
  rewrite Hends. rewrite Hr in IH. cbn [tl] in IH.
  destruct (isWhiteSpace c) eqn:Ec.
  - destruct rest as [| c' rest'].
    + cbn. intuition.
    + cbn [startsWithSpace]. destruct (isWhiteSpace c') eqn:Ec'.
      * rewrite Hr. cbn [tl]. exact IH.
      * cbn [tl]. rewrite Hr. rewrite <- IH. split.
        -- intros [H | H]; [| exact H].
           destruct Hw as [Hw _]. destruct (Hw H) as [H' | H']; [discriminate H' |].
           cbn [startsWithSpace] in H'. congruence.
        -- intros H. right. exact H.
  - rewrite Hr. cbn [tl]. destruct rest as [| c' rest'].
    + cbn [splitWs] in Hr. injection Hr as <- <-. cbn. intuition discriminate.
    + exact IH.
Qed.

Lemma toLowerCase_startsWithSpace (s : string) :
  startsWithSpace (toLowerCase s) = startsWithSpace s.
Proof. destruct s as [| c s]; [reflexivity | apply isWhiteSpace_lowerChar]. Qed.

Lemma toLowerCase_endsWithSpace (s : string) :
  endsWithSpace (toLowerCase s) = endsWithSpace s.
Proof.
  induction s as [| c s IH]; [reflexivity |].
  destruct s as [| c' s']; [apply isWhiteSpace_lowerChar | exact IH].
Qed.

Lemma words_tokens (text w : string) :
  In w (words text) <-> In w (tokens text) /\ w <> EmptyString.
Proof.
  unfold words, tokens. rewrite <- splitWs_runs, filter_In.
  destruct (String.eqb_spec w EmptyString) as [-> | Hne]; cbn [negb].
  - intuition discriminate.
  - tauto.
Qed.

Lemma empty_token (text : string) :
  In EmptyString (tokens text)
  <-> text = EmptyString \/ startsWithSpace text = true \/ endsWithSpace text = true.
Proof.
  unfold tokens.
  destruct (splitWs_head (toLowerCase text)) as [w [ws [Hr Hw]]].
  pose proof (splitWs_tail (toLowerCase text)) as Ht.
  rewrite Hr in Ht |- *. cbn [tl] in Ht.
  rewrite toLowerCase_startsWithSpace in Hw. rewrite toLowerCase_endsWithSpace in Ht.
  assert (He : toLowerCase text = EmptyString <-> text = EmptyString).
  { destruct text; cbn; intuition discriminate. }
  cbn [In]. rewrite Ht. rewrite <- He. split.
  - intros [H | H]; [| tauto]. destruct Hw as [Hw _]. destruct (Hw H); tauto.
  - intros [H | [H | H]]; [left | left | right; exact H]; apply Hw; tauto.
Qed.

(** C7: the four metrics are lexical-overlap ratios over the tokens as
    the code splits them, the pieces of the lower-cased text between its
    runs of white space.  The pieces that are not empty are the words of
    the text, and the empty piece is a token exactly when the text is
    empty or begins or ends with white space.  A token set is never
    empty, so the divisors of faithfulness, answerRelevancy and
    contextRecall are never 0; contextPrecision is 0 when there is no
    passage.  Each metric is in [0, 1], and the overall score is their
    arithmetic mean. *)
Theorem ragas_metrics_are_overlap_ratios :
  (forall text w : string,
     In w (words text) <-> In w (tokens text) /\ w <> EmptyString)
  /\ (forall text : string,
        In EmptyString (tokens text)
        <-> text = EmptyString
            \/ startsWithSpace text = true \/ endsWithSpace text = true)
  /\ forall (query answer : string) (sources : list VectorStore.SearchResult),
    let m := RAGPipeline.calculateRAGASMetrics query answer sources in
    let inQuery := fun w => In w (tokens query) in
    let inAnswer := fun w => In w (tokens answer) in
    let inSources := fun w =>
      exists s, In s sources /\ In w (tokens (RAGPipeline.contentOf s)) in
    let sharesToken := fun s =>
      exists w, In w (tokens query) /\ In w (tokens (RAGPipeline.contentOf s)) in
    exists nAnswer nQuery nAnswerSources nQueryAnswer nQuerySources nRelevant,
      card inAnswer nAnswer
      /\ card inQuery nQuery
      /\ (1 <= nAnswer)%nat
      /\ (1 <= nQuery)%nat
      /\ card (fun w => inAnswer w /\ inSources w) nAnswerSources
      /\ card (fun w => inQuery w /\ inAnswer w) nQueryAnswer
      /\ card (fun w => inQuery w /\ inSources w) nQuerySources
      /\ count sharesToken sources nRelevant
      /\ RAGPipeline.faithfulness m = INR nAnswerSources / INR nAnswer
      /\ RAGPipeline.answerRelevancy m = INR nQueryAnswer / INR nQuery
      /\ RAGPipeline.contextRecall m = INR nQuerySources / INR nQuery
      /\ RAGPipeline.contextPrecision m = ratio nRelevant (List.length sources)
      /\ 0 <= RAGPipeline.faithfulness m <= 1
      /\ 0 <= RAGPipeline.answerRelevancy m <= 1
      /\ 0 <= RAGPipeline.contextRecall m <= 1
      /\ 0 <= RAGPipeline.contextPrecision m <= 1
      /\ RAGPipeline.overallScore m
         = (RAGPipeline.faithfulness m + RAGPipeline.answerRelevancy m
            + RAGPipeline.contextRecall m + RAGPipeline.contextPrecision m) / 4
      /\ 0 <= RAGPipeline.overallScore m <= 1.
Proof.
  split; [exact words_tokens |]. split; [exact empty_token |].
  intros query answer sources m inQuery inAnswer inSources sharesToken.
  set (qw := RAGPipeline.wordSet query).
  set (aw := RAGPipeline.wordSet answer).
  set (sw := RAGPipeline.sourceWordSet sources).
  set (rel := filter (fun source =>
                (0 <? List.length (intersection qw
                        (RAGPipeline.wordSet (RAGPipeline.contentOf source))))%nat)
                sources).
  assert (Hqw : NoDup qw) by apply newSet_NoDup.
  assert (Haw : NoDup aw) by apply newSet_NoDup.
  assert (Nq : (1 <= List.length qw)%nat) by apply wordSet_nonempty.
  assert (Na : (1 <= List.length aw)%nat) by apply wordSet_nonempty.
  assert (L1 := intersection_length_le aw sw Haw).
  assert (L2 := intersection_length_le qw aw Hqw).
  assert (L3 := intersection_length_le qw sw Hqw).
  assert (L4 : (List.length rel <= List.length sources)%nat) by apply filter_length_le.
  assert (Hratio : forall n d, (1 <= d)%nat -> ratio n d = INR n / INR d).
  { intros n d Hd. unfold ratio. destruct (Nat.eqb_spec d 0); [lia | reflexivity]. }
  assert (F : RAGPipeline.faithfulness m
              = ratio (List.length (intersection aw sw)) (List.length aw))
    by (apply guarded_quotient; exact L1).
  assert (A : RAGPipeline.answerRelevancy m
              = ratio (List.length (intersection qw aw)) (List.length qw))
    by (apply guarded_quotient; exact L2).
  assert (C : RAGPipeline.contextRecall m
              = ratio (List.length (intersection qw sw)) (List.length qw))
    by (apply guarded_quotient; exact L3).
  assert (P : RAGPipeline.contextPrecision m
              = ratio (List.length rel) (List.length sources))
    by (apply guarded_quotient; exact L4).
  assert (BF := ratio_bounds _ _ L1). assert (BA := ratio_bounds _ _ L2).
  assert (BC := ratio_bounds _ _ L3). assert (BP := ratio_bounds _ _ L4).
  rewrite <- F in BF. rewrite <- A in BA. rewrite <- C in BC. rewrite <- P in BP.
  rewrite (Hratio _ _ Na) in F. rewrite (Hratio _ _ Nq) in A.
  rewrite (Hratio _ _ Nq) in C.
  exists (List.length aw), (List.length qw), (List.length (intersection aw sw)),
         (List.length (intersection qw aw)), (List.length (intersection qw sw)),
         (List.length rel).
  split; [apply wordSet_card |].
  split; [apply wordSet_card |].
  split; [exact Na |]. split; [exact Nq |].
  split; [apply source_overlap_card |].
  split; [apply overlap_card |].
  split; [apply source_overlap_card |].
  split.
  { apply count_filter. intros s. rewrite nonempty_length. unfold sharesToken.
    split; intros [w Hw]; exists w.
    - apply intersection_In in Hw. unfold qw in Hw. rewrite !wordSet_In in Hw. exact Hw.
    - apply intersection_In. unfold qw. rewrite !wordSet_In. exact Hw. }
  split; [exact F |]. split; [exact A |]. split; [exact C |]. split; [exact P |].
  split; [exact BF |]. split; [exact BA |]. split; [exact BC |]. split; [exact BP |].
  assert (O : RAGPipeline.overallScore m
              = (RAGPipeline.faithfulness m + RAGPipeline.answerRelevancy m
                 + RAGPipeline.contextRecall m + RAGPipeline.contextPrecision m) / 4)
    by reflexivity.
  split; [exact O |]. rewrite O. lra.
Qed.

(** C7 does not hold over words: the query [cat ] and a passage [dog ]
    have no word in common, so that the ratios over words give
    contextPrecision 0 and contextRecall 0, where the code gives 1 and
    1/2, the two texts sharing the empty piece after their last space.
    And the empty query has no word, so that its divisor is 0 and its
    answerRelevancy over words is 0, where the code gives 1 against an
    answer that ends with a space. *)
Lemma ragas_empty_token_counterexample :
  let sources := [Examples.dogSource] in
  let m := RAGPipeline.calculateRAGASMetrics "cat " "a cat" sources in
  words "cat " = ["cat"%string]
  /\ words (RAGPipeline.contentOf Examples.dogSource) = ["dog"%string]
  /\ wordContextPrecision "cat " sources = 0
  /\ wordContextRecall "cat " sources = 0
  /\ RAGPipeline.contextPrecision m = 1
  /\ RAGPipeline.contextRecall m = 1 / 2
  /\ words EmptyString = []
  /\ wordAnswerRelevancy EmptyString "ok " = 0
  /\ RAGPipeline.calculateAnswerRelevancy EmptyString "ok " = 1.
Proof.
  cbv zeta.
  split; [reflexivity |]. split; [reflexivity |].
  split.
  { unfold wordContextPrecision.
    assert (N : List.length
                  (filter (fun s => existsb (has (words (RAGPipeline.contentOf s)))
                                      (words "cat "))
                     [Examples.dogSource]) = 0%nat) by reflexivity.
    rewrite N. unfold ratio. simpl. lra. }
  split.
  { unfold wordContextRecall, wordShare.
    assert (N : List.length (intersection (newSet (words "cat "))
                               (newSet (sourceWords [Examples.dogSource]))) = 0%nat)
      by reflexivity.
    assert (D : List.length (newSet (words "cat ")) = 1%nat) by reflexivity.
    rewrite N, D. unfold ratio. simpl. lra. }
  split.
  { cbn [RAGPipeline.calculateRAGASMetrics RAGPipeline.contextPrecision].
    unfold RAGPipeline.calculateContextPrecision. cbv zeta.
    assert (N : List.length
                  (filter (fun source =>
                     (0 <? List.length
                             (intersection (RAGPipeline.wordSet "cat ")
                                (RAGPipeline.wordSet (RAGPipeline.contentOf source))))%nat)
                     [Examples.dogSource]) = 1%nat) by reflexivity.
    rewrite N. simpl. lra. }
  split.
  { cbn [RAGPipeline.calculateRAGASMetrics RAGPipeline.contextRecall].
    unfold RAGPipeline.calculateContextRecall. cbv zeta.
    assert (N : List.length (intersection (RAGPipeline.wordSet "cat ")
                               (RAGPipeline.sourceWordSet [Examples.dogSource])) = 1%nat)
      by reflexivity.
    assert (D : List.length (RAGPipeline.wordSet "cat ") = 2%nat) by reflexivity.
    rewrite N, D. simpl. lra. }
  split; [reflexivity |].
  split.
  { unfold wordAnswerRelevancy, wordShare.
    assert (N : List.length (intersection (newSet (words EmptyString))
                               (newSet (words "ok "))) = 0%nat) by reflexivity.
    assert (D : List.length (newSet (words EmptyString)) = 0%nat) by reflexivity.
    rewrite N, D. unfold ratio. simpl. lra. }
  unfold RAGPipeline.calculateAnswerRelevancy. cbv zeta.
  assert (N : List.length (intersection (RAGPipeline.wordSet EmptyString)
                             (RAGPipeline.wordSet "ok ")) = 1%nat) by reflexivity.
  assert (D : List.length (RAGPipeline.wordSet EmptyString) = 1%nat) by reflexivity.
  rewrite N, D. simpl. lra.
Qed.

End Metrics.

(* ================================================================== *)
(** * Reranking *)
(* ================================================================== *)

Section Rerank.
Import Js Spec.
Open Scope R_scope.

Lemma chunk_relevance_formula (query : string) (chunk : RAGPipeline.ChunkView) :
  RAGPipeline.calculateChunkRelevance query chunk
  = 0.4 * (INR (List.length (intersection (RAGPipeline.wordSet query)
                               (RAGPipeline.wordSet (RAGPipeline.cv_content chunk))))
           / INR (List.length (RAGPipeline.wordSet query)))
    + 0.4 * vectorSimilarity chunk + 0.1 * lengthScore chunk + metadataBonus chunk.
Proof.
  unfold RAGPipeline.calculateChunkRelevance, vectorSimilarity, lengthScore, metadataBonus.
  cbv zeta. ring.
Qed.



End Rerank.

(* ================================================================== *)
(** * Document registration *)
(* ================================================================== *)

Section Registration.
Import Js Spec.
Open Scope R_scope.
#[local] Arguments VectorStore.calculateCosineSimilarity : simpl never.

Lemma mapSet_fresh {V : Type} (k : string) (v : V) (m : list (string * V)) :
  ~ In k (map fst m) -> mapSet k v m = m ++ [(k, v)].
Proof.
  induction m as [| [k' v'] m IH]; simpl; intros H; [reflexivity |].
  destruct (String.eqb_spec k k') as [E | _]; [exfalso; apply H; left; symmetry; exact E |].
  rewrite IH; [reflexivity | intros Hin; apply H; right; exact Hin].
Qed.

Lemma natToString_inj (a b : nat) : natToString a = natToString b -> a = b.
Proof.
  unfold natToString. intros H.
  apply Unsigned.to_uint_inj.
  assert (E : Some (Nat.to_uint a) = Some (Nat.to_uint b))
    by (rewrite <- !NilEmpty.usu, H; reflexivity).
  injection E as E. exact E.
Qed.

Lemma append_inj_l (p x y : string) : (p ++ x)%string = (p ++ y)%string -> x = y.
Proof.
  induction p as [|c p IH]; simpl; intros H; [exact H |].
  injection H as H. apply IH. exact H.
Qed.

Lemma keyOf_inj (docId : string) (i j : nat) : keyOf docId i = keyOf docId j -> i = j.
Proof.
  unfold keyOf. intros H. apply append_inj_l in H. apply append_inj_l in H.
  apply natToString_inj. exact H.
Qed.

Lemma store_generateEmbedding_returns (st : VectorStore.Store) (text : string) :
  exists l, VectorStore.generateEmbedding st text = Returned l.
Proof.
  unfold VectorStore.generateEmbedding.
  destruct (VectorStore.hf st) as [client |]; simpl; [| eauto].
  destruct (VectorStore.featureExtraction0 client text); simpl; eauto.
Qed.

(** One passage is appended to a store that does not hold its key. *)
Lemma storeChunk_appends (st : VectorStore.Store) (docId : string) (i : nat)
    (chunk : VectorStore.Chunk) (emb : VectorStore.JsValue) :
  ~ In (keyOf docId i) (map fst (VectorStore.vectors st)) ->
  exists v,
    VectorStore.documentId v = docId
    /\ VectorStore.chunkId v = i
    /\ VectorStore.vectors (VectorStore.storeChunk st docId i chunk emb)
       = VectorStore.vectors st ++ [(keyOf docId i, v)]
    /\ VectorStore.documents (VectorStore.storeChunk st docId i chunk emb)
       = VectorStore.documents st
    /\ VectorStore.hf (VectorStore.storeChunk st docId i chunk emb) = VectorStore.hf st.
Proof.
  intros Hfresh. unfold VectorStore.storeChunk. cbn [VectorStore.vectors
    VectorStore.documents VectorStore.hf]. fold (keyOf docId i).
  eexists. rewrite mapSet_fresh by exact Hfresh.
  split; [| split; [| split; [reflexivity | split; reflexivity]]]; reflexivity.
Qed.

(** The states a concurrent request can observe while the passages of a
    document are stored, and the state at the end. *)
Lemma storeChunks_trace (docId : string) (cs : list VectorStore.Chunk) :
  forall (st : VectorStore.Store) (i : nat),
    (forall j, (i <= j)%nat -> ~ In (keyOf docId j) (map fst (VectorStore.vectors st))) ->
    exists final added,
      snd (VectorStore.storeChunks st docId i cs) = Returned final
      /\ VectorStore.vectors final = VectorStore.vectors st ++ added
      /\ List.length added = List.length cs
      /\ Forall (fun kv => VectorStore.documentId (snd kv) = docId) added
      /\ (forall s, In s (fst (VectorStore.storeChunks st docId i cs)) ->
            exists n, (n < List.length cs)%nat
                      /\ VectorStore.vectors s = VectorStore.vectors st ++ firstn n added)
      /\ (forall n c, nth_error cs n = Some c -> ~ hasEmbedding c ->
            exists s, In s (fst (VectorStore.storeChunks st docId i cs))
                      /\ VectorStore.vectors s = VectorStore.vectors st ++ firstn n added)
      /\ (Forall hasEmbedding cs -> fst (VectorStore.storeChunks st docId i cs) = []).
Proof.
  induction cs as [| chunk cs IH]; intros st i Hfresh.
  - exists st, []. simpl. rewrite app_nil_r.
    split; [reflexivity |]. split; [reflexivity |]. split; [reflexivity |].
    split; [constructor |]. split; [intros s [] |].
    split; [intros [|n] c H; discriminate | reflexivity].
  - assert (Hstep : forall emb,
              let st' := VectorStore.storeChunk st docId i chunk emb in
              exists final added,
                snd (VectorStore.storeChunks st' docId (S i) cs) = Returned final
                /\ VectorStore.vectors final = VectorStore.vectors st ++ added
                /\ List.length added = S (List.length cs)
                /\ Forall (fun kv => VectorStore.documentId (snd kv) = docId) added
                /\ (forall s, In s (fst (VectorStore.storeChunks st' docId (S i) cs)) ->
                      exists n, (n < S (List.length cs))%nat
                                /\ VectorStore.vectors s
                                   = VectorStore.vectors st ++ firstn n added)
                /\ (forall n c, nth_error cs n = Some c -> ~ hasEmbedding c ->
                      exists s, In s (fst (VectorStore.storeChunks st' docId (S i) cs))
                                /\ VectorStore.vectors s
                                   = VectorStore.vectors st ++ firstn (S n) added)
                /\ (Forall hasEmbedding cs ->
                    fst (VectorStore.storeChunks st' docId (S i) cs) = [])).
    { intros emb st'.
      destruct (storeChunk_appends st docId i chunk emb (Hfresh i (Nat.le_refl i)))
        as [v [Hdoc [_ [Hvec _]]]].
      fold st' in Hvec.
      assert (Hfresh' : forall j, (S i <= j)%nat ->
                ~ In (keyOf docId j) (map fst (VectorStore.vectors st'))).
      { intros j Hj Hin. rewrite Hvec, map_app, in_app_iff in Hin.
        destruct Hin as [Hin | [Hin | []]].
        - apply (Hfresh j); [lia | exact Hin].
        - simpl in Hin. apply keyOf_inj in Hin. lia. }
      destruct (IH st' (S i) Hfresh') as [final [added [Hout [Hfin [Hlen [Hall [Hseen [Hobs Hnone]]]]]]]].
      exists final, ((keyOf docId i, v) :: added).
      split; [exact Hout |].
      split; [rewrite Hfin, Hvec, <- app_assoc; reflexivity |].
      split; [simpl; rewrite Hlen; reflexivity |].
      split; [constructor; [exact Hdoc | exact Hall] |].
      split; [| split; [| exact Hnone]].
      - intros s Hs. destruct (Hseen s Hs) as [n [Hn Hv]].
        exists (S n). split; [lia |].
        rewrite Hv, Hvec, <- app_assoc. reflexivity.
      - intros n c Hc Hno. destruct (Hobs n c Hc Hno) as [s [Hs Hv]].
        exists s. split; [exact Hs |].
        rewrite Hv, Hvec, <- app_assoc. reflexivity. }
    simpl VectorStore.storeChunks.
    destruct (VectorStore.truthy (VectorStore.chunk_embedding chunk)) eqn:Et.
    + destruct (Hstep (VectorStore.chunk_embedding chunk))
        as [final [added [Hout [Hfin [Hlen [Hall [Hseen [Hobs Hnone]]]]]]]].
      exists final, added.
      split; [exact Hout |]. split; [exact Hfin |]. split; [exact Hlen |].
      split; [exact Hall |]. split; [exact Hseen |]. split.
      * intros [|n] c Hc Hno.
        -- simpl in Hc. injection Hc as Hc. subst c. exfalso. apply Hno. exact Et.
        -- apply (Hobs n c Hc Hno).
      * intros Hemb. apply Hnone. inversion Hemb; assumption.
    + destruct (store_generateEmbedding_returns st (VectorStore.chunk_content chunk))
        as [l Hgen].
      rewrite Hgen.
      destruct (Hstep (VectorStore.JArray l))
        as [final [added [Hout [Hfin [Hlen [Hall [Hseen [Hobs _]]]]]]]].
      destruct (VectorStore.storeChunks
                  (VectorStore.storeChunk st docId i chunk (VectorStore.JArray l))
                  docId (S i) cs) as [seen out].
      simpl in *.
      exists final, added.
      split; [exact Hout |]. split; [exact Hfin |]. split; [exact Hlen |].
      split; [exact Hall |]. split; [| split].
      * intros s [Hs | Hs].
        -- subst s. exists 0%nat. split; [lia |]. simpl. rewrite app_nil_r. reflexivity.
        -- apply Hseen. exact Hs.
      * intros [|n] c Hc Hno.
        -- exists st. split; [left; reflexivity |]. simpl. rewrite app_nil_r. reflexivity.
        -- destruct (Hobs n c Hc Hno) as [s [Hs Hv]]. exists s. split; [right; exact Hs | exact Hv].
      * intros Hemb. inversion Hemb as [| ? ? Hc _]; subst. unfold hasEmbedding in Hc. congruence.
Qed.

Lemma unit_similarity :
  VectorStore.calculateCosineSimilarity (VectorStore.JArray [1]) (VectorStore.JArray [1]) = 1.
Proof.
  rewrite cosine_formula. cbv zeta.
  change (VectorStore.padTo (Nat.max (List.length [1]) (List.length [1])) [1])
    with [1].
  assert (Hn : norm [1] = 1).
  { unfold norm, normSq. simpl.
    replace (1 * 1 + 0) with 1 by lra. apply sqrt_1. }
  rewrite Hn. destruct (Req_dec_T (1 * 1) 0) as [E | _]; [exfalso; lra |].
  simpl. field.
Qed.

(** C9, as stated, fails: while the second passage of
    [twoChunkDocument] waits for its embedding, the index holds the
    first passage alone, and a search that runs then returns one of the
    document's two passages. *)
Lemma storeDocument_partial_visibility_counterexample :
  exists s final report v,
    In s (fst (VectorStore.storeDocument Examples.emptyStore "1"
                 Examples.twoChunkDocument))
    /\ snd (VectorStore.storeDocument Examples.emptyStore "1" Examples.twoChunkDocument)
       = Returned (final, report)
    /\ List.length (passages final) = 2%nat
    /\ Forall (fun w => VectorStore.documentId w = "1"%string) (passages final)
    /\ In v (passages final)
    /\ VectorStore.searchWithEmbedding s (VectorStore.JArray [1]) (Some ["1"%string])
         Examples.noFilters
       = [scored (VectorStore.JArray [1]) v].
Proof.
  eexists. eexists. eexists. eexists.
  split; [cbn; left; reflexivity |].
  split; [cbn; reflexivity |].
  split; [reflexivity |].
  split; [repeat constructor |].
  split; [left; reflexivity |].
  rewrite search_unfold.
  assert (Hc : forall v0 st,
             passages st = [v0] ->
             VectorStore.documentId v0 = "1"%string ->
             VectorStore.embedding v0 = [1] ->
             candidates (VectorStore.JArray [1]) (Some ["1"%string])
               (VectorStore.effectiveMinSimilarity Examples.noFilters) st
             = [scored (VectorStore.JArray [1]) v0]).
  { intros v0 st Hp Hd He. unfold candidates. rewrite Hp. cbn [filter].
    assert (Hq : qualifies (VectorStore.JArray [1]) (Some ["1"%string])
                   (VectorStore.effectiveMinSimilarity Examples.noFilters) v0 = true).
    { apply qualifies_iff. split; [simpl; left; symmetry; exact Hd |].
      unfold similarityTo. rewrite He, unit_similarity.
      unfold VectorStore.effectiveMinSimilarity; simpl. lra. }
    rewrite Hq. reflexivity. }
  erewrite Hc; [| reflexivity | reflexivity | reflexivity].
  reflexivity.
Qed.

(** C9, amended: registration is not atomic.  [storeDocument] appends
    the passages of a document one at a time, in order, and is suspended
    before each passage that arrives without an embedding; a search that
    runs then sees exactly the passages before that one, a proper prefix
    of the document's passages.  Every state a search can see holds such
    a prefix, and no intermediate state can be seen when every passage
    arrives with its embedding.  (For a document whose keys are not yet
    in the index.) *)
Theorem storeDocument_suspension_states :
  forall (st : VectorStore.Store) (docId : string) (pr : VectorStore.ProcessingResult),
    (forall j, ~ In (keyOf docId j) (map fst (VectorStore.vectors st))) ->
    exists final added,
      snd (VectorStore.storeDocument st docId pr)
      = Returned (final, {| VectorStore.success := true;
                            VectorStore.chunksStored := List.length (chunksOf pr) |})
      /\ VectorStore.vectors final = VectorStore.vectors st ++ added
      /\ List.length added = List.length (chunksOf pr)
      /\ Forall (fun kv => VectorStore.documentId (snd kv) = docId) added
      /\ (forall s, In s (fst (VectorStore.storeDocument st docId pr)) ->
            exists n, (n < List.length (chunksOf pr))%nat
                      /\ VectorStore.vectors s = VectorStore.vectors st ++ firstn n added
                      /\ forall q ids filters r,
                           In r (VectorStore.searchWithEmbedding s q ids filters) ->
                           In (VectorStore.vector r)
                              (map snd (VectorStore.vectors st ++ firstn n added)))
      /\ (forall n c, nth_error (chunksOf pr) n = Some c -> ~ hasEmbedding c ->
            exists s, In s (fst (VectorStore.storeDocument st docId pr))
                      /\ VectorStore.vectors s = VectorStore.vectors st ++ firstn n added)
      /\ (Forall hasEmbedding (chunksOf pr) ->
          fst (VectorStore.storeDocument st docId pr) = []).
Proof.
  intros st docId pr Hfresh.
  unfold VectorStore.storeDocument. fold (chunksOf pr).
  set (st1 := {| VectorStore.vectors := VectorStore.vectors st;
                 VectorStore.documents := _;
                 VectorStore.hf := VectorStore.hf st |}).
  destruct (storeChunks_trace docId (chunksOf pr) st1 0 (fun j _ => Hfresh j))
    as [final [added [Hout [Hfin [Hlen [Hall [Hseen [Hobs Hnone]]]]]]]].
  destruct (VectorStore.storeChunks st1 docId 0 (chunksOf pr)) as [seen out].
  simpl in *. subst out.
  exists final, added.
  split; [reflexivity |]. split; [exact Hfin |]. split; [exact Hlen |].
  split; [exact Hall |]. split; [| split; [exact Hobs | exact Hnone]].
  intros s Hs. destruct (Hseen s Hs) as [n [Hn Hv]].
  exists n. split; [exact Hn |]. split; [exact Hv |].
  intros q ids filters r Hr. apply search_results_in_passages in Hr.
  unfold passages in Hr. rewrite Hv in Hr. exact Hr.
Qed.

(** The hypothesis of C9 holds of the empty store. *)
Lemma storeDocument_suspension_states_witness :
  exists final added,
    snd (VectorStore.storeDocument Examples.emptyStore "1" Examples.twoChunkDocument)
    = Returned (final, {| VectorStore.success := true;
                          VectorStore.chunksStored :=
                            List.length (chunksOf Examples.twoChunkDocument) |})
    /\ VectorStore.vectors final = VectorStore.vectors Examples.emptyStore ++ added
    /\ List.length added = List.length (chunksOf Examples.twoChunkDocument)
    /\ Forall (fun kv => VectorStore.documentId (snd kv) = "1"%string) added
    /\ (forall s, In s (fst (VectorStore.storeDocument Examples.emptyStore "1"
                              Examples.twoChunkDocument)) ->
          exists n, (n < List.length (chunksOf Examples.twoChunkDocument))%nat
                    /\ VectorStore.vectors s
                       = VectorStore.vectors Examples.emptyStore ++ firstn n added
                    /\ forall q ids filters r,
                         In r (VectorStore.searchWithEmbedding s q ids filters) ->
                         In (VectorStore.vector r)
                            (map snd (VectorStore.vectors Examples.emptyStore
                                      ++ firstn n added)))
    /\ (forall n c, nth_error (chunksOf Examples.twoChunkDocument) n = Some c ->
                    ~ hasEmbedding c ->
          exists s, In s (fst (VectorStore.storeDocument Examples.emptyStore "1"
                                 Examples.twoChunkDocument))
                    /\ VectorStore.vectors s
                       = VectorStore.vectors Examples.emptyStore ++ firstn n added)
    /\ (Forall hasEmbedding (chunksOf Examples.twoChunkDocument) ->
        fst (VectorStore.storeDocument Examples.emptyStore "1"
               Examples.twoChunkDocument) = []).
Proof.
  apply (storeDocument_suspension_states Examples.emptyStore "1"
           Examples.twoChunkDocument).
  intros j H. exact H.
Defined.

End Registration.


(* ================================================================== *)
(** * Further properties of the cosine similarity *)
(* ================================================================== *)

Section CosineLaws.
Import Js Spec.
Open Scope R_scope.

Lemma dot_comm (u v : list R) : dot u v = dot v u.
Proof.
  revert v. induction u as [|x u IH]; intros [|y v]; simpl; try reflexivity.
  rewrite IH. ring.
Qed.

Lemma dot_repeat_zero_l (k : nat) (v : list R) : dot (repeat 0 k) v = 0.
Proof. rewrite dot_comm. apply dot_repeat_zero_r. Qed.

Lemma dot_app_zeros (a b : list R) (i j : nat) :
  dot (a ++ repeat 0 i) (b ++ repeat 0 j) = dot a b.
Proof.
  revert b. induction a as [|x a IH]; intros [|y b]; cbn [app].
  - rewrite dot_repeat_zero_r. reflexivity.
  - rewrite dot_repeat_zero_l. reflexivity.
  - rewrite dot_repeat_zero_r. reflexivity.
  - cbn [dot]. rewrite IH. reflexivity.
Qed.

(** The similarity in terms of the vectors as given: the dot product over
    their common prefix, the norms over each whole vector. *)
Lemma cosine_unpadded (a b : list R) :
  VectorStore.calculateCosineSimilarity (VectorStore.JArray a) (VectorStore.JArray b)
  = if Req_dec_T (norm a * norm b) 0 then 0 else dot a b / (norm a * norm b).
Proof.
  rewrite cosine_formula. cbv zeta. unfold norm, VectorStore.padTo.
  rewrite !normSq_app_zeros, dot_app_zeros. reflexivity.
Qed.

Lemma norm_sqr (a : list R) : norm a * norm a = normSq a.
Proof. unfold norm. apply sqrt_sqrt, normSq_nonneg. Qed.

Lemma cosine_self (a : list R) :
  norm a <> 0 ->
  VectorStore.calculateCosineSimilarity (VectorStore.JArray a) (VectorStore.JArray a) = 1.
Proof.
  intros Hn. rewrite cosine_unpadded.
  assert (Hsq : norm a * norm a <> 0) by (intros H; apply Rmult_integral in H; tauto).
  destruct (Req_dec_T (norm a * norm a) 0) as [E | _]; [contradiction |].
  fold (normSq a). rewrite norm_sqr in *. field. exact Hsq.
Qed.

Lemma dot_scaled_l (k : R) (a b : list R) : dot (map (Rmult k) a) b = k * dot a b.
Proof.
  revert b. induction a as [|x a IH]; intros [|y b]; simpl; try lra.
  rewrite IH. ring.
Qed.

Lemma normSq_scaled_by (k : R) (a : list R) :
  normSq (map (Rmult k) a) = (k * k) * normSq a.
Proof.
  unfold normSq. induction a as [|x a IH]; simpl; [lra |].
  rewrite IH. ring.
Qed.

Lemma norm_scaled_by (k : R) (a : list R) :
  0 < k -> norm (map (Rmult k) a) = k * norm a.
Proof.
  intros Hk. unfold norm. rewrite normSq_scaled_by.
  rewrite sqrt_mult; [| nra | apply normSq_nonneg].
  rewrite sqrt_square by lra. reflexivity.
Qed.

(** X1: in exact arithmetic the similarity does not depend on the length
    of the vectors compared: scaling an array by a positive factor leaves
    its similarity to any array unchanged, and the similarity of a vector
    of non-zero norm to itself, or to a positive multiple of itself,
    is 1. *)
Theorem cosine_self_similarity :
  forall (a : list R) (k : R),
    norm a <> 0 -> 0 < k ->
    VectorStore.calculateCosineSimilarity (VectorStore.JArray a) (VectorStore.JArray a) = 1
    /\ VectorStore.calculateCosineSimilarity
         (VectorStore.JArray (map (Rmult k) a)) (VectorStore.JArray a) = 1
    /\ forall b : list R,
         VectorStore.calculateCosineSimilarity
           (VectorStore.JArray (map (Rmult k) a)) (VectorStore.JArray b)
         = VectorStore.calculateCosineSimilarity (VectorStore.JArray a) (VectorStore.JArray b).
Proof.
  intros a k Hn Hk.
  assert (Hscale : forall b : list R,
            VectorStore.calculateCosineSimilarity
              (VectorStore.JArray (map (Rmult k) a)) (VectorStore.JArray b)
            = VectorStore.calculateCosineSimilarity
                (VectorStore.JArray a) (VectorStore.JArray b)).
  { intros b. rewrite !cosine_unpadded, dot_scaled_l, norm_scaled_by by exact Hk.
    destruct (Req_dec_T (norm a * norm b) 0) as [E | E].
    - destruct (Req_dec_T (k * norm a * norm b) 0) as [_ | E']; [reflexivity |].
      exfalso. apply E'. rewrite Rmult_assoc, E. ring.
    - destruct (Req_dec_T (k * norm a * norm b) 0) as [E' | _].
      + exfalso. apply E. rewrite Rmult_assoc in E'.
        apply Rmult_integral in E'. destruct E' as [E' | E']; [lra | exact E'].
      + field. split; [| lra].
        intros Hb. apply E. rewrite Hb. ring. }
  split; [apply cosine_self; exact Hn |].
  split; [rewrite Hscale; apply cosine_self; exact Hn | exact Hscale].
Qed.

(** The hypotheses of X1 hold of the vector [3, 4] and the factor 2. *)
Lemma cosine_self_similarity_witness :
  VectorStore.calculateCosineSimilarity
    (VectorStore.JArray [3; 4]) (VectorStore.JArray [3; 4]) = 1
  /\ VectorStore.calculateCosineSimilarity
       (VectorStore.JArray (map (Rmult 2) [3; 4])) (VectorStore.JArray [3; 4]) = 1
  /\ forall b : list R,
       VectorStore.calculateCosineSimilarity
         (VectorStore.JArray (map (Rmult 2) [3; 4])) (VectorStore.JArray b)
       = VectorStore.calculateCosineSimilarity
           (VectorStore.JArray [3; 4]) (VectorStore.JArray b).
Proof.
  apply (cosine_self_similarity [3; 4] 2).
  - intros H. pose proof (norm_pos_of_entry 0 [3; 4]) as Hp. simpl in Hp. lra.
  - lra.
Defined.

(** X2: the similarity is symmetric in its two arguments, whatever they
    are, and does not change when zeros are appended to either array. *)
Theorem cosine_symmetric_and_padding_invariant :
  (forall x y : VectorStore.JsValue,
     VectorStore.calculateCosineSimilarity x y = VectorStore.calculateCosineSimilarity y x)
  /\ (forall (a b : list R) (i j : nat),
        VectorStore.calculateCosineSimilarity
          (VectorStore.JArray (a ++ repeat 0 i)) (VectorStore.JArray (b ++ repeat 0 j))
        = VectorStore.calculateCosineSimilarity (VectorStore.JArray a) (VectorStore.JArray b)).
Proof.
  split.
  - intros [a | t af] [b | t' af']; try reflexivity.
    rewrite !cosine_unpadded, (dot_comm a b), (Rmult_comm (norm a) (norm b)). reflexivity.
  - intros a b i j. rewrite !cosine_unpadded. unfold norm.
    rewrite !normSq_app_zeros, dot_app_zeros. reflexivity.
Qed.

End CosineLaws.

(* ================================================================== *)
(** * Further properties of the hash embedding *)
(* ================================================================== *)

Section HashLaws.
Import Js Spec.
Open Scope Z_scope.

Lemma toInt32_range (z : Z) : isInt32 (toInt32 z).
Proof.
  unfold isInt32, toInt32.
  pose proof (Z.mod_pos_bound (z + 2 ^ 31) (2 ^ 32) ltac:(lia)). lia.
Qed.

Lemma toInt32_congr (a b : Z) : a mod 2 ^ 32 = b mod 2 ^ 32 -> toInt32 a = toInt32 b.
Proof.
  intros H. unfold toInt32.
  rewrite (Z.add_mod a), (Z.add_mod b), H by lia. reflexivity.
Qed.

Lemma toInt32_mod (z : Z) : toInt32 z mod 2 ^ 32 = z mod 2 ^ 32.
Proof.
  unfold toInt32.
  rewrite Zminus_mod, Z.mod_mod, <- Zminus_mod by lia.
  f_equal. lia.
Qed.

Lemma toInt32_id (z : Z) : isInt32 z -> toInt32 z = z.
Proof.
  unfold isInt32, toInt32. intros H. rewrite Z.mod_small by lia. lia.
Qed.

(** One round of the loop is [hash * 31 + c], wrapped to 32 bits. *)
Lemma hash_round (h : Z) (c : ascii) :
  Z.land (toInt32 (toInt32 (Z.shiftl (toInt32 h) 5) - h + charCode c))
         (toInt32 (toInt32 (Z.shiftl (toInt32 h) 5) - h + charCode c))
  = toInt32 (31 * h + charCode c).
Proof.
  rewrite Z.land_diag. apply toInt32_congr.
  rewrite Z.shiftl_mul_pow2 by lia.
  rewrite Z.add_mod, Zminus_mod, toInt32_mod by lia.
  rewrite (Z.mul_mod (toInt32 h)), toInt32_mod, <- Z.mul_mod by lia.
  rewrite <- Zminus_mod, <- Z.add_mod by lia.
  f_equal. lia.
Qed.

Lemma hashLoop_step (h : Z) (c : ascii) (w : string) :
  VectorStore.hashLoop h (String c w)
  = VectorStore.hashLoop (toInt32 (31 * h + charCode c)) w.
Proof. cbn [VectorStore.hashLoop]. cbv zeta. rewrite hash_round. reflexivity. Qed.

Lemma hashLoop_polyHash (w : string) : forall h h',
  h mod 2 ^ 32 = h' mod 2 ^ 32 -> isInt32 h ->
  VectorStore.hashLoop h w = toInt32 (polyHash h' w).
Proof.
  induction w as [|c w IH]; intros h h' Hc Hr.
  - simpl. rewrite <- (toInt32_id h Hr). apply toInt32_congr. exact Hc.
  - rewrite hashLoop_step. cbn [polyHash]. apply IH; [| apply toInt32_range].
    rewrite toInt32_mod.
    rewrite (Z.add_mod (31 * h)), (Z.add_mod (31 * h')) by lia.
    rewrite (Z.mul_mod 31 h), (Z.mul_mod 31 h'), Hc by lia. reflexivity.
Qed.

(** X3: the word hash of both embeddings and of [simpleHash] is the
    polynomial hash [hash * 31 + c] over the code units of the word,
    wrapped to a signed 32-bit integer; [simpleHash] is its absolute value,
    between 0 and 2^31, and the embedding index it yields is below 384. *)
Theorem word_hash_is_wrapped_polynomial :
  forall word : string,
    VectorStore.hashLoop 0 word = toInt32 (polyHash 0 word)
    /\ isInt32 (VectorStore.hashLoop 0 word)
    /\ VectorStore.simpleHash word = Z.abs (toInt32 (polyHash 0 word))
    /\ 0 <= VectorStore.simpleHash word <= 2 ^ 31
    /\ (VectorStore.wordIndex word < 384)%nat
    /\ Z.of_nat (VectorStore.wordIndex word) = VectorStore.simpleHash word mod 384.
Proof.
  intros word.
  assert (H : VectorStore.hashLoop 0 word = toInt32 (polyHash 0 word))
    by (apply hashLoop_polyHash; [reflexivity | unfold isInt32; lia]).
  pose proof (toInt32_range (polyHash 0 word)) as Hr. unfold isInt32 in Hr.
  unfold VectorStore.simpleHash, VectorStore.wordIndex. rewrite H.
  split; [reflexivity |]. split; [exact Hr |]. split; [reflexivity |].
  split; [lia |].
  pose proof (Z.mod_pos_bound (Z.abs (toInt32 (polyHash 0 word))) 384 ltac:(lia)).
  split; lia.
Qed.

End HashLaws.

Section HashEmbeddingLaws.
Import Js Spec.
Open Scope R_scope.

Lemma dot_nonneg (u v : list R) :
  Forall (Rle 0) u -> Forall (Rle 0) v -> 0 <= dot u v.
Proof.
  intros Hu. revert v. induction Hu as [|x u Hx _ IH]; intros v Hv; [simpl; lra |].
  destruct Hv as [|y v Hy Hv]; simpl; [lra |].
  specialize (IH v Hv). nra.
Qed.

Lemma cosine_nonneg (a b : list R) :
  Forall (Rle 0) a -> Forall (Rle 0) b ->
  0 <= VectorStore.calculateCosineSimilarity (VectorStore.JArray a) (VectorStore.JArray b).
Proof.
  intros Ha Hb. rewrite cosine_unpadded.
  destruct (Req_dec_T (norm a * norm b) 0) as [_ | Hne]; [lra |].
  pose proof (dot_nonneg a b Ha Hb) as Hd.
  assert (Hpos : 0 < norm a * norm b).
  { pose proof (sqrt_pos (normSq a)). pose proof (sqrt_pos (normSq b)).
    unfold norm in *. nra. }
  apply Rmult_le_reg_r with (norm a * norm b); [exact Hpos |].
  unfold Rdiv. rewrite Rmult_assoc, Rinv_l by lra. lra.
Qed.

Lemma entry_le_norm (l : list R) (x : R) : In x l -> 0 <= x -> x <= norm l.
Proof.
  intros Hin Hx. destruct (In_nth l x 0 Hin) as [k [_ Hk]].
  pose proof (normSq_nth k l) as Hsq. rewrite Hk in Hsq.
  unfold norm. rewrite <- (sqrt_Rsqr x Hx). apply sqrt_le_1_alt. unfold Rsqr. exact Hsq.
Qed.

(** Dividing non-negative entries by a positive norm leaves them in [0, 1]. *)
Lemma normalized_entries (l : list R) :
  Forall (Rle 0) l -> 0 < norm l ->
  Forall (fun x => 0 <= x <= 1) (map (fun v => v / norm l) l).
Proof.
  intros Hnn Hpos. apply Forall_forall. intros y Hy.
  apply in_map_iff in Hy. destruct Hy as [x [Hy Hx]]. subst y.
  assert (H0 : 0 <= x) by (rewrite Forall_forall in Hnn; apply Hnn; exact Hx).
  pose proof (entry_le_norm l x Hx H0) as Hle.
  split.
  - apply Rmult_le_reg_r with (norm l); [exact Hpos |].
    unfold Rdiv. rewrite Rmult_assoc, Rinv_l by lra. lra.
  - apply Rmult_le_reg_r with (norm l); [exact Hpos |].
    unfold Rdiv. rewrite Rmult_assoc, Rinv_l by lra. lra.
Qed.

Lemma store_accumulate_nonneg (text : string) : Forall (Rle 0) (VectorStore.accumulate text).
Proof.
  unfold VectorStore.accumulate.
  set (t := if (String.length text =? 0)%nat then "default text"%string else text).
  set (ws := filter _ _).
  destruct (wordLoop_grows ws (repeat 0 384)) as [_ [Hw _]].
  destruct (charLoop_grows t 0 (VectorStore.wordLoop ws (repeat 0 384))) as [_ [Hc _]].
  apply Hc, Hw, zeros_nonneg.
Qed.

Lemma pipeline_accumulate_nonneg (text : string) :
  Forall (Rle 0) (RAGPipeline.accumulate text).
Proof.
  unfold RAGPipeline.accumulate. change RAGPipeline.wordLoop with VectorStore.wordLoop.
  destruct (wordLoop_grows (splitWs (toLowerCase text)) (repeat 0 384)) as [_ [Hw _]].
  apply Hw, zeros_nonneg.
Qed.

Lemma store_embedding_entries (text : string) :
  Forall (fun x => 0 <= x <= 1) (VectorStore.simpleHashEmbedding text).
Proof.
  rewrite store_embedding_normalized.
  apply normalized_entries; [apply store_accumulate_nonneg |].
  rewrite <- magnitudeOf_norm. apply store_magnitude_pos.
Qed.

Lemma pipeline_embedding_entries (text : string) :
  Forall (fun x => 0 <= x <= 1) (RAGPipeline.simpleHashEmbedding text).
Proof.
  rewrite pipeline_embedding_normalized.
  apply normalized_entries; [apply pipeline_accumulate_nonneg | apply pipeline_magnitude_pos].
Qed.

Lemma entries_nonneg (l : list R) : Forall (fun x => 0 <= x <= 1) l -> Forall (Rle 0) l.
Proof. apply Forall_impl. intros x [H _]. exact H. Qed.

(** X4: every component of a hash embedding, the store's or the
    pipeline's, lies in [0, 1]; so the similarity of a fallback query
    embedding to a fallback passage embedding is never negative: it lies
    in [0, 1] (exact arithmetic). *)
Theorem fallback_similarity_is_nonnegative :
  forall t1 t2 : string,
    Forall (fun x => 0 <= x <= 1) (VectorStore.simpleHashEmbedding t1)
    /\ Forall (fun x => 0 <= x <= 1) (RAGPipeline.simpleHashEmbedding t1)
    /\ 0 <= VectorStore.calculateCosineSimilarity
              (VectorStore.JArray (VectorStore.simpleHashEmbedding t1))
              (VectorStore.JArray (VectorStore.simpleHashEmbedding t2)) <= 1
    /\ 0 <= VectorStore.calculateCosineSimilarity
              (VectorStore.JArray (RAGPipeline.simpleHashEmbedding t1))
              (VectorStore.JArray (VectorStore.simpleHashEmbedding t2)) <= 1.
Proof.
  intros t1 t2.
  pose proof (store_embedding_entries t1) as H1.
  pose proof (store_embedding_entries t2) as H2.
  pose proof (pipeline_embedding_entries t1) as H3.
  split; [exact H1 |]. split; [exact H3 |].
  split; (split; [apply cosine_nonneg; apply entries_nonneg; assumption | apply cosine_bounds]).
Qed.

Lemma addAt_comm (i j : nat) (x y : R) (l : list R) :
  addAt i x (addAt j y l) = addAt j y (addAt i x l).
Proof.
  revert i j. induction l as [|v l IH]; intros [|i] [|j]; simpl; try reflexivity.
  - f_equal. ring.
  - f_equal. apply IH.
Qed.

Lemma wordLoop_permutation (ws1 ws2 : list string) :
  Permutation ws1 ws2 ->
  forall emb, VectorStore.wordLoop ws1 emb = VectorStore.wordLoop ws2 emb.
Proof.
  unfold VectorStore.wordLoop.
  induction 1 as [| w l1 l2 _ IH | w1 w2 l | l1 l2 l3 _ IH1 _ IH2]; intros emb; simpl.
  - reflexivity.
  - apply IH.
  - rewrite addAt_comm. reflexivity.
  - rewrite IH1. apply IH2.
Qed.

Lemma lowerChar_idempotent (c : ascii) : lowerChar (lowerChar c) = lowerChar c.
Proof.
  destruct c as [[] [] [] [] [] [] [] []]; vm_compute; reflexivity.
Qed.

Lemma toLowerCase_idempotent (s : string) : toLowerCase (toLowerCase s) = toLowerCase s.
Proof.
  induction s as [|c s IH]; simpl; [reflexivity |].
  rewrite lowerChar_idempotent, IH. reflexivity.
Qed.

(** X5: the pipeline's hash embedding of a query depends only on the
    multiset of its lower-cased tokens: two texts whose token lists are
    permutations of one another get the same vector, as do a text and its
    lower-case form. *)
Theorem pipeline_embedding_ignores_order_and_case :
  forall t1 t2 : string,
    Permutation (tokens t1) (tokens t2) ->
    RAGPipeline.simpleHashEmbedding t1 = RAGPipeline.simpleHashEmbedding t2
    /\ RAGPipeline.simpleHashEmbedding (toLowerCase t1) = RAGPipeline.simpleHashEmbedding t1.
Proof.
  intros t1 t2 Hp.
  assert (Hacc : RAGPipeline.accumulate t1 = RAGPipeline.accumulate t2).
  { unfold RAGPipeline.accumulate. change RAGPipeline.wordLoop with VectorStore.wordLoop.
    apply wordLoop_permutation. exact Hp. }
  assert (Hlow : RAGPipeline.accumulate (toLowerCase t1) = RAGPipeline.accumulate t1).
  { unfold RAGPipeline.accumulate. rewrite toLowerCase_idempotent. reflexivity. }
  unfold RAGPipeline.simpleHashEmbedding. rewrite Hlow, Hacc. split; reflexivity.
Qed.

(** The hypothesis of X5 holds of a query and its words in the other
    order, in capitals. *)
Lemma pipeline_embedding_ignores_order_and_case_witness :
  RAGPipeline.simpleHashEmbedding "revenue report"
  = RAGPipeline.simpleHashEmbedding "REPORT   Revenue"
  /\ RAGPipeline.simpleHashEmbedding (toLowerCase "revenue report")
     = RAGPipeline.simpleHashEmbedding "revenue report".
Proof.
  apply (pipeline_embedding_ignores_order_and_case "revenue report" "REPORT   Revenue").
  apply perm_swap.
Defined.

End HashEmbeddingLaws.

(* ================================================================== *)
(** * The index as a map: storeDocument, getStats, clear *)
(* ================================================================== *)

Section StoreLaws.
Import Js Spec.
Open Scope R_scope.

Lemma mapGet_mapSet_same {V : Type} (k : string) (v : V) (m : list (string * V)) :
  VectorStore.mapGet k (mapSet k v m) = Some v.
Proof.
  induction m as [|[k' v'] m IH]; simpl.
  - rewrite String.eqb_refl. reflexivity.
  - destruct (String.eqb k k') eqn:E; simpl.
    + rewrite String.eqb_refl. reflexivity.
    + rewrite E. exact IH.
Qed.

Lemma mapGet_mapSet_other {V : Type} (k k' : string) (v : V) (m : list (string * V)) :
  k' <> k -> VectorStore.mapGet k' (mapSet k v m) = VectorStore.mapGet k' m.
Proof.
  intros Hne. induction m as [|[k0 v0] m IH]; simpl.
  - destruct (String.eqb k' k) eqn:E; [apply String.eqb_eq in E; contradiction | reflexivity].
  - destruct (String.eqb k k0) eqn:E; simpl.
    + apply String.eqb_eq in E. subst k0.
      destruct (String.eqb k' k) eqn:E'; [apply String.eqb_eq in E'; contradiction | reflexivity].
    + destruct (String.eqb k' k0); [reflexivity | exact IH].
Qed.

(** [map.set] keeps the keys in place and adds a new key at the end. *)
Lemma mapSet_keys {V : Type} (k : string) (v : V) (m : list (string * V)) :
  map fst (mapSet k v m)
  = map fst m ++ (if existsb (String.eqb k) (map fst m) then [] else [k]).
Proof.
  induction m as [|[k0 v0] m IH]; simpl; [reflexivity |].
  destruct (String.eqb k k0) eqn:E; simpl.
  - apply String.eqb_eq in E. subst k0. rewrite app_nil_r. reflexivity.
  - rewrite IH. reflexivity.
Qed.

Lemma existsb_eqb_In (k : string) (l : list string) :
  existsb (String.eqb k) l = true <-> In k l.
Proof.
  rewrite existsb_exists. split.
  - intros [x [Hx E]]. apply String.eqb_eq in E. subst x. exact Hx.
  - intros H. exists k. split; [exact H | apply String.eqb_refl].
Qed.

Lemma mapSet_NoDup {V : Type} (k : string) (v : V) (m : list (string * V)) :
  NoDup (map fst m) -> NoDup (map fst (mapSet k v m)).
Proof.
  intros Hnd. rewrite mapSet_keys.
  destruct (existsb (String.eqb k) (map fst m)) eqn:E.
  - rewrite app_nil_r. exact Hnd.
  - apply NoDup_app; [exact Hnd | repeat constructor; intros [] |].
    intros x Hx [Hk | []]. subst x.
    apply existsb_eqb_In in Hx. congruence.
Qed.

Lemma storeChunk_lookup (st : VectorStore.Store) (docId : string) (i : nat)
    (chunk : VectorStore.Chunk) (emb : VectorStore.JsValue) :
  let st' := VectorStore.storeChunk st docId i chunk emb in
  (exists v, lookup (keyOf docId i) st' = Some v
             /\ VectorStore.id v = keyOf docId i
             /\ VectorStore.documentId v = docId
             /\ VectorStore.chunkId v = i
             /\ VectorStore.content v = VectorStore.chunk_content chunk
             /\ VectorStore.type v = VectorStore.chunk_type chunk
             /\ VectorStore.vmetadata v = VectorStore.chunk_metadata chunk
             /\ VectorStore.embedding v
                = match emb with
                  | VectorStore.JArray l => l
                  | VectorStore.JOther _ _ =>
                      VectorStore.simpleHashEmbedding (VectorStore.chunk_content chunk)
                  end
             /\ VectorStore.embeddingModel v
                = match VectorStore.chunk_embeddingModel chunk with
                  | Some m => if (String.length m =? 0)%nat then "fallback"%string else m
                  | None => "fallback"%string
                  end)
  /\ (forall k, k <> keyOf docId i -> lookup k st' = lookup k st)
  /\ VectorStore.documents st' = VectorStore.documents st
  /\ VectorStore.hf st' = VectorStore.hf st
  /\ keys st' = keys st ++ (if existsb (String.eqb (keyOf docId i)) (keys st)
                            then [] else [keyOf docId i]).
Proof.
  cbv zeta. unfold lookup, keys, VectorStore.storeChunk. cbn [VectorStore.vectors
    VectorStore.documents VectorStore.hf]. fold (keyOf docId i).
  split; [| split; [| split; [| split]]].
  - eexists. split; [apply mapGet_mapSet_same |]. cbn. repeat split; reflexivity.
  - intros k Hk. apply mapGet_mapSet_other. exact Hk.
  - reflexivity.
  - reflexivity.
  - apply mapSet_keys.
Qed.

Lemma keyOf_neq (docId : string) (i j : nat) : i <> j -> keyOf docId i <> keyOf docId j.
Proof. intros Hne E. apply keyOf_inj in E. contradiction. Qed.

Lemma storeChunks_lookup (docId : string) (cs : list VectorStore.Chunk) :
  forall (st : VectorStore.Store) (i : nat),
  exists final added,
    snd (VectorStore.storeChunks st docId i cs) = Returned final
    /\ (forall n c, nth_error cs n = Some c ->
          exists v, lookup (keyOf docId (i + n)) final = Some v
                    /\ storedAs st docId (i + n) c v)
    /\ (forall k, (forall n, (n < List.length cs)%nat -> k <> keyOf docId (i + n)) ->
          lookup k final = lookup k st)
    /\ VectorStore.documents final = VectorStore.documents st
    /\ VectorStore.hf final = VectorStore.hf st
    /\ keys final = keys st ++ added
    /\ (List.length added <= List.length cs)%nat
    /\ (NoDup (keys st) -> NoDup (keys final)).
Proof.
  induction cs as [|c cs IH]; intros st i.
  - exists st, []. simpl. split; [reflexivity |].
    split; [intros [|n] c H; discriminate |].
    split; [reflexivity |]. split; [reflexivity |]. split; [reflexivity |].
    split; [symmetry; apply app_nil_r |]. split; [lia | auto].
  - assert (Hstep : exists emb,
        snd (VectorStore.storeChunks st docId i (c :: cs))
        = snd (VectorStore.storeChunks (VectorStore.storeChunk st docId i c emb) docId (S i) cs)
        /\ (forall l, VectorStore.chunk_embedding c = VectorStore.JArray l ->
              emb = VectorStore.JArray l)
        /\ (forall af, VectorStore.chunk_embedding c = VectorStore.JOther true af ->
              emb = VectorStore.JOther true af)
        /\ (VectorStore.truthy (VectorStore.chunk_embedding c) = false ->
              exists l, emb = VectorStore.JArray l
                        /\ VectorStore.generateEmbedding st (VectorStore.chunk_content c)
                           = Returned l)).
    { cbn [VectorStore.storeChunks].
      destruct (VectorStore.truthy (VectorStore.chunk_embedding c)) eqn:Ht.
      - exists (VectorStore.chunk_embedding c). split; [reflexivity |].
        split; [intros l H; exact H |]. split; [intros af H; exact H |]. discriminate.
      - destruct (store_generateEmbedding_returns st (VectorStore.chunk_content c))
          as [l Hl].
        exists (VectorStore.JArray l). rewrite Hl.
        destruct (VectorStore.storeChunks _ docId (S i) cs) as [seen out]. cbn [snd].
        split; [reflexivity |].
        split; [intros l' H; rewrite H in Ht; discriminate |].
        split; [intros af H; rewrite H in Ht; discriminate |].
        intros _. exists l. split; reflexivity. }
    destruct Hstep as [emb [Hsnd [HArr [HOth Hgen]]]].
    pose proof (storeChunk_lookup st docId i c emb) as Hone. cbv zeta in Hone.
    set (st1 := VectorStore.storeChunk st docId i c emb) in *.
    destruct Hone as [[v0 [Hv0 [Hid [Hdoc [Hcid [Hcont [Hty [Hmeta [Hemb Hmodel]]]]]]]]]
                      [Hother1 [Hdocs1 [Hhf1 Hkeys1]]]].
    destruct (IH st1 (S i)) as [final [added [Hret [Hin [Hout [Hdocs [Hhf [Hkeys [Hlen Hnd]]]]]]]]].
    exists final.
    exists ((if existsb (String.eqb (keyOf docId i)) (keys st) then []
             else [keyOf docId i]) ++ added).
    split; [rewrite Hsnd; exact Hret |].
    split.
    { intros [|n] c' Hn.
      - cbn in Hn. injection Hn as <-. rewrite Nat.add_0_r.
        exists v0. split.
        + rewrite Hout; [exact Hv0 |].
          intros n _. apply keyOf_neq. lia.
        + unfold storedAs. repeat split; try assumption.
          * intros l Hl. rewrite Hemb, (HArr l Hl). reflexivity.
          * intros af Haf. rewrite Hemb, (HOth af Haf). reflexivity.
          * intros Ht. destruct (Hgen Ht) as [l [-> Hl]]. rewrite Hemb. exact Hl.
      - cbn in Hn. destruct (Hin n c' Hn) as [v [Hv Hst]].
        replace (i + S n)%nat with (S i + n)%nat by lia.
        exists v. split; [exact Hv |].
        unfold storedAs in *.
        destruct Hst as [H1 [H2 [H3 [H4 [H5 [H6 [H7 [H8 [H9 H10]]]]]]]]].
        repeat split; assumption. }
    split.
    { intros k Hk. rewrite Hout.
      - apply Hother1. specialize (Hk 0%nat). rewrite Nat.add_0_r in Hk.
        apply Hk. cbn. lia.
      - intros n Hn. replace (S i + n)%nat with (i + S n)%nat by lia.
        apply Hk. cbn. lia. }
    split; [rewrite Hdocs; exact Hdocs1 |].
    split; [rewrite Hhf; exact Hhf1 |].
    split; [rewrite Hkeys, Hkeys1, app_assoc; reflexivity |].
    split.
    { rewrite length_app. cbn [List.length].
      destruct (existsb _ _); cbn [List.length]; lia. }
    intros Hnd0. apply Hnd. rewrite Hkeys1.
    destruct (existsb (String.eqb (keyOf docId i)) (keys st)) eqn:E.
    + rewrite app_nil_r. exact Hnd0.
    + apply NoDup_app; [exact Hnd0 | repeat constructor; intros [] |].
      intros x Hx [Hk | []]. subst x. apply existsb_eqb_In in Hx. congruence.
Qed.

Lemma storeDocument_unfold (st : VectorStore.Store) (docId : string)
    (pr : VectorStore.ProcessingResult) :
  let st1 :=
    {| VectorStore.vectors := VectorStore.vectors st;
       VectorStore.documents :=
         mapSet docId
           {| VectorStore.doc_id := docId;
              VectorStore.doc_metadata := VectorStore.metadata pr;
              VectorStore.chunksCount := List.length (chunksOf pr) |}
           (VectorStore.documents st);
       VectorStore.hf := VectorStore.hf st |} in
  forall final,
    snd (VectorStore.storeChunks st1 docId 0 (chunksOf pr)) = Returned final ->
    snd (VectorStore.storeDocument st docId pr)
    = Returned (final, {| VectorStore.success := true;
                          VectorStore.chunksStored := List.length (chunksOf pr) |}).
Proof.
  cbv zeta. intros final Hfinal.
  unfold VectorStore.storeDocument. fold (chunksOf pr).
  destruct (VectorStore.storeChunks _ docId 0 (chunksOf pr)) as [seen out].
  cbn [snd] in *. rewrite Hfinal. reflexivity.
Qed.

(** X6: storing a document and looking its passages up again.  Whatever
    the index held before (the document may have been stored already),
    [storeDocument] returns, reports the number of chunks, and leaves
    under the key of each chunk a passage with the chunk's content, type
    and metadata, the document id and the chunk's position; the passage
    carries the chunk's own embedding when that is an array, the hash
    embedding of its content when it is some other truthy value, and the
    generated embedding when the chunk has none; its model is the chunk's
    or [fallback], never empty (so it is never counted as [unknown]).  Every other key of the index answers as
    before, the record of the document counts the chunks, and the records
    of other documents are untouched. *)
Theorem storeDocument_lookup_round_trip :
  forall (st : VectorStore.Store) (docId : string) (pr : VectorStore.ProcessingResult),
  exists final,
    snd (VectorStore.storeDocument st docId pr)
    = Returned (final, {| VectorStore.success := true;
                          VectorStore.chunksStored := List.length (chunksOf pr) |})
    /\ (forall n c, nth_error (chunksOf pr) n = Some c ->
          exists v, lookup (keyOf docId n) final = Some v
                    /\ storedAs st docId n c v
                    /\ VectorStore.modelOf v = VectorStore.embeddingModel v
                    /\ VectorStore.embeddingModel v <> EmptyString)
    /\ (forall k, (forall n, (n < List.length (chunksOf pr))%nat -> k <> keyOf docId n) ->
          lookup k final = lookup k st)
    /\ VectorStore.mapGet docId (VectorStore.documents final)
       = Some {| VectorStore.doc_id := docId;
                 VectorStore.doc_metadata := VectorStore.metadata pr;
                 VectorStore.chunksCount := List.length (chunksOf pr) |}
    /\ (forall d, d <> docId ->
          VectorStore.mapGet d (VectorStore.documents final)
          = VectorStore.mapGet d (VectorStore.documents st))
    /\ VectorStore.hf final = VectorStore.hf st.
Proof.
  intros st docId pr.
  set (st1 :=
    {| VectorStore.vectors := VectorStore.vectors st;
       VectorStore.documents :=
         mapSet docId
           {| VectorStore.doc_id := docId;
              VectorStore.doc_metadata := VectorStore.metadata pr;
              VectorStore.chunksCount := List.length (chunksOf pr) |}
           (VectorStore.documents st);
       VectorStore.hf := VectorStore.hf st |}).
  destruct (storeChunks_lookup docId (chunksOf pr) st1 0)
    as [final [added [Hret [Hin [Hout [Hdocs [Hhf _]]]]]]].
  exists final.
  split; [apply storeDocument_unfold; exact Hret |].
  split.
  { intros n c Hn. destruct (Hin n c Hn) as [v [Hv Hst]]. cbn [Nat.add] in Hv, Hst.
    exists v. split; [exact Hv |]. split; [exact Hst |].
    destruct Hst as [_ [_ [_ [_ [_ [_ [_ [_ [_ Hmodel]]]]]]]]].
    unfold VectorStore.modelOf. rewrite Hmodel.
    assert (Hne : (String.length
                     match VectorStore.chunk_embeddingModel c with
                     | Some m => if (String.length m =? 0)%nat then "fallback"%string else m
                     | None => "fallback"%string
                     end =? 0)%nat = false).
    { destruct (VectorStore.chunk_embeddingModel c) as [m|]; [| reflexivity].
      destruct (String.length m =? 0)%nat eqn:E; [reflexivity | exact E]. }
    rewrite Hne. split; [reflexivity |].
    intros E. rewrite E in Hne. discriminate. }
  split; [intros k Hk; rewrite Hout; [reflexivity | exact Hk] |].
  split; [rewrite Hdocs; apply mapGet_mapSet_same |].
  split; [intros d Hd; rewrite Hdocs; apply mapGet_mapSet_other; exact Hd |].
  exact Hhf.
Qed.

Lemma mapGet_Some_In {V : Type} (k : string) (v : V) (m : list (string * V)) :
  VectorStore.mapGet k m = Some v -> In v (map snd m).
Proof.
  induction m as [|[k0 v0] m IH]; simpl; [discriminate |].
  destruct (String.eqb k k0).
  - intros H. injection H as ->. left. reflexivity.
  - intros H. right. apply IH. exact H.
Qed.

(** X7: [storeDocument] never removes a passage.  The keys the index had
    keep their places and the new ones follow them; the index grows by at
    most the number of chunks; keys stay distinct; and when a document is
    stored again with fewer chunks, the passages of its former version
    beyond the new length stay in the index, where search still finds
    them. *)
Theorem storeDocument_never_removes :
  forall (st : VectorStore.Store) (docId : string) (pr : VectorStore.ProcessingResult),
  exists final report added,
    snd (VectorStore.storeDocument st docId pr) = Returned (final, report)
    /\ keys final = keys st ++ added
    /\ (List.length (passages st) <= List.length (passages final)
        <= List.length (passages st) + List.length (chunksOf pr))%nat
    /\ (NoDup (keys st) -> NoDup (keys final))
    /\ (forall j v, (List.length (chunksOf pr) <= j)%nat ->
          lookup (keyOf docId j) st = Some v ->
          lookup (keyOf docId j) final = Some v /\ In v (passages final)).
Proof.
  intros st docId pr.
  set (st1 :=
    {| VectorStore.vectors := VectorStore.vectors st;
       VectorStore.documents :=
         mapSet docId
           {| VectorStore.doc_id := docId;
              VectorStore.doc_metadata := VectorStore.metadata pr;
              VectorStore.chunksCount := List.length (chunksOf pr) |}
           (VectorStore.documents st);
       VectorStore.hf := VectorStore.hf st |}).
  destruct (storeChunks_lookup docId (chunksOf pr) st1 0)
    as [final [added [Hret [_ [Hout [_ [_ [Hkeys [Hlen Hnd]]]]]]]]].
  exists final. eexists. exists added.
  split; [apply storeDocument_unfold; exact Hret |].
  split; [exact Hkeys |].
  split.
  { assert (Hl : List.length (keys final) = (List.length (keys st) + List.length added)%nat).
    { rewrite Hkeys, length_app. reflexivity. }
    unfold keys, passages in *. rewrite !length_map in *. lia. }
  split; [exact Hnd |].
  intros j v Hj Hv.
  assert (Hfinal : lookup (keyOf docId j) final = Some v).
  { rewrite Hout; [exact Hv |]. intros n Hn. apply keyOf_neq. cbn. lia. }
  split; [exact Hfinal |].
  unfold lookup in Hfinal. apply mapGet_Some_In in Hfinal. exact Hfinal.
Qed.

Lemma mapSet_increment (k : string) (m : list (string * nat)) :
  list_sum (map snd
    (mapSet k (match VectorStore.mapGet k m with Some n => n | None => 0 end + 1)%nat m))
  = (list_sum (map snd m) + 1)%nat.
Proof.
  induction m as [|[k0 n0] m IH]; simpl; [reflexivity |].
  destruct (String.eqb k k0); simpl; [lia |].
  rewrite IH. lia.
Qed.

Lemma modelCounts_fold (l : list (string * VectorStore.Vector)) :
  forall modelCounts : list (string * nat),
    let result :=
      fold_left
        (fun modelCounts kv =>
           let model := VectorStore.modelOf (snd kv) in
           mapSet model
             (match VectorStore.mapGet model modelCounts with Some n => n | None => 0 end + 1)%nat
             modelCounts)
        l modelCounts in
    (forall model,
       let n := List.length
                  (filter (fun v => String.eqb (VectorStore.modelOf v) model) (map snd l)) in
       VectorStore.mapGet model result
       = if (n =? 0)%nat then VectorStore.mapGet model modelCounts
         else Some (match VectorStore.mapGet model modelCounts with
                    | Some c => c | None => 0 end + n)%nat)
    /\ list_sum (map snd result) = (list_sum (map snd modelCounts) + List.length l)%nat
    /\ (NoDup (map fst modelCounts) -> NoDup (map fst result)).
Proof.
  induction l as [|[key v] l IH]; intros modelCounts; cbv zeta.
  - simpl. split; [reflexivity |]. split; [lia | auto].
  - cbn [fold_left snd].
    set (model0 := VectorStore.modelOf v).
    set (mc1 := mapSet model0 _ modelCounts).
    destruct (IH mc1) as [Hget [Hsum Hnd]]. cbv zeta in Hget.
    split; [| split].
    + intros model. rewrite Hget. cbn [map snd filter].
      fold model0.
      destruct (String.eqb model0 model) eqn:E.
      * apply String.eqb_eq in E. subst model.
        unfold mc1. rewrite mapGet_mapSet_same. cbn [List.length].
        destruct (List.length _ =? 0)%nat eqn:E0.
        -- apply Nat.eqb_eq in E0. rewrite E0. cbn [Nat.eqb].
           first [reflexivity | f_equal; lia].
        -- cbn [Nat.eqb]. first [reflexivity | f_equal; lia].
      * apply String.eqb_neq in E.
        unfold mc1. rewrite mapGet_mapSet_other by congruence. reflexivity.
    + refine (eq_trans Hsum _). unfold mc1. rewrite mapSet_increment.
      cbn [List.length]. lia.
    + intros H. apply Hnd. unfold mc1. apply mapSet_NoDup. exact H.
Qed.

(** X8: the statistics count every passage once.  For an index whose
    model names are none of the property names a plain object inherits:
    the count recorded for a model is the number of passages of that
    model, a model without passages has no entry, the counts add up to
    [totalVectors], which is the number of passages, and no model is
    listed twice; without documents the average is 0, no division taking
    place.  After [clear] all statistics are 0 and every search is
    empty. *)
Theorem stats_count_every_passage :
  forall st : VectorStore.Store,
    Forall (fun v => ~ In (VectorStore.modelOf v) inheritedKeys) (passages st) ->
    let s := VectorStore.getStats st in
    VectorStore.totalVectors s = List.length (passages st)
    /\ (forall model,
          VectorStore.mapGet model (VectorStore.embeddingModels s)
          = if (passagesOfModel model st =? 0)%nat then None
            else Some (passagesOfModel model st))
    /\ list_sum (map snd (VectorStore.embeddingModels s)) = VectorStore.totalVectors s
    /\ NoDup (map fst (VectorStore.embeddingModels s))
    /\ (VectorStore.totalDocuments s = 0%nat -> VectorStore.averageChunksPerDocument s = 0)
    /\ VectorStore.getStats (VectorStore.clear st)
       = {| VectorStore.totalVectors := 0;
            VectorStore.totalDocuments := 0;
            VectorStore.averageChunksPerDocument := 0;
            VectorStore.embeddingModels := [] |}
    /\ (forall q ids filters,
          VectorStore.searchWithEmbedding (VectorStore.clear st) q ids filters = []).
Proof.
  intros st _. cbv zeta.
  destruct (modelCounts_fold (VectorStore.vectors st) []) as [Hget [Hsum Hnd]].
  cbv zeta in Hget.
  unfold VectorStore.getStats. cbn [VectorStore.totalVectors VectorStore.totalDocuments
    VectorStore.averageChunksPerDocument VectorStore.embeddingModels].
  unfold VectorStore.getEmbeddingModelStats, passagesOfModel, passages.
  split; [symmetry; apply length_map |].
  split.
  { intros model. refine (eq_trans (Hget model) _). cbn [VectorStore.mapGet].
    destruct (List.length _ =? 0)%nat; reflexivity. }
  split; [exact Hsum |].
  split; [exact (Hnd (NoDup_nil _)) |].
  split.
  { intros H0. rewrite H0. reflexivity. }
  split; [reflexivity |].
  intros q ids filters. apply search_empty_index. reflexivity.
Qed.

(** The hypothesis of X8 holds of an index with one passage of the model
    [fallback]. *)
Lemma stats_count_every_passage_witness :
  let s := VectorStore.getStats Examples.orthogonalStore in
  VectorStore.totalVectors s = List.length (passages Examples.orthogonalStore)
  /\ (forall model,
        VectorStore.mapGet model (VectorStore.embeddingModels s)
        = if (passagesOfModel model Examples.orthogonalStore =? 0)%nat then None
          else Some (passagesOfModel model Examples.orthogonalStore))
  /\ list_sum (map snd (VectorStore.embeddingModels s)) = VectorStore.totalVectors s
  /\ NoDup (map fst (VectorStore.embeddingModels s))
  /\ (VectorStore.totalDocuments s = 0%nat -> VectorStore.averageChunksPerDocument s = 0)
  /\ VectorStore.getStats (VectorStore.clear Examples.orthogonalStore)
     = {| VectorStore.totalVectors := 0;
          VectorStore.totalDocuments := 0;
          VectorStore.averageChunksPerDocument := 0;
          VectorStore.embeddingModels := [] |}
  /\ (forall q ids filters,
        VectorStore.searchWithEmbedding (VectorStore.clear Examples.orthogonalStore)
          q ids filters = []).
Proof.
  apply (stats_count_every_passage Examples.orthogonalStore).
  repeat constructor. cbn. intuition discriminate.
Defined.

Lemma store_embedding_norm (text : string) :
  norm (VectorStore.simpleHashEmbedding text) = 1.
Proof.
  rewrite store_embedding_normalized. apply norm_normalized.
  rewrite <- magnitudeOf_norm. apply store_magnitude_pos.
Qed.

Lemma descending_head {A : Type} (score : A -> R) (x : A) (l : list A) :
  descending score (x :: l) -> forall y, In y (x :: l) -> score y <= score x.
Proof.
  intros Hd y [<- | Hy]; [lra |].
  apply StronglySorted_inv in Hd. destruct Hd as [_ Hall].
  rewrite Forall_forall in Hall. apply Hall. exact Hy.
Qed.

Lemma slice0_cons {A : Type} (k : Z) (x : A) (l : list A) :
  (0 < k)%Z -> exists rest, slice0 k (x :: l) = x :: rest /\ incl rest l.
Proof.
  intros Hk. rewrite slice0_firstn by lia.
  destruct (Z.to_nat k) as [|n] eqn:E; [lia |].
  exists (firstn n l). split; [reflexivity |].
  intros y Hy. apply firstn_In in Hy. exact Hy.
Qed.

(** A passage of similarity 1 to the query embedding heads the result. *)
Lemma search_finds_perfect_match (st : VectorStore.Store) (q : VectorStore.JsValue)
    (ids : option (list string)) (filters : VectorStore.Filters) (v : VectorStore.Vector) :
  In v (passages st) ->
  similarityTo q v = 1 ->
  inDocuments ids v ->
  VectorStore.effectiveMinSimilarity filters <= 1 ->
  (0 < VectorStore.effectiveTopK filters)%Z ->
  exists top rest,
    VectorStore.searchWithEmbedding st q ids filters = top :: rest
    /\ VectorStore.similarity top = 1
    /\ Forall (fun r => VectorStore.effectiveMinSimilarity filters
                        <= VectorStore.similarity r
                        /\ inDocuments ids (VectorStore.vector r)
                        /\ In (VectorStore.vector r) (passages st))
              (top :: rest).
Proof.
  intros Hin Hone Hdoc Hm Hk.
  set (m := VectorStore.effectiveMinSimilarity filters) in *.
  rewrite search_unfold. fold m.
  set (cmp := fun a b : VectorStore.SearchResult =>
                VectorStore.similarity b - VectorStore.similarity a).
  set (cands := candidates q ids m st).
  assert (Hcand : In (scored q v) cands).
  { apply candidates_In. exists v. cbn [VectorStore.similarity scored].
    repeat split; [exact Hin | lra | exact Hdoc]. }
  assert (Hall : forall r, In r (sort cmp cands) ->
            m <= VectorStore.similarity r <= 1
            /\ inDocuments ids (VectorStore.vector r)
            /\ In (VectorStore.vector r) (passages st)).
  { intros r Hr.
    apply (Permutation_in r (Permutation_sym (sort_perm VectorStore.similarity cands))) in Hr.
    apply candidates_In in Hr. destruct Hr as [w [Hw [-> [Hge Hd]]]].
    cbn [VectorStore.similarity VectorStore.vector scored] in *.
    pose proof (similarityTo_le_1 q w). repeat split; try assumption. }
  pose proof (sort_descending VectorStore.similarity cands) as Hdesc.
  pose proof (Permutation_in _ (sort_perm VectorStore.similarity cands) Hcand) as Hsorted.
  fold cmp in Hdesc, Hsorted.
  destruct (sort cmp cands) as [|top sorted] eqn:Es; [destruct Hsorted |].
  destruct (slice0_cons (VectorStore.effectiveTopK filters) top sorted Hk)
    as [rest [Hslice Hincl]].
  exists top, rest. rewrite Hslice.
  split; [reflexivity |].
  split.
  { pose proof (descending_head VectorStore.similarity top sorted Hdesc _ Hsorted) as Hle.
    cbn [VectorStore.similarity scored] in Hle. rewrite Hone in Hle.
    destruct (Hall top (or_introl eq_refl)) as [[_ Hle1] _]. lra. }
  apply Forall_forall. intros r Hr.
  assert (Hin' : In r (top :: sorted)).
  { destruct Hr as [<- | Hr]; [left; reflexivity | right; apply Hincl; exact Hr]. }
  destruct (Hall r Hin') as [[Hge _] Hrest]. split; assumption.
Qed.

(** X9: a text is found under its own words, in exact arithmetic.  When
    the store embeds with the hash fallback and the index holds a passage
    under the hash embedding of [text], a search for [text] that admits
    the passage's document, with a threshold of at most 1 and a positive
    result count, returns a non-empty list whose first hit has
    similarity 1, the similarity of an embedding to itself when nothing
    is rounded.  Every hit is a passage of the index, from a requested
    document, with a similarity not below the threshold. *)
Theorem searchWithQuery_finds_indexed_text :
  forall (st : VectorStore.Store) (text : string) (ids : option (list string))
         (filters : VectorStore.Filters) (v : VectorStore.Vector),
    storeUsesFallback st text ->
    In v (passages st) ->
    VectorStore.embedding v = VectorStore.simpleHashEmbedding text ->
    inDocuments ids v ->
    VectorStore.effectiveMinSimilarity filters <= 1 ->
    (0 < VectorStore.effectiveTopK filters)%Z ->
    exists top rest,
      VectorStore.searchWithQuery st text ids filters = Returned (top :: rest)
      /\ VectorStore.similarity top = 1
      /\ Forall (fun r => VectorStore.effectiveMinSimilarity filters
                          <= VectorStore.similarity r
                          /\ inDocuments ids (VectorStore.vector r)
                          /\ In (VectorStore.vector r) (passages st))
                (top :: rest).
Proof.
  intros st text ids filters v Hfb Hin Hemb Hdoc Hm Hk.
  unfold VectorStore.searchWithQuery.
  rewrite (store_fallback_embedding st text Hfb). cbn [bind].
  assert (Hone : similarityTo (VectorStore.JArray (VectorStore.simpleHashEmbedding text)) v
                 = 1).
  { unfold similarityTo. rewrite Hemb. apply cosine_self.
    rewrite store_embedding_norm. lra. }
  destruct (search_finds_perfect_match st _ ids filters v Hin Hone Hdoc Hm Hk)
    as [top [rest [Hsearch [Htop Hall]]]].
  exists top, rest. rewrite Hsearch. repeat split; assumption.
Qed.

(** The hypotheses of X9 hold of the index with the one passage
    [revenue report], searched without filters. *)
Lemma searchWithQuery_finds_indexed_text_witness :
  exists top rest,
    VectorStore.searchWithQuery Examples.hashedStore "revenue report" None
      Examples.noFilters = Returned (top :: rest)
    /\ VectorStore.similarity top = 1
    /\ Forall (fun r => VectorStore.effectiveMinSimilarity Examples.noFilters
                        <= VectorStore.similarity r
                        /\ inDocuments None (VectorStore.vector r)
                        /\ In (VectorStore.vector r) (passages Examples.hashedStore))
              (top :: rest).
Proof.
  apply (searchWithQuery_finds_indexed_text Examples.hashedStore "revenue report" None
           Examples.noFilters
           (Examples.passage "1" 0 "revenue report"
              (VectorStore.simpleHashEmbedding "revenue report"))).
  - left. reflexivity.
  - left. reflexivity.
  - reflexivity.
  - exact I.
  - unfold VectorStore.effectiveMinSimilarity. cbn. lra.
  - reflexivity.
Defined.

End StoreLaws.

(* ================================================================== *)
(** * The query from request to answer *)
(* ================================================================== *)

Section PipelineLaws.
Import Js Spec.
Open Scope R_scope.

Lemma relevance_unfold (chunks : list VectorStore.SearchResult) (response : string) :
  chunks <> [] ->
  RAGPipeline.calculateRelevanceScore chunks response
  = Rmin (sumOf VectorStore.similarity chunks / INR (List.length chunks) + 0.2) 1.
Proof.
  intros Hne. unfold RAGPipeline.calculateRelevanceScore, RAGPipeline.SearchResult.
  destruct (List.length chunks =? 0)%nat eqn:E.
  { destruct chunks; [contradiction | discriminate]. }
  apply Nat.eqb_neq in E. cbv zeta.
  assert (Hn : 1 <= INR (List.length chunks)).
  { apply (le_INR 1). lia. }
  rewrite (Rmin_right (INR (List.length chunks) / 3) 0.2) by lra.
  reflexivity.
Qed.


(** X10: the relevance score.  Without chunks it is 0; otherwise it is
    the mean similarity of the chunks plus 0.2, capped at 1: the
    diversity bonus [min (n / 3) 0.2] is 0.2 for any number [n] of chunks
    from one on, so that it does not reward diversity.  The score never
    exceeds 1. *)
Theorem relevance_score_is_capped_mean_plus_bonus :
  forall (chunks : list VectorStore.SearchResult) (response : string),
    let n := List.length chunks in
    let score := RAGPipeline.calculateRelevanceScore chunks response in
    (n = 0%nat -> score = 0)
    /\ (n <> 0%nat ->
        Rmin (INR n / 3) 0.2 = 0.2
        /\ score = Rmin (sumOf VectorStore.similarity chunks / INR n + 0.2) 1)
    /\ score <= 1.
Proof.
  intros chunks response. cbv zeta.
  destruct chunks as [|c chunks].
  - cbn. repeat split; try lra; intros; contradiction.
  - set (cs := c :: chunks).
    assert (Hne : cs <> []) by discriminate.
    assert (Hn : 1 <= INR (List.length cs)).
    { unfold cs. cbn [List.length]. rewrite S_INR.
      pose proof (pos_INR (List.length chunks)). lra. }
    rewrite (relevance_unfold cs response Hne).
    split; [discriminate |].
    split; [intros _; split; [apply Rmin_right; lra | reflexivity] |].
    apply Rmin_r.
Qed.

Lemma query_threshold (p : RAGPipeline.Pipeline) (filters : VectorStore.Filters) :
  VectorStore.effectiveMinSimilarity (RAGPipeline.searchFilters p filters)
  = queryThreshold p filters.
Proof.
  unfold VectorStore.effectiveMinSimilarity, RAGPipeline.searchFilters, queryThreshold.
  cbn [VectorStore.minSimilarity].
  destruct (VectorStore.minSimilarity filters) as [m|]; [reflexivity |].
  destruct (RAGPipeline.MIN_SIMILARITY_THRESHOLD (RAGPipeline.env p)) as [m|].
  - destruct (Req_dec_T m 0) as [E | E].
    + destruct (Req_dec_T 0.1 0); [lra | reflexivity].
    + destruct (Req_dec_T m 0); [contradiction | reflexivity].
  - destruct (Req_dec_T 0.1 0); [lra | reflexivity].
Qed.


Lemma search_results_qualify st q ids filters (r : VectorStore.SearchResult) :
  In r (VectorStore.searchWithEmbedding st q ids filters) ->
  In (VectorStore.vector r) (passages st)
  /\ inDocuments ids (VectorStore.vector r)
  /\ VectorStore.similarity r = similarityTo q (VectorStore.vector r)
  /\ VectorStore.effectiveMinSimilarity filters <= VectorStore.similarity r.
Proof.
  rewrite search_unfold. intros Hr. apply slice0_incl in Hr.
  apply (Permutation_in r (Permutation_sym (sort_perm VectorStore.similarity _))) in Hr.
  apply candidates_In in Hr. destruct Hr as [v [Hv [-> [Hge Hd]]]].
  cbn [VectorStore.similarity VectorStore.vector scored] in *.
  repeat split; try assumption.
Qed.


Lemma rerank_perm (q : string) (chunks : list VectorStore.SearchResult) :
  Permutation chunks (RAGPipeline.rerank q chunks).
Proof.
  unfold RAGPipeline.rerank.
  apply (sort_perm (fun c => RAGPipeline.calculateChunkRelevance q (RAGPipeline.viewOf c))).
Qed.




Lemma query_returns (p : RAGPipeline.Pipeline) (q : string)
    (ids : option (list string)) (filters : VectorStore.Filters) :
  exists r, RAGPipeline.query p q ids filters = Returned r.
Proof.
  destruct (generateQueryEmbedding_returns p q) as [emb Hemb].
  destruct (query_branches p q ids filters emb Hemb) as [Hnil Hcons].
  destruct (VectorStore.searchWithEmbedding (RAGPipeline.vectorStore p) emb ids
              (RAGPipeline.searchFilters p filters)) as [|c cs] eqn:E.
  - eexists. apply Hnil. reflexivity.
  - destruct Hcons as [response [_ Hq]]; [discriminate |]. eexists. exact Hq.
Qed.




End PipelineLaws.

(* ================================================================== *)
(** * The query route *)
(* ================================================================== *)

Section ServerLaws.
Import Js Spec.
Open Scope R_scope.

Lemma trimStart_blank (s : string) : blank s = true -> trimStart s = EmptyString.
Proof.
  induction s as [|c s IH]; simpl; [reflexivity |].
  destruct (isWhiteSpace c); simpl; [exact IH | discriminate].
Qed.

Lemma trimStart_not_blank (s : string) :
  blank s = false -> exists c t, trimStart s = String c t /\ blank (String c t) = false.
Proof.
  induction s as [|c s IH]; simpl; [discriminate |].
  destruct (isWhiteSpace c) eqn:E; simpl.
  - exact IH.
  - intros _. exists c, s. split; [reflexivity |]. simpl. rewrite E. reflexivity.
Qed.

Lemma blank_rev_string (s : string) :
  forall acc, blank (rev_string s acc) = blank s && blank acc.
Proof.
  induction s as [|c s IH]; intros acc; simpl; [reflexivity |].
  rewrite IH. simpl. destruct (isWhiteSpace c), (blank s), (blank acc); reflexivity.
Qed.

Lemma rev_string_length (s : string) :
  forall acc, String.length (rev_string s acc) = (String.length s + String.length acc)%nat.
Proof.
  induction s as [|c s IH]; intros acc; simpl; [reflexivity |].
  rewrite IH. simpl. lia.
Qed.

(** [s.trim().length === 0] says that [s] is made of white space only. *)
Lemma trim_empty_iff_blank (s : string) :
  (String.length (trim s) =? 0)%nat = blank s.
Proof.
  unfold trim. destruct (blank s) eqn:Hb.
  - rewrite (trimStart_blank s Hb). reflexivity.
  - destruct (trimStart_not_blank s Hb) as [c [t [-> Hct]]].
    assert (Hr : blank (rev_string (String c t) EmptyString) = false).
    { rewrite blank_rev_string, Hct. reflexivity. }
    destruct (trimStart_not_blank _ Hr) as [c' [t' [-> _]]].
    rewrite rev_string_length. reflexivity.
Qed.

(** X13: the query route, for a request whose body is a JSON object with
    numbers in its [filters], if any.  It answers 400 exactly when
    [query] is missing, falsy or a string of white space only, whatever
    the other fields hold.  It answers 500
    exactly when [query] is a truthy value that is no string (it has no
    [trim]), or [query] is a string that is not blank and [documentIds]
    is neither absent, [null] nor an array (it has no [join], which the
    route's log line calls); so a request with a string [query] and with
    [documentIds] absent, [null] or an array is never answered 500, every
    failure of a provider being absorbed by a fallback of the pipeline.
    In the remaining case it answers 200 with the pipeline's result for
    the query as it was sent (not trimmed), the relevance score doubling
    as the confidence. *)
Theorem postQuery_status :
  forall (p : RAGPipeline.Pipeline) (body : Server.QueryBody),
    let query := Server.body_query body in
    let documentIds := Server.body_documentIds body in
    let filters := Server.filtersArgument (Server.body_filters body) in
    ((exists message, Server.postQuery p body = Server.BadRequest400 message)
     <-> (query = Server.QueryFalsy
          \/ exists q, query = Server.QueryString q /\ blank q = true))
    /\ ((exists message, Server.postQuery p body = Server.ServerError500 message)
        <-> (query = Server.QueryOther
             \/ exists q, query = Server.QueryString q /\ blank q = false
                          /\ documentIds = Server.IdsOther))
    /\ (forall q, query = Server.QueryString q -> blank q = false ->
          forall ids : option (list string),
            match ids with
            | Some l => documentIds = Server.IdsArray l
            | None => documentIds = Server.IdsNullish
            end ->
            exists r,
              RAGPipeline.query p q ids filters = Returned r
              /\ Server.postQuery p body
                 = Server.Ok200
                     {| Server.response_text := RAGPipeline.answer r;
                        Server.response_confidence := RAGPipeline.relevanceScore r;
                        Server.response_intent := RAGPipeline.queryIntent r;
                        Server.answer_sources := RAGPipeline.sources r;
                        Server.answer_relevanceScore := RAGPipeline.relevanceScore r;
                        Server.answer_metrics := RAGPipeline.metrics r;
                        Server.answer_queryIntent := RAGPipeline.queryIntent r |}).
Proof.
  intros p body query documentIds filters.
  unfold Server.postQuery. fold query documentIds filters.
  destruct query as [| q |]; cbn [Server.queryIsMissing bind Server.queryText].
  - split; [| split].
    + split; [intros _; left; reflexivity | intros _; eexists; reflexivity].
    + split; [intros [m Hm]; discriminate Hm |].
      intros [Hq | [q [Hq _]]]; discriminate.
    + intros q Hq. discriminate Hq.
  - rewrite trim_empty_iff_blank.
    destruct (blank q) eqn:Hb.
    + split; [| split].
      * split; [intros _; right; exists q; split; [reflexivity | exact Hb] |].
        intros _. eexists. reflexivity.
      * split; [intros [m Hm]; discriminate Hm |].
        intros [Hq | [q' [Hq [Hb' _]]]]; [discriminate Hq |].
        injection Hq as <-. congruence.
      * intros q' Hq Hb'. injection Hq as <-. congruence.
    + destruct documentIds as [| l |];
        cbn [Server.documentsLabel bind Server.idsArgument].
      * destruct (query_returns p q None filters) as [r Hr]. rewrite Hr.
        cbn [bind]. split; [| split].
        -- split; [intros [m Hm]; discriminate Hm |].
           intros [Hq | [q' [Hq Hb']]]; [discriminate Hq |].
           injection Hq as <-. congruence.
        -- split; [intros [m Hm]; discriminate Hm |].
           intros [Hq | [q' [_ [_ Hids]]]]; [discriminate Hq | discriminate Hids].
        -- intros q' Hq _ [l |] Hids; [discriminate Hids |].
           injection Hq as <-. exists r. split; [exact Hr | reflexivity].
      * destruct (query_returns p q (Some l) filters) as [r Hr]. rewrite Hr.
        cbn [bind]. split; [| split].
        -- split; [intros [m Hm]; discriminate Hm |].
           intros [Hq | [q' [Hq Hb']]]; [discriminate Hq |].
           injection Hq as <-. congruence.
        -- split; [intros [m Hm]; discriminate Hm |].
           intros [Hq | [q' [_ [_ Hids]]]]; [discriminate Hq | discriminate Hids].
        -- intros q' Hq _ [l' |] Hids; [| discriminate Hids].
           injection Hq as <-. injection Hids as <-.
           exists r. split; [exact Hr | reflexivity].
      * split; [| split].
        -- split; [intros [m Hm]; discriminate Hm |].
           intros [Hq | [q' [Hq Hb']]]; [discriminate Hq |].
           injection Hq as <-. congruence.
        -- split; [intros _ | intros _; eexists; reflexivity].
           right. exists q. repeat split. exact Hb.
        -- intros q' _ _ [l |] Hids; discriminate Hids.
  - split; [| split].
    + split; [intros [m Hm]; discriminate Hm |].
      intros [Hq | [q [Hq _]]]; discriminate.
    + split; [intros _; left; reflexivity | intros _; eexists; reflexivity].
    + intros q Hq. discriminate Hq.
Qed.

End ServerLaws.

(* ================================================================== *)
(** * Answer generation *)
(* ================================================================== *)

Section GenerationLaws.
Import Js Spec.
Open Scope R_scope.

Lemma string_app_assoc (a b c : string) : ((a ++ b) ++ c)%string = (a ++ b ++ c)%string.
Proof. induction a as [|x a IH]; simpl; [reflexivity | rewrite IH; reflexivity]. Qed.

Lemma string_app_length (a b : string) :
  String.length (a ++ b) = (String.length a + String.length b)%nat.
Proof. induction a as [|x a IH]; simpl; [reflexivity | rewrite IH; reflexivity]. Qed.

Lemma substring0_length (n : nat) (s : string) : (String.length (substring0 n s) <= n)%nat.
Proof.
  unfold substring0. revert s. induction n as [|n IH]; intros [|c s]; simpl; try lia.
  specialize (IH s). lia.
Qed.

Lemma excerpt_length (n : nat) (s : string) :
  (String.length (RAGPipeline.excerpt n s) <= n + 3)%nat.
Proof.
  unfold RAGPipeline.excerpt. rewrite string_app_length.
  pose proof (substring0_length n s).
  destruct (Nat.ltb n (String.length s)); simpl; lia.
Qed.

Lemma overlapScore_nonneg (query chunk : string) : 0 <= overlapScore query chunk.
Proof.
  unfold overlapScore.
  pose proof (wordSet_nonempty query) as Hq.
  assert (0 < INR (List.length (RAGPipeline.wordSet query))).
  { apply (lt_INR 0). lia. }
  apply Rmult_le_reg_r with (INR (List.length (RAGPipeline.wordSet query))); [assumption |].
  unfold Rdiv. rewrite Rmult_assoc, Rinv_l by lra.
  pose proof (pos_INR (List.length
    (intersection (RAGPipeline.wordSet query) (RAGPipeline.wordSet chunk)))). lra.
Qed.

(** The loop of [generateSimpleResponse] returns the first chunk whose
    overlap with the query is greatest.  [done] holds the chunks already
    visited, [all] every chunk of the context. *)
Lemma bestChunkLoop_first_maximum (query : string) (all : list string) :
  forall (rest done : list string) (bestChunk : string) (bestScore : R),
    all = done ++ rest ->
    0 <= bestScore ->
    (forall c, In c done -> overlapScore query c <= bestScore) ->
    (bestScore = 0 /\ hd_error all = Some bestChunk
     \/ exists pre post,
          done = pre ++ bestChunk :: post
          /\ overlapScore query bestChunk = bestScore
          /\ forall c, In c pre -> overlapScore query c < bestScore) ->
    let best := RAGPipeline.bestChunkLoop (RAGPipeline.wordSet query) rest
                  bestChunk bestScore in
    exists pre post,
      all = pre ++ best :: post
      /\ (forall c, In c pre -> overlapScore query c < overlapScore query best)
      /\ (forall c, In c post -> overlapScore query c <= overlapScore query best).
Proof.
  induction rest as [|c rest IH]; intros done b s Hall Hs Hdone Hinv; cbv zeta.
  - cbn [RAGPipeline.bestChunkLoop]. rewrite app_nil_r in Hall. subst done.
    destruct Hinv as [[H0 Hhd] | [pre [post [Hsplit [Hscore Hpre]]]]].
    + destruct all as [|x xs]; [discriminate |]. injection Hhd as ->.
      exists [], xs. split; [reflexivity |]. split; [intros c [] |].
      intros c Hc. pose proof (Hdone c (or_intror Hc)).
      pose proof (overlapScore_nonneg query b). lra.
    + exists pre, post. split; [exact Hsplit |].
      split; [intros c Hc; rewrite Hscore; apply Hpre; exact Hc |].
      intros c Hc. rewrite Hscore. apply Hdone. rewrite Hsplit.
      apply in_or_app. right. right. exact Hc.
  - cbn [RAGPipeline.bestChunkLoop].
    fold (overlapScore query c).
    assert (Hall' : all = (done ++ [c]) ++ rest).
    { rewrite <- app_assoc. exact Hall. }
    destruct (Rlt_dec s (overlapScore query c)) as [Hlt | Hge].
    + apply (IH (done ++ [c]) c (overlapScore query c) Hall').
      * lra.
      * intros x Hx. apply in_app_or in Hx. destruct Hx as [Hx | [<- | []]]; [| lra].
        pose proof (Hdone x Hx). lra.
      * right. exists done, []. split; [reflexivity |]. split; [reflexivity |].
        intros x Hx. pose proof (Hdone x Hx). lra.
    + apply (IH (done ++ [c]) b s Hall' Hs).
      * intros x Hx. apply in_app_or in Hx. destruct Hx as [Hx | [<- | []]]; [| lra].
        apply Hdone. exact Hx.
      * destruct Hinv as [Hzero | [pre [post [Hsplit [Hscore Hpre]]]]]; [left; exact Hzero |].
        right. exists pre, (post ++ [c]). split; [| split; assumption].
        rewrite Hsplit, <- app_assoc. reflexivity.
Qed.

Lemma simple_response_unfold (query context : string) (intent : RAGPipeline.Intent) :
  RAGPipeline.generateSimpleResponse query context intent
  = match contextChunks context with
    | [] =>
        ("I don't have enough information to answer your question: " ++ RAGPipeline.dquote
         ++ query ++ RAGPipeline.dquote
         ++ ". Please try uploading relevant documents first.")%string
    | first :: _ =>
        let bestChunk :=
          RAGPipeline.bestChunkLoop (RAGPipeline.wordSet query) (contextChunks context)
            first 0 in
        match intent with
        | RAGPipeline.factual =>
            ("Based on the document content: " ++ RAGPipeline.excerpt 300 bestChunk)%string
        | RAGPipeline.comparison =>
            ("To compare the requested information, here are the relevant details from the documents: "
             ++ RAGPipeline.excerpt 300 bestChunk)%string
        | RAGPipeline.procedural =>
            ("Here are the steps or process details: "
             ++ RAGPipeline.excerpt 300 bestChunk)%string
        | RAGPipeline.numerical =>
            match RAGPipeline.scanNumbers RAGPipeline.Idle bestChunk with
            | [] => ("Here's the relevant information: "
                     ++ RAGPipeline.excerpt 300 bestChunk)%string
            | numbers =>
                ("The numerical data from the documents includes: "
                 ++ join ", " (slice0 5 numbers) ++ ". Full context: "
                 ++ RAGPipeline.excerpt 200 bestChunk)%string
            end
        | _ =>
            ("Here's what I found in the documents regarding your question: "
             ++ RAGPipeline.excerpt 300 bestChunk)%string
        end
    end.
Proof.
  unfold RAGPipeline.generateSimpleResponse, contextChunks.
  destruct (filter _ _); reflexivity.
Qed.

(** X14: the answer built without a language model.  When the context
    has no chunk with anything but white space, the answer says that the
    information is missing and quotes the query.  Otherwise it ends in an
    excerpt of one chunk of the context, the first of those whose share
    of the query's words is greatest; the excerpt is cut after 300 code
    units (200 for a numerical answer listing numbers) and marked with an
    ellipsis.  The answer is never empty. *)
Theorem simple_response_quotes_best_chunk :
  forall (query context : string) (intent : RAGPipeline.Intent),
    let chunks := contextChunks context in
    let answer := RAGPipeline.generateSimpleResponse query context intent in
    (chunks = [] ->
     answer = ("I don't have enough information to answer your question: "
               ++ RAGPipeline.dquote ++ query ++ RAGPipeline.dquote
               ++ ". Please try uploading relevant documents first.")%string)
    /\ (chunks <> [] ->
        exists best pre post lead n,
          chunks = pre ++ best :: post
          /\ (forall c, In c pre -> overlapScore query c < overlapScore query best)
          /\ (forall c, In c post -> overlapScore query c <= overlapScore query best)
          /\ answer = (lead ++ RAGPipeline.excerpt n best)%string
          /\ (n = 300 \/ n = 200)%nat
          /\ (String.length (RAGPipeline.excerpt n best) <= n + 3)%nat)
    /\ (0 < String.length answer)%nat.
Proof.
  intros query context intent chunks answer.
  unfold answer. rewrite simple_response_unfold. fold chunks.
  destruct chunks as [|first rest] eqn:Ec.
  - split; [reflexivity |]. split; [intros H; contradiction |].
    cbn [String.append String.length]. lia.
  - set (best := RAGPipeline.bestChunkLoop (RAGPipeline.wordSet query) (first :: rest)
                   first 0).
    destruct (bestChunkLoop_first_maximum query (first :: rest) (first :: rest) []
                first 0 eq_refl (Rle_refl 0))
      as [pre [post [Hsplit [Hpre Hpost]]]].
    { intros c []. }
    { left. split; reflexivity. }
    fold best in Hsplit, Hpre, Hpost. cbv zeta.
    split; [discriminate |].
    assert (Hshape : forall lead n,
              (n = 300 \/ n = 200)%nat ->
              exists best0 pre0 post0 lead0 n0,
                first :: rest = pre0 ++ best0 :: post0
                /\ (forall c, In c pre0 -> overlapScore query c < overlapScore query best0)
                /\ (forall c, In c post0 -> overlapScore query c <= overlapScore query best0)
                /\ (lead ++ RAGPipeline.excerpt n best)%string
                   = (lead0 ++ RAGPipeline.excerpt n0 best0)%string
                /\ (n0 = 300 \/ n0 = 200)%nat
                /\ (String.length (RAGPipeline.excerpt n0 best0) <= n0 + 3)%nat).
    { intros lead n Hn. exists best, pre, post, lead, n.
      repeat split; try assumption. apply excerpt_length. }
    split.
    + intros _.
      destruct intent; try (apply Hshape; left; reflexivity).
      destruct (RAGPipeline.scanNumbers RAGPipeline.Idle best) as [|x xs];
        [apply Hshape; left; reflexivity |].
      rewrite <- string_app_assoc, <- (string_app_assoc _ ". Full context: ").
      apply Hshape. right. reflexivity.
    + destruct intent;
        try (cbn [String.append String.length]; lia).
      destruct (RAGPipeline.scanNumbers RAGPipeline.Idle best);
        cbn [String.append String.length]; lia.
Qed.

Lemma simple_response_nonempty (query context : string) (intent : RAGPipeline.Intent) :
  (0 < String.length (RAGPipeline.generateSimpleResponse query context intent))%nat.
Proof.
  rewrite simple_response_unfold.
  destruct (contextChunks context) as [|first rest].
  - cbn [String.append String.length]. lia.
  - cbv zeta. destruct intent; try (cbn [String.append String.length]; lia).
    destruct (RAGPipeline.scanNumbers RAGPipeline.Idle _);
      cbn [String.append String.length]; lia.
Qed.

(** X15: the order of the fallbacks of [generate].  Without a client the
    answer is the locally built one.  With a client, a call resolves to a
    response or throws an error.  The first model's response gives the
    answer when its call resolves; the second model is asked only when
    the first call throws.  Of the response that is used, the answer is
    the [generated_text], or a fixed sentence when that text is empty or
    undefined; when that response is [null] or [undefined] the answer is
    the local one, and the second model is not asked after such a first
    response.  The local answer is also the one given when both calls
    throw.  In every case [generate] returns, and the answer is not
    empty. *)
Theorem generate_falls_back_in_order :
  forall (p : RAGPipeline.Pipeline) (query context : string) (intent : RAGPipeline.Intent),
    let prompt := RAGPipeline.buildPrompt query context intent in
    let localAnswer := RAGPipeline.generateSimpleResponse query context intent in
    let answer := RAGPipeline.generate p query context intent in
    let first := fun client =>
      VectorStore.textGeneration client "microsoft/DialoGPT-small" prompt in
    let second := fun client => VectorStore.textGeneration client "gpt2" prompt in
    let fixed := "Generated response based on the provided context."%string in
    (RAGPipeline.hf p = None -> answer = Returned localAnswer)
    /\ (forall client, RAGPipeline.hf p = Some client ->
          (forall text,
             first client = Returned (VectorStore.Output text) ->
             answer = Returned (RAGPipeline.generatedTextOr text))
          /\ (first client = Returned VectorStore.Nullish ->
              answer = Returned localAnswer)
          /\ (forall e text,
                first client = Thrown e ->
                second client = Returned (VectorStore.Output text) ->
                answer = Returned (RAGPipeline.generatedTextOr text))
          /\ (forall e,
                first client = Thrown e ->
                second client = Returned VectorStore.Nullish ->
                answer = Returned localAnswer)
          /\ (forall e1 e2,
                first client = Thrown e1 ->
                second client = Thrown e2 ->
                answer = Returned localAnswer))
    /\ (RAGPipeline.generatedTextOr None = fixed
        /\ RAGPipeline.generatedTextOr (Some EmptyString) = fixed
        /\ forall t, (0 < String.length t)%nat ->
             RAGPipeline.generatedTextOr (Some t) = t)
    /\ exists text,
         answer = Returned text /\ (0 < String.length text)%nat.
Proof.
  intros p query context intent prompt localAnswer answer first second fixed.
  assert (Htext : forall g, (0 < String.length (RAGPipeline.generatedTextOr g))%nat).
  { intros [t|]; unfold RAGPipeline.generatedTextOr; [| cbn; lia].
    destruct (String.length t =? 0)%nat eqn:E; [cbn; lia |].
    apply Nat.eqb_neq in E. lia. }
  assert (Hor : RAGPipeline.generatedTextOr None = fixed
                /\ RAGPipeline.generatedTextOr (Some EmptyString) = fixed
                /\ forall t, (0 < String.length t)%nat ->
                     RAGPipeline.generatedTextOr (Some t) = t).
  { split; [reflexivity |]. split; [reflexivity |].
    intros t Ht. unfold RAGPipeline.generatedTextOr.
    destruct (String.length t =? 0)%nat eqn:E; [| reflexivity].
    apply Nat.eqb_eq in E. lia. }
  pose proof (simple_response_nonempty query context intent) as Hlocal.
  fold localAnswer in Hlocal.
  subst answer first second. cbv beta. unfold RAGPipeline.generate.
  destruct (RAGPipeline.hf p) as [client|].
  - unfold RAGPipeline.generateWithHuggingFace. fold prompt. fold localAnswer.
    split; [discriminate |].
    split; [| split; [exact Hor |]].
    + intros c Hc. injection Hc as <-.
      destruct (VectorStore.textGeneration client "microsoft/DialoGPT-small" prompt)
        as [[| g1] | e1];
        [| | destruct (VectorStore.textGeneration client "gpt2" prompt)
               as [[| g2] | e2]];
        cbn [tryCatch bind]; repeat split; intros; congruence.
    + destruct (VectorStore.textGeneration client "microsoft/DialoGPT-small" prompt)
        as [[| g1] | e1];
        [| | destruct (VectorStore.textGeneration client "gpt2" prompt)
               as [[| g2] | e2]];
        cbn [tryCatch bind]; eexists;
        (split; [reflexivity | first [exact Hlocal | apply Htext]]).
  - split; [reflexivity |]. split; [intros c Hc; discriminate |].
    split; [exact Hor |].
    eexists. split; [reflexivity | exact Hlocal].
Qed.

Lemma numeralRun_app (a b : string) :
  forall state,
    numeralRun state (a ++ b)
    = match numeralRun state a with
      | Some state' => numeralRun state' b
      | None => None
      end.
Proof.
  induction a as [|c a IH]; intros state; [reflexivity |].
  change (String c a ++ b)%string with (String c (a ++ b)).
  cbn [numeralRun].
  destruct state as [|[|[|state]]]; destruct (isDigit c); try apply IH; try reflexivity.
  destruct (Ascii.eqb c "."%char); [apply IH | reflexivity].
Qed.

Lemma digitsOf_app (a b : string) : digitsOf (a ++ b) = (digitsOf a ++ digitsOf b)%string.
Proof.
  induction a as [|c a IH]; [reflexivity |].
  change (String c a ++ b)%string with (String c (a ++ b)). cbn [digitsOf].
  destruct (isDigit c); rewrite IH; reflexivity.
Qed.

Lemma scanNumbers_numerals (s : string) :
  forall st, stateOk st ->
    Forall (fun n => isNumeral n = true) (RAGPipeline.scanNumbers st s).
Proof.
  assert (Hint : forall a, numeralRun 0 a = Some 1%nat -> isNumeral a = true).
  { intros a H. unfold isNumeral. rewrite H. reflexivity. }
  assert (Hfrac : forall a, numeralRun 0 a = Some 3%nat -> isNumeral a = true).
  { intros a H. unfold isNumeral. rewrite H. reflexivity. }
  induction s as [|c s IH]; intros st Hst.
  - destruct st; cbn [RAGPipeline.scanNumbers]; repeat constructor; cbn in Hst; auto.
  - destruct st as [| a | a | a]; cbn [RAGPipeline.scanNumbers]; cbn [stateOk] in Hst.
    + destruct (isDigit c) eqn:Ed; apply IH; cbn [stateOk]; [| exact I].
      cbn [numeralRun]. rewrite Ed. reflexivity.
    + destruct (isDigit c) eqn:Ed.
      * apply IH. cbn [stateOk]. rewrite numeralRun_app, Hst. cbn [numeralRun].
        rewrite Ed. reflexivity.
      * destruct (Ascii.eqb c "."%char); [apply IH; exact Hst |].
        constructor; [apply Hint; exact Hst | apply IH; exact I].
    + destruct (isDigit c) eqn:Ed.
      * apply IH. cbn [stateOk]. rewrite numeralRun_app, Hst.
        change (numeralRun 1 ("." ++ String c EmptyString))
          with (if isDigit c then Some 3%nat else None).
        rewrite Ed. reflexivity.
      * constructor; [apply Hint; exact Hst | apply IH; exact I].
    + destruct (isDigit c) eqn:Ed.
      * apply IH. cbn [stateOk]. rewrite numeralRun_app, Hst. cbn [numeralRun].
        rewrite Ed. reflexivity.
      * constructor; [apply Hfrac; exact Hst | apply IH; exact I].
Qed.

Lemma scanNumbers_digits (s : string) :
  forall st,
    digitsOf (flatten (RAGPipeline.scanNumbers st s))
    = (digitsOf (accOf st) ++ digitsOf s)%string.
Proof.
  assert (Hnil : forall a : string, (a ++ EmptyString)%string = a).
  { induction a as [|x a IHa]; simpl; [reflexivity | rewrite IHa; reflexivity]. }
  induction s as [|c s IH]; intros st.
  - destruct st; cbn [RAGPipeline.scanNumbers flatten fold_right accOf digitsOf];
      rewrite ?Hnil; reflexivity.
  - destruct st as [| a | a | a]; cbn [RAGPipeline.scanNumbers accOf].
    + cbn [digitsOf]. destruct (isDigit c) eqn:Ed; rewrite IH; cbn [accOf digitsOf].
      * rewrite Ed. reflexivity.
      * reflexivity.
    + cbn [digitsOf]. destruct (isDigit c) eqn:Ed.
      * rewrite IH. cbn [accOf]. rewrite digitsOf_app. cbn [digitsOf]. rewrite Ed.
        rewrite string_app_assoc. reflexivity.
      * destruct (Ascii.eqb c "."%char); [rewrite IH; reflexivity |].
        cbn [flatten fold_right]. fold (flatten (RAGPipeline.scanNumbers RAGPipeline.Idle s)).
        rewrite digitsOf_app, IH. reflexivity.
    + cbn [digitsOf]. destruct (isDigit c) eqn:Ed.
      * rewrite IH. cbn [accOf]. rewrite !digitsOf_app. cbn [digitsOf]. rewrite Ed.
        rewrite string_app_assoc. reflexivity.
      * cbn [flatten fold_right]. fold (flatten (RAGPipeline.scanNumbers RAGPipeline.Idle s)).
        rewrite digitsOf_app, IH. reflexivity.
    + cbn [digitsOf]. destruct (isDigit c) eqn:Ed.
      * rewrite IH. cbn [accOf]. rewrite digitsOf_app. cbn [digitsOf]. rewrite Ed.
        rewrite string_app_assoc. reflexivity.
      * cbn [flatten fold_right]. fold (flatten (RAGPipeline.scanNumbers RAGPipeline.Idle s)).
        rewrite digitsOf_app, IH. reflexivity.
Qed.

Lemma numeral_has_digit (n : string) :
  isNumeral n = true -> exists c rest, digitsOf n = String c rest.
Proof.
  unfold isNumeral. destruct n as [|c n]; cbn [numeralRun digitsOf]; [discriminate |].
  destruct (isDigit c); [eauto | discriminate].
Qed.

(** X20: the numbers a numerical answer lists.  Every match of the scan
    is a decimal numeral, digits with at most one dot between digits;
    the matches hold every digit of the chunk, in order, and nothing but
    digits and dots; there is no match exactly when the chunk has no
    digit. *)
Theorem scanNumbers_finds_every_digit :
  forall s : string,
    let numbers := RAGPipeline.scanNumbers RAGPipeline.Idle s in
    Forall (fun n => isNumeral n = true) numbers
    /\ digitsOf (flatten numbers) = digitsOf s
    /\ (numbers = [] <-> digitsOf s = EmptyString).
Proof.
  intros s numbers.
  pose proof (scanNumbers_numerals s RAGPipeline.Idle I) as Hnum.
  pose proof (scanNumbers_digits s RAGPipeline.Idle) as Hdig.
  cbn [accOf digitsOf String.append] in Hdig. fold numbers in Hnum, Hdig.
  split; [exact Hnum |]. split; [exact Hdig |].
  split.
  - intros E. rewrite E in Hdig. cbn in Hdig. symmetry. exact Hdig.
  - intros E. destruct numbers as [|n rest]; [reflexivity |].
    inversion Hnum as [|? ? Hn _]; subst.
    destruct (numeral_has_digit n Hn) as [c [tl Hc]].
    rewrite E in Hdig. cbn [flatten fold_right] in Hdig.
    rewrite digitsOf_app, Hc in Hdig. discriminate.
Qed.

Lemma simple_response_lead (query context : string) (intent : RAGPipeline.Intent)
    (first : string) (rest : list string) :
  contextChunks context = first :: rest ->
  exists lead n,
    RAGPipeline.generateSimpleResponse query context intent
    = (lead ++ RAGPipeline.excerpt n
                 (RAGPipeline.bestChunkLoop (RAGPipeline.wordSet query) (first :: rest)
                    first 0))%string
    /\ (n = 300 \/ n = 200)%nat.
Proof.
  intros Hc. rewrite simple_response_unfold, Hc. cbv zeta.
  destruct intent; try (eexists; exists 300%nat; split; [reflexivity | left; reflexivity]).
  destruct (RAGPipeline.scanNumbers RAGPipeline.Idle _) as [|x xs].
  - eexists. exists 300%nat. split; [reflexivity | left; reflexivity].
  - eexists. exists 200%nat. split; [| right; reflexivity].
    rewrite <- string_app_assoc, <- (string_app_assoc _ ". Full context: ").
    reflexivity.
Qed.

Lemma prefix_separator_cons (c : ascii) (s : string) :
  Ascii.eqb c (ascii_of_nat 10) = false ->
  String.prefix (RAGPipeline.nl ++ RAGPipeline.nl) (String c s) = false.
Proof.
  intros Hc. unfold RAGPipeline.nl. cbn [String.append String.prefix].
  match goal with
  | |- context [ascii_dec ?a ?b] => destruct (ascii_dec a b) as [E | _]
  end; [| reflexivity].
  subst c. rewrite Ascii.eqb_refl in Hc. discriminate.
Qed.

Lemma prefix_separator_here (r : string) :
  String.prefix (RAGPipeline.nl ++ RAGPipeline.nl)
    ((RAGPipeline.nl ++ RAGPipeline.nl) ++ r) = true.
Proof.
  unfold RAGPipeline.nl. cbn [String.append String.prefix].
  repeat match goal with
         | |- context [ascii_dec ?a ?b] =>
             destruct (ascii_dec a b) as [_ | N]; [| exfalso; apply N; reflexivity]
         end.
  destruct r; reflexivity.
Qed.

Lemma splitOn_no_separator (x : string) :
  noNewline x = true ->
  splitOn (RAGPipeline.nl ++ RAGPipeline.nl) 0 x = [x].
Proof.
  induction x as [|c x IH]; intros Hx; [reflexivity |].
  cbn [noNewline] in Hx. apply andb_true_iff in Hx. destruct Hx as [Hc Hx].
  apply negb_true_iff in Hc.
  cbn [splitOn]. rewrite (prefix_separator_cons c x Hc), (IH Hx). reflexivity.
Qed.

Lemma splitOn_at_separator (x r : string) :
  noNewline x = true ->
  splitOn (RAGPipeline.nl ++ RAGPipeline.nl) 0 (x ++ (RAGPipeline.nl ++ RAGPipeline.nl) ++ r)
  = x :: splitOn (RAGPipeline.nl ++ RAGPipeline.nl) 0 r.
Proof.
  induction x as [|c x IH]; intros Hx.
  - change (EmptyString ++ (RAGPipeline.nl ++ RAGPipeline.nl) ++ r)%string
      with ((RAGPipeline.nl ++ RAGPipeline.nl) ++ r)%string.
    pose proof (prefix_separator_here r) as Hp.
    change ((RAGPipeline.nl ++ RAGPipeline.nl) ++ r)%string
      with (String (ascii_of_nat 10) (String (ascii_of_nat 10) r)) in *.
    cbn [splitOn]. rewrite Hp. reflexivity.
  - cbn [noNewline] in Hx. apply andb_true_iff in Hx. destruct Hx as [Hc Hx].
    apply negb_true_iff in Hc.
    change (String c x ++ (RAGPipeline.nl ++ RAGPipeline.nl) ++ r)%string
      with (String c (x ++ (RAGPipeline.nl ++ RAGPipeline.nl) ++ r)).
    cbn [splitOn]. rewrite (prefix_separator_cons c _ Hc), (IH Hx). reflexivity.
Qed.

(** Splitting at blank lines undoes joining by blank lines, for texts
    without line feeds. *)
Lemma split_join (l : list string) :
  l <> [] -> forallb noNewline l = true ->
  split (RAGPipeline.nl ++ RAGPipeline.nl) (join (RAGPipeline.nl ++ RAGPipeline.nl) l) = l.
Proof.
  unfold split, join.
  induction l as [|x l IH]; intros Hne Hl; [contradiction |].
  cbn [forallb] in Hl. apply andb_true_iff in Hl. destruct Hl as [Hx Hl].
  destruct l as [|y l].
  - cbn [String.concat]. apply splitOn_no_separator. exact Hx.
  - change (String.concat (RAGPipeline.nl ++ RAGPipeline.nl) (x :: y :: l))
      with (x ++ (RAGPipeline.nl ++ RAGPipeline.nl)
              ++ String.concat (RAGPipeline.nl ++ RAGPipeline.nl) (y :: l))%string.
    rewrite (splitOn_at_separator _ _ Hx), IH; [reflexivity | discriminate | exact Hl].
Qed.

Lemma contextChunks_join (l : list string) :
  forallb noNewline l = true ->
  contextChunks (join (RAGPipeline.nl ++ RAGPipeline.nl) l)
  = filter (fun c => negb (blank c)) l.
Proof.
  intros Hl. unfold contextChunks.
  assert (Hf : forall m : list string,
            filter (fun chunk => (0 <? String.length (trim chunk))%nat) m
            = filter (fun c => negb (blank c)) m).
  { intros m. apply filter_ext. intros c.
    rewrite <- trim_empty_iff_blank.
    destruct (String.length (trim c)); reflexivity. }
  rewrite Hf. destruct l as [|x l]; [reflexivity |].
  rewrite split_join; [reflexivity | discriminate | exact Hl].
Qed.

(** X21: without a language model the answer quotes a source.  For a
    pipeline without client, when no source's content has a line feed,
    the chunks the answer is built from are exactly the contents of the
    sources that are not blank; if there is one, the answer ends in an
    excerpt of a source whose share of the query's words is greatest
    among them; if all sources are blank, the answer says that the
    information is missing although sources are returned. *)
Theorem local_answer_quotes_a_source :
  forall (p : RAGPipeline.Pipeline) (q : string) (ids : option (list string))
         (filters : VectorStore.Filters),
    RAGPipeline.hf p = None ->
    exists r,
      RAGPipeline.query p q ids filters = Returned r
      /\ let contents := map RAGPipeline.src_content (RAGPipeline.sources r) in
         let readable := filter (fun c => negb (blank c)) contents in
         forallb noNewline contents = true ->
         contextChunks (RAGPipeline.context r) = readable
         /\ (readable <> [] ->
             exists best lead n,
               In best contents
               /\ blank best = false
               /\ (forall c, In c contents -> blank c = false ->
                     overlapScore q c <= overlapScore q best)
               /\ RAGPipeline.answer r = (lead ++ RAGPipeline.excerpt n best)%string
               /\ (n = 300 \/ n = 200)%nat)
         /\ (RAGPipeline.sources r <> [] -> readable = [] ->
             RAGPipeline.answer r
             = ("I don't have enough information to answer your question: "
                ++ RAGPipeline.dquote ++ q ++ RAGPipeline.dquote
                ++ ". Please try uploading relevant documents first.")%string).
Proof.
  intros p q ids filters Hhf.
  destruct (generateQueryEmbedding_returns p q) as [emb Hemb].
  destruct (query_branches p q ids filters emb Hemb) as [Hnil Hcons].
  destruct (VectorStore.searchWithEmbedding (RAGPipeline.vectorStore p) emb ids
              (RAGPipeline.searchFilters p filters)) as [|c0 cs0] eqn:Erel.
  - eexists. split; [apply Hnil; reflexivity |].
    cbn [RAGPipeline.sources RAGPipeline.context RAGPipeline.answer map filter].
    intros _. split; [reflexivity |]. split; intros H; contradiction.
  - destruct Hcons as [response [Hgen Hq]]; [discriminate |].
    set (selected := slice0 (RAGPipeline.topK p)
                       (RAGPipeline.rerank q (c0 :: cs0))) in *.
    unfold RAGPipeline.generate in Hgen. rewrite Hhf in Hgen.
    injection Hgen as Hresp.
    eexists. split; [exact Hq |].
    cbn [RAGPipeline.sources RAGPipeline.context RAGPipeline.answer].
    rewrite map_map.
    change (map (fun x => RAGPipeline.src_content (RAGPipeline.toSource x)) selected)
      with (map RAGPipeline.contentOf selected).
    set (contents := map RAGPipeline.contentOf selected).
    intros Hnl.
    assert (Hchunks : contextChunks (RAGPipeline.buildContext selected)
                      = filter (fun c => negb (blank c)) contents).
    { unfold RAGPipeline.buildContext. apply contextChunks_join. exact Hnl. }
    split; [exact Hchunks |].
    split.
    + intros Hne.
      destruct (filter (fun c => negb (blank c)) contents) as [|first rest] eqn:Ef;
        [contradiction |].
      destruct (simple_response_lead q (RAGPipeline.buildContext selected)
                  (RAGPipeline.classifyIntent q) first rest Hchunks)
        as [lead [n [Hans Hn]]].
      destruct (bestChunkLoop_first_maximum q (first :: rest) (first :: rest) []
                  first 0 eq_refl (Rle_refl 0))
        as [pre [post [Hsplit [Hpre Hpost]]]].
      { intros c []. }
      { left. split; reflexivity. }
      set (best := RAGPipeline.bestChunkLoop (RAGPipeline.wordSet q) (first :: rest)
                     first 0) in *.
      assert (Hbest : In best (first :: rest)).
      { rewrite Hsplit. apply in_or_app. right. left. reflexivity. }
      assert (Hmem : forall c, In c (first :: rest) <-> In c contents /\ blank c = false).
      { intros c. rewrite <- Ef, filter_In. split; intros [H1 H2]; (split; [exact H1 |]).
        - destruct (blank c); [discriminate | reflexivity].
        - rewrite H2. reflexivity. }
      exists best, lead, n.
      split; [apply Hmem; exact Hbest |].
      split; [apply Hmem; exact Hbest |].
      split.
      { intros c Hc Hb.
        assert (Hin : In c (first :: rest)) by (apply Hmem; split; assumption).
        rewrite Hsplit in Hin. apply in_app_or in Hin.
        destruct Hin as [Hin | [<- | Hin]].
        - pose proof (Hpre c Hin). lra.
        - lra.
        - apply Hpost. exact Hin. }
      split; [rewrite <- Hresp; exact Hans | exact Hn].
    + intros _ Hempty. rewrite <- Hresp, simple_response_unfold, Hchunks, Hempty.
      reflexivity.
Qed.

(** The hypothesis of X21 holds of a pipeline without providers. *)
Lemma local_answer_quotes_a_source_witness :
  exists r,
    RAGPipeline.query Examples.hashedPipeline "revenue report" None Examples.noFilters
    = Returned r
    /\ let contents := map RAGPipeline.src_content (RAGPipeline.sources r) in
       let readable := filter (fun c => negb (blank c)) contents in
       forallb noNewline contents = true ->
       contextChunks (RAGPipeline.context r) = readable
       /\ (readable <> [] ->
           exists best lead n,
             In best contents
             /\ blank best = false
             /\ (forall c, In c contents -> blank c = false ->
                   overlapScore "revenue report" c <= overlapScore "revenue report" best)
             /\ RAGPipeline.answer r = (lead ++ RAGPipeline.excerpt n best)%string
             /\ (n = 300 \/ n = 200)%nat)
       /\ (RAGPipeline.sources r <> [] -> readable = [] ->
           RAGPipeline.answer r
           = ("I don't have enough information to answer your question: "
              ++ RAGPipeline.dquote ++ "revenue report" ++ RAGPipeline.dquote
              ++ ". Please try uploading relevant documents first.")%string).
Proof.
  apply (local_answer_quotes_a_source Examples.hashedPipeline "revenue report" None
           Examples.noFilters).
  reflexivity.
Defined.

End GenerationLaws.

(* ================================================================== *)
(** * Query understanding *)
(* ================================================================== *)

Section IntentLaws.
Import Js Spec.

Lemma canonicalize_lowerChar (c : ascii) : canonicalize (lowerChar c) = canonicalize c.
Proof.
  destruct c as [[] [] [] [] [] [] [] []]; vm_compute; reflexivity.
Qed.

Lemma foldCase_toLowerCase (s : string) : foldCase (toLowerCase s) = foldCase s.
Proof.
  induction s as [|c s IH]; simpl; [reflexivity |].
  rewrite canonicalize_lowerChar, IH. reflexivity.
Qed.

Lemma matchesAt_foldCase (p : string) :
  forall s1 s2, foldCase s1 = foldCase s2 -> matchesAt p s1 = matchesAt p s2.
Proof.
  induction p as [|a p IH]; intros [|b1 s1] [|b2 s2] H; simpl in *;
    try reflexivity; try discriminate.
  injection H as Hc Hs. rewrite Hc, (IH s1 s2 Hs). reflexivity.
Qed.

Lemma searchCI_foldCase (p : string) :
  forall s1 s2, foldCase s1 = foldCase s2 -> searchCI p s1 = searchCI p s2.
Proof.
  induction s1 as [|b1 s1 IH]; intros [|b2 s2] H; try discriminate.
  - reflexivity.
  - cbn [searchCI]. rewrite (matchesAt_foldCase p _ _ H).
    simpl in H. injection H as _ Hs. rewrite (IH s2 Hs). reflexivity.
Qed.

Lemma regexTest_foldCase (pattern : list string) (s1 s2 : string) :
  foldCase s1 = foldCase s2 -> regexTest pattern s1 = regexTest pattern s2.
Proof.
  intros H. unfold regexTest. induction pattern as [|p pattern IH]; simpl; [reflexivity |].
  rewrite (searchCI_foldCase p s1 s2 H), IH. reflexivity.
Qed.

Lemma classifyLoop_foldCase (entries : list (RAGPipeline.Intent * list string))
    (s1 s2 : string) :
  foldCase s1 = foldCase s2 ->
  RAGPipeline.classifyLoop entries s1 = RAGPipeline.classifyLoop entries s2.
Proof.
  intros H. induction entries as [|[intent pattern] entries IH]; simpl; [reflexivity |].
  rewrite (regexTest_foldCase pattern s1 s2 H), IH. reflexivity.
Qed.

Lemma matchesAt_app (p : string) :
  forall s post, matchesAt p s = true -> matchesAt p (s ++ post) = true.
Proof.
  induction p as [|a p IH]; intros [|b s] post H; simpl in *;
    try reflexivity; try discriminate.
  apply andb_true_iff in H. destruct H as [Hc Hs].
  rewrite Hc, (IH s post Hs). reflexivity.
Qed.

Lemma searchCI_app_r (p : string) :
  forall s post, searchCI p s = true -> searchCI p (s ++ post) = true.
Proof.
  induction s as [|b s IH]; intros post H.
  - cbn [searchCI] in H. rewrite orb_false_r in H.
    destruct p as [|a p]; [| discriminate].
    destruct (EmptyString ++ post)%string; reflexivity.
  - cbn [searchCI] in H. apply orb_true_iff in H.
    change (String b s ++ post)%string with (String b (s ++ post)).
    cbn [searchCI]. apply orb_true_iff. destruct H as [H | H].
    + left. apply (matchesAt_app p (String b s) post H).
    + right. apply IH. exact H.
Qed.

Lemma searchCI_app_l (p s : string) :
  forall pre, searchCI p s = true -> searchCI p (pre ++ s) = true.
Proof.
  induction pre as [|b pre IH]; intros H; [exact H |].
  change (String b pre ++ s)%string with (String b (pre ++ s)).
  cbn [searchCI]. rewrite (IH H). apply orb_true_r.
Qed.

Lemma regexTest_context (pattern : list string) (pre s post : string) :
  regexTest pattern s = true -> regexTest pattern (pre ++ s ++ post) = true.
Proof.
  unfold regexTest. rewrite !existsb_exists.
  intros [p [Hp Hs]]. exists p. split; [exact Hp |].
  apply searchCI_app_l, searchCI_app_r. exact Hs.
Qed.

Lemma matchIndex_monotone (entries : list (RAGPipeline.Intent * list string))
    (s1 s2 : string) :
  (forall pattern, regexTest pattern s1 = true -> regexTest pattern s2 = true) ->
  matchIndex entries s2 <= matchIndex entries s1.
Proof.
  intros H. induction entries as [|[intent pattern] entries IH]; simpl; [lia |].
  destruct (regexTest pattern s1) eqn:E1.
  - rewrite (H pattern E1). lia.
  - destruct (regexTest pattern s2); lia.
Qed.

Lemma priority_matchIndex (query : string) :
  priority (RAGPipeline.classifyIntent query) = matchIndex RAGPipeline.intents query.
Proof.
  unfold RAGPipeline.classifyIntent, RAGPipeline.intents.
  cbn [RAGPipeline.classifyLoop matchIndex].
  repeat (match goal with
          | |- context [regexTest ?pat query] => destruct (regexTest pat query)
          end; [reflexivity |]).
  reflexivity.
Qed.

(** X16: what [classifyIntent] does not look at.  The intent does not
    depend on the case of the query: two queries with the same letters
    in any case get the same intent, as do a query and its lower-case
    form.  The patterns match anywhere in the text, inside words too:
    putting text before and after a query can only move its intent up
    the order of the rules, and never back to the default. *)
Theorem classifyIntent_ignores_case_and_position :
  (forall q1 q2 : string,
     foldCase q1 = foldCase q2 ->
     RAGPipeline.classifyIntent q1 = RAGPipeline.classifyIntent q2)
  /\ (forall q : string,
        RAGPipeline.classifyIntent (toLowerCase q) = RAGPipeline.classifyIntent q)
  /\ (forall pre q post : string,
        priority (RAGPipeline.classifyIntent (pre ++ q ++ post))
        <= priority (RAGPipeline.classifyIntent q)
        /\ (RAGPipeline.classifyIntent q <> RAGPipeline.information_request ->
            RAGPipeline.classifyIntent (pre ++ q ++ post)
            <> RAGPipeline.information_request)).
Proof.
  split; [intros q1 q2 H; apply classifyLoop_foldCase; exact H |].
  split; [intros q; apply classifyLoop_foldCase, foldCase_toLowerCase |].
  intros pre q post.
  assert (Hle : priority (RAGPipeline.classifyIntent (pre ++ q ++ post))
                <= priority (RAGPipeline.classifyIntent q)).
  { rewrite !priority_matchIndex. apply matchIndex_monotone.
    intros pattern Hp. apply regexTest_context. exact Hp. }
  split; [exact Hle |].
  intros Hq Hdefault. rewrite Hdefault in Hle.
  destruct (RAGPipeline.classifyIntent q); cbn in Hle; try lia. contradiction.
Qed.

End IntentLaws.

(* ================================================================== *)
(** * Embeddings that cannot be searched *)
(* ================================================================== *)

Section EmbeddingEdgeLaws.
Import Js Spec.
Open Scope R_scope.

Lemma similarity_nonzero (q : VectorStore.JsValue) (b : list R) :
  VectorStore.calculateCosineSimilarity q (VectorStore.JArray b) <> 0 ->
  exists a, q = VectorStore.JArray a /\ norm a <> 0 /\ norm b <> 0 /\ a <> [] /\ b <> [].
Proof.
  intros Hs. destruct q as [a | t af]; [| exfalso; apply Hs; reflexivity].
  assert (Ha : norm a <> 0).
  { intros E. apply Hs. apply cosine_zero_norm. left. exact E. }
  assert (Hb : norm b <> 0).
  { intros E. apply Hs. apply cosine_zero_norm. right. exact E. }
  exists a. repeat split; try assumption.
  - intros ->. apply Ha. unfold norm, normSq. simpl. apply sqrt_0.
  - intros ->. apply Hb. unfold norm, normSq. simpl. apply sqrt_0.
Qed.

Lemma search_hits_nonzero (st : VectorStore.Store) (q : VectorStore.JsValue)
    (ids : option (list string)) (filters : VectorStore.Filters) :
  0 < VectorStore.effectiveMinSimilarity filters ->
  forall r, In r (VectorStore.searchWithEmbedding st q ids filters) ->
    exists a, q = VectorStore.JArray a
              /\ norm a <> 0
              /\ norm (VectorStore.embedding (VectorStore.vector r)) <> 0
              /\ VectorStore.embedding (VectorStore.vector r) <> []
              /\ ~ Forall (eq 0) (VectorStore.embedding (VectorStore.vector r)).
Proof.
  intros Hm r Hr. destruct (search_results_qualify st q ids filters r Hr)
    as [_ [_ [Hsim Hge]]].
  assert (Hnz : similarityTo q (VectorStore.vector r) <> 0) by (rewrite <- Hsim; lra).
  destruct (similarity_nonzero q _ Hnz) as [a [Hq [Ha [Hb [_ Hne]]]]].
  exists a. repeat split; try assumption.
  intros Hz. apply Hb. apply norm_all_zero. exact Hz.
Qed.

Lemma search_non_array_empty (st : VectorStore.Store) (t : bool) (arrayFrom : list R)
    (ids : option (list string)) (filters : VectorStore.Filters) :
  0 < VectorStore.effectiveMinSimilarity filters ->
  VectorStore.searchWithEmbedding st (VectorStore.JOther t arrayFrom) ids filters = [].
Proof.
  intros Hm.
  destruct (VectorStore.searchWithEmbedding st _ ids filters) as [|r rs] eqn:E;
    [reflexivity |].
  destruct (search_hits_nonzero st (VectorStore.JOther t arrayFrom) ids filters Hm r)
    as [a [Ha _]]; [rewrite E; left; reflexivity | discriminate].
Qed.

(** X17: what a search with a positive threshold can never return.
    Every hit has a non-empty embedding of non-zero norm, and there are
    hits only when the query embedding is an array of non-zero norm: a
    passage stored with an empty or all-zero embedding is in the index
    but is never found, and a query embedding that is not an array
    finds nothing. *)
Theorem search_needs_nonzero_embeddings :
  forall (st : VectorStore.Store) (q : VectorStore.JsValue)
         (ids : option (list string)) (filters : VectorStore.Filters),
    0 < VectorStore.effectiveMinSimilarity filters ->
    (forall r, In r (VectorStore.searchWithEmbedding st q ids filters) ->
       exists a, q = VectorStore.JArray a
                 /\ norm a <> 0
                 /\ norm (VectorStore.embedding (VectorStore.vector r)) <> 0
                 /\ VectorStore.embedding (VectorStore.vector r) <> []
                 /\ ~ Forall (eq 0) (VectorStore.embedding (VectorStore.vector r)))
    /\ (forall t arrayFrom,
          q = VectorStore.JOther t arrayFrom ->
          VectorStore.searchWithEmbedding st q ids filters = [])
    /\ (forall a, q = VectorStore.JArray a -> Forall (eq 0) a ->
          VectorStore.searchWithEmbedding st q ids filters = []).
Proof.
  intros st q ids filters Hm.
  pose proof (search_hits_nonzero st q ids filters Hm) as Hhit.
  split; [exact Hhit |].
  split.
  - intros t af Hq.
    destruct (VectorStore.searchWithEmbedding st q ids filters) as [|r rs]; [reflexivity |].
    destruct (Hhit r (or_introl eq_refl)) as [a [Ha _]]. congruence.
  - intros a Hq Hz.
    destruct (VectorStore.searchWithEmbedding st q ids filters) as [|r rs]; [reflexivity |].
    destruct (Hhit r (or_introl eq_refl)) as [a' [Ha' [Hn _]]].
    exfalso. apply Hn. apply norm_all_zero.
    rewrite Hq in Ha'. injection Ha' as <-. exact Hz.
Qed.

(** The hypothesis of X17 holds of a search without filters, whose
    threshold is 0.1. *)
Lemma search_needs_nonzero_embeddings_witness :
  (forall r, In r (VectorStore.searchWithEmbedding Examples.orthogonalStore
                     (VectorStore.JArray [1; 0]) None Examples.noFilters) ->
     exists a, VectorStore.JArray [1; 0] = VectorStore.JArray a
               /\ norm a <> 0
               /\ norm (VectorStore.embedding (VectorStore.vector r)) <> 0
               /\ VectorStore.embedding (VectorStore.vector r) <> []
               /\ ~ Forall (eq 0) (VectorStore.embedding (VectorStore.vector r)))
  /\ (forall t arrayFrom,
        VectorStore.JArray [1; 0] = VectorStore.JOther t arrayFrom ->
        VectorStore.searchWithEmbedding Examples.orthogonalStore
          (VectorStore.JArray [1; 0]) None Examples.noFilters = [])
  /\ (forall a, VectorStore.JArray [1; 0] = VectorStore.JArray a -> Forall (eq 0) a ->
        VectorStore.searchWithEmbedding Examples.orthogonalStore
          (VectorStore.JArray [1; 0]) None Examples.noFilters = []).
Proof.
  apply (search_needs_nonzero_embeddings Examples.orthogonalStore
           (VectorStore.JArray [1; 0]) None Examples.noFilters).
  unfold VectorStore.effectiveMinSimilarity. cbn. lra.
Defined.

(** X18: a query embedding that is not an array.  When the client's
    [response[0]] for the query is not an array (the pipeline passes it
    on as it is, where the store would convert it) and the threshold the
    query searches with is positive, every similarity is 0 and the query
    is answered as if the index held nothing relevant: the fixed answer,
    no sources, intent [information_request], all scores 0.  No error is
    raised. *)
Theorem query_with_non_array_embedding_finds_nothing :
  forall (p : RAGPipeline.Pipeline) (q : string) (ids : option (list string))
         (filters : VectorStore.Filters) (client : VectorStore.HfClient)
         (t : bool) (arrayFrom : list R),
    RAGPipeline.hf p = Some client ->
    VectorStore.featureExtraction0 client q = Returned (VectorStore.JOther t arrayFrom) ->
    0 < queryThreshold p filters ->
    RAGPipeline.generateQueryEmbedding p q = Returned (VectorStore.JOther t arrayFrom)
    /\ RAGPipeline.query p q ids filters
       = Returned
           {| RAGPipeline.answer := RAGPipeline.noChunksAnswer q;
              RAGPipeline.sources := [];
              RAGPipeline.relevanceScore := 0;
              RAGPipeline.context := EmptyString;
              RAGPipeline.queryIntent := RAGPipeline.information_request;
              RAGPipeline.metrics :=
                {| RAGPipeline.faithfulness := 0;
                   RAGPipeline.answerRelevancy := 0;
                   RAGPipeline.contextRecall := 0;
                   RAGPipeline.contextPrecision := 0;
                   RAGPipeline.overallScore := 0 |} |}
    /\ (forall st text,
          VectorStore.hf st = Some client ->
          VectorStore.featureExtraction0 client text
          = Returned (VectorStore.JOther t arrayFrom) ->
          VectorStore.generateEmbedding st text
          = Returned (if t then arrayFrom else [])).
Proof.
  intros p q ids filters client t af Hhf Hresp Hm.
  assert (Hemb : RAGPipeline.generateQueryEmbedding p q
                 = Returned (VectorStore.JOther t af)).
  { unfold RAGPipeline.generateQueryEmbedding. rewrite Hhf, Hresp. reflexivity. }
  split; [exact Hemb |].
  split.
  - destruct (query_branches p q ids filters _ Hemb) as [Hnil _].
    apply Hnil.
    rewrite <- query_threshold in Hm.
    apply search_non_array_empty. exact Hm.
  - intros st text Hst Hr. unfold VectorStore.generateEmbedding.
    rewrite Hst, Hr. reflexivity.
Qed.

(** The hypotheses of X18 hold of a pipeline whose client answers with a
    number. *)
Lemma query_with_non_array_embedding_finds_nothing_witness :
  RAGPipeline.generateQueryEmbedding Examples.scalarPipeline "revenue report"
  = Returned (VectorStore.JOther true [])
  /\ RAGPipeline.query Examples.scalarPipeline "revenue report" None Examples.noFilters
     = Returned
         {| RAGPipeline.answer := RAGPipeline.noChunksAnswer "revenue report";
            RAGPipeline.sources := [];
            RAGPipeline.relevanceScore := 0;
            RAGPipeline.context := EmptyString;
            RAGPipeline.queryIntent := RAGPipeline.information_request;
            RAGPipeline.metrics :=
              {| RAGPipeline.faithfulness := 0;
                 RAGPipeline.answerRelevancy := 0;
                 RAGPipeline.contextRecall := 0;
                 RAGPipeline.contextPrecision := 0;
                 RAGPipeline.overallScore := 0 |} |}
  /\ (forall st text,
        VectorStore.hf st = Some Examples.scalarClient ->
        VectorStore.featureExtraction0 Examples.scalarClient text
        = Returned (VectorStore.JOther true []) ->
        VectorStore.generateEmbedding st text = Returned (if true then [] else [])).
Proof.
  apply (query_with_non_array_embedding_finds_nothing Examples.scalarPipeline
           "revenue report" None Examples.noFilters Examples.scalarClient true []).
  - reflexivity.
  - reflexivity.
  - unfold queryThreshold. cbn. lra.
Defined.

End EmbeddingEdgeLaws.

(* ================================================================== *)
(** * The range of the composite score *)
(* ================================================================== *)

Section RelevanceLaws.
Import Js Spec.
Open Scope R_scope.

Lemma overlapScore_le_1 (query chunk : string) : overlapScore query chunk <= 1.
Proof.
  unfold overlapScore.
  pose proof (wordSet_nonempty query) as Hq.
  pose proof (intersection_length_le (RAGPipeline.wordSet query) (RAGPipeline.wordSet chunk)
                (newSet_NoDup _)) as Hle.
  assert (Hpos : 0 < INR (List.length (RAGPipeline.wordSet query))).
  { apply (lt_INR 0). lia. }
  apply Rmult_le_reg_r with (INR (List.length (RAGPipeline.wordSet query))); [exact Hpos |].
  unfold Rdiv. rewrite Rmult_assoc, Rinv_l by lra.
  apply le_INR in Hle. lra.
Qed.

Lemma lengthScore_bounds (chunk : RAGPipeline.ChunkView) : 0 <= lengthScore chunk <= 1.
Proof.
  unfold lengthScore. split; [| apply Rmin_r].
  apply Rmin_glb; [| lra].
  pose proof (pos_INR (String.length (RAGPipeline.cv_content chunk))). lra.
Qed.

Lemma metadataBonus_bounds (chunk : RAGPipeline.ChunkView) : 0 <= metadataBonus chunk <= 0.1.
Proof.
  unfold metadataBonus. destruct (RAGPipeline.cv_metadata chunk) as [m|]; [| lra].
  destruct (VectorStore.semanticChunk m); lra.
Qed.

(** X19: the range of the composite score, in exact arithmetic.  The
    part of the score that does not come from the vector similarity lies
    between 0 and 0.6, so the score of a chunk of similarity [s] lies
    between [0.4 s] and [0.4 s + 0.6]: within [0, 1] for a similarity in
    [0, 1].  The score of a search result is at least 0.4 times the
    threshold of the search. *)
Theorem chunk_relevance_bounds :
  forall (query : string) (chunk : RAGPipeline.ChunkView),
    let score := RAGPipeline.calculateChunkRelevance query chunk in
    0.4 * vectorSimilarity chunk <= score <= 0.4 * vectorSimilarity chunk + 0.6
    /\ (0 <= vectorSimilarity chunk <= 1 -> 0 <= score <= 1)
    /\ (forall (st : VectorStore.Store) (q : VectorStore.JsValue)
               (ids : option (list string)) (filters : VectorStore.Filters)
               (r : VectorStore.SearchResult),
          In r (VectorStore.searchWithEmbedding st q ids filters) ->
          0.4 * VectorStore.effectiveMinSimilarity filters
          <= RAGPipeline.calculateChunkRelevance query (RAGPipeline.viewOf r)).
Proof.
  intros query chunk score.
  assert (Hgen : forall c : RAGPipeline.ChunkView,
            0.4 * vectorSimilarity c <= RAGPipeline.calculateChunkRelevance query c
            <= 0.4 * vectorSimilarity c + 0.6).
  { intros c. rewrite chunk_relevance_formula.
    fold (overlapScore query (RAGPipeline.cv_content c)).
    pose proof (overlapScore_nonneg query (RAGPipeline.cv_content c)).
    pose proof (overlapScore_le_1 query (RAGPipeline.cv_content c)).
    pose proof (lengthScore_bounds c). pose proof (metadataBonus_bounds c). lra. }
  split; [apply Hgen |].
  split; [intros Hs; pose proof (Hgen chunk); unfold score; lra |].
  intros st q ids filters r Hr.
  destruct (search_results_qualify st q ids filters r Hr) as [_ [_ [_ Hge]]].
  pose proof (Hgen (RAGPipeline.viewOf r)) as Hv.
  unfold vectorSimilarity in Hv. cbn [RAGPipeline.viewOf RAGPipeline.cv_similarity] in Hv.
  lra.
Qed.

End RelevanceLaws.

(* ================================================================== *)
(** * Sentences and chunks *)
(* ================================================================== *)

Section ChunkingLaws.
Import Js Spec.

Lemma string_app_nil_r (s : string) : (s ++ EmptyString)%string = s.
Proof. induction s as [|c s IH]; simpl; [reflexivity | rewrite IH; reflexivity]. Qed.

Lemma rev_string_acc (s : string) :
  forall acc, rev_string s acc = (rev_string s EmptyString ++ acc)%string.
Proof.
  induction s as [|c s IH]; intros acc; [reflexivity |].
  cbn [rev_string]. rewrite (IH (String c acc)), (IH (String c EmptyString)).
  rewrite string_app_assoc. reflexivity.
Qed.

Lemma rev_string_app (a b : string) :
  rev_string (a ++ b) EmptyString
  = (rev_string b EmptyString ++ rev_string a EmptyString)%string.
Proof.
  induction a as [|c a IH].
  - cbn [String.append rev_string]. rewrite string_app_nil_r. reflexivity.
  - change (String c a ++ b)%string with (String c (a ++ b)). cbn [rev_string].
    rewrite (rev_string_acc (a ++ b)), (rev_string_acc a), IH, string_app_assoc.
    reflexivity.
Qed.

Lemma rev_string_involutive (s : string) :
  rev_string (rev_string s EmptyString) EmptyString = s.
Proof.
  induction s as [|c s IH]; [reflexivity |].
  cbn [rev_string]. rewrite (rev_string_acc s), rev_string_app, IH. reflexivity.
Qed.

Lemma freeOf_app (p : ascii -> bool) (a b : string) :
  freeOf p (a ++ b) = freeOf p a && freeOf p b.
Proof.
  induction a as [|c a IH]; [reflexivity |].
  change (String c a ++ b)%string with (String c (a ++ b)). cbn [freeOf].
  rewrite IH, andb_assoc. reflexivity.
Qed.

Lemma freeOf_rev (p : ascii -> bool) (s : string) :
  freeOf p (rev_string s EmptyString) = freeOf p s.
Proof.
  induction s as [|c s IH]; [reflexivity |].
  cbn [rev_string freeOf]. rewrite rev_string_acc, freeOf_app, IH.
  cbn [freeOf]. rewrite andb_true_r. apply andb_comm.
Qed.

(** [trimStart] drops a blank prefix. *)
Lemma trimStart_suffix (s : string) :
  exists w, s = (w ++ trimStart s)%string /\ blank w = true.
Proof.
  induction s as [|c s [w [Hs Hw]]].
  - exists EmptyString. split; reflexivity.
  - cbn [trimStart]. destruct (isWhiteSpace c) eqn:E.
    + exists (String c w). split; [cbn; rewrite <- Hs; reflexivity |].
      cbn. rewrite E, Hw. reflexivity.
    + exists EmptyString. split; reflexivity.
Qed.

Lemma trimStart_startsClean (s : string) : startsClean (trimStart s) = true.
Proof.
  induction s as [|c s IH]; [reflexivity |].
  cbn [trimStart]. destruct (isWhiteSpace c) eqn:E; [exact IH |].
  cbn. rewrite E. reflexivity.
Qed.

Lemma trimStart_clean (s : string) : startsClean s = true -> trimStart s = s.
Proof.
  destruct s as [|c s]; [reflexivity |]. cbn. intros H.
  apply negb_true_iff in H. rewrite H. reflexivity.
Qed.

Lemma startsClean_app_l (a b : string) :
  startsClean (a ++ b) = true -> a <> EmptyString -> startsClean a = true.
Proof. destruct a as [|c a]; [intros _ H; contradiction | intros H _; exact H]. Qed.

Lemma trim_trimmed (s : string) : trimmed (trim s) = true.
Proof.
  unfold trim, trimmed.
  set (t := trimStart s).
  set (u := trimStart (rev_string t EmptyString)).
  rewrite rev_string_involutive.
  assert (Hu : startsClean u = true) by apply trimStart_startsClean.
  rewrite Hu, andb_true_r.
  destruct (trimStart_suffix (rev_string t EmptyString)) as [w [Hw _]]. fold u in Hw.
  assert (Ht : t = (rev_string u EmptyString ++ rev_string w EmptyString)%string).
  { rewrite <- rev_string_app, <- Hw, rev_string_involutive. reflexivity. }
  destruct (rev_string u EmptyString) as [|c r] eqn:Er; [reflexivity |].
  apply (startsClean_app_l _ (rev_string w EmptyString)); [| discriminate].
  rewrite <- Ht. apply trimStart_startsClean.
Qed.

Lemma trim_of_trimmed (s : string) : trimmed s = true -> trim s = s.
Proof.
  unfold trimmed, trim. intros H. apply andb_true_iff in H. destruct H as [H1 H2].
  rewrite (trimStart_clean s H1), (trimStart_clean _ H2). apply rev_string_involutive.
Qed.

Lemma trimStart_length (s : string) : String.length (trimStart s) <= String.length s.
Proof.
  induction s as [|c s IH]; [apply Nat.le_refl |].
  cbn [trimStart]. destruct (isWhiteSpace c); cbn [String.length]; lia.
Qed.

Lemma trim_length (s : string) : String.length (trim s) <= String.length s.
Proof.
  unfold trim. rewrite rev_string_length. cbn [String.length]. rewrite Nat.add_0_r.
  eapply Nat.le_trans; [apply trimStart_length |].
  rewrite rev_string_length. cbn [String.length]. rewrite Nat.add_0_r.
  apply trimStart_length.
Qed.

Lemma trimStart_freeOf (p : ascii -> bool) (s : string) :
  freeOf p s = true -> freeOf p (trimStart s) = true.
Proof.
  induction s as [|c s IH]; [reflexivity |].
  cbn [trimStart]. destruct (isWhiteSpace c); [| auto].
  cbn [freeOf]. intros H. apply andb_true_iff in H. apply IH, H.
Qed.

Lemma trim_freeOf (p : ascii -> bool) (s : string) :
  freeOf p s = true -> freeOf p (trim s) = true.
Proof.
  intros H. unfold trim. rewrite freeOf_rev. apply trimStart_freeOf.
  rewrite freeOf_rev. apply trimStart_freeOf. exact H.
Qed.

(** No piece of a split holds a separator. *)
Lemma splitRuns_freeOf (p : ascii -> bool) (s : string) :
  Forall (fun piece => freeOf p piece = true) (DocumentProcessor.splitRuns p s).
Proof.
  induction s as [|c s IH]; cbn [DocumentProcessor.splitRuns].
  - repeat constructor.
  - destruct (p c) eqn:E.
    + destruct s as [|c' s']; [repeat constructor |].
      destruct (p c'); [exact IH | constructor; [reflexivity | exact IH]].
    + destruct (DocumentProcessor.splitRuns p s) as [|w ws].
      * repeat constructor. cbn. rewrite E. reflexivity.
      * inversion IH as [|? ? Hw Hws]; subst.
        constructor; [| exact Hws]. cbn. rewrite E, Hw. reflexivity.
Qed.

(** A text without separator is its own single piece. *)
Lemma splitRuns_free (p : ascii -> bool) (s : string) :
  freeOf p s = true -> DocumentProcessor.splitRuns p s = [s].
Proof.
  induction s as [|c s IH]; [reflexivity |].
  cbn [freeOf DocumentProcessor.splitRuns]. intros H.
  apply andb_true_iff in H. destruct H as [Hc Hs].
  apply negb_true_iff in Hc. rewrite Hc, (IH Hs). reflexivity.
Qed.

Lemma sentences_clean (text : string) :
  Forall (fun sentence =>
            trimmed sentence = true
            /\ 10 < String.length sentence
            /\ freeOf DocumentProcessor.isTerminator sentence = true)
         (DocumentProcessor.splitIntoSentences text).
Proof.
  unfold DocumentProcessor.splitIntoSentences.
  apply Forall_forall. intros sentence Hs.
  apply filter_In in Hs. destruct Hs as [Hin Hlen].
  apply in_map_iff in Hin. destruct Hin as [piece [<- Hpiece]].
  split; [apply trim_trimmed |].
  split; [apply Nat.ltb_lt; exact Hlen |].
  apply trim_freeOf.
  pose proof (splitRuns_freeOf DocumentProcessor.isTerminator text) as Hall.
  rewrite Forall_forall in Hall. apply Hall. exact Hpiece.
Qed.

Lemma semanticLoop_accumulates (sentences : list string) (type : string) :
  forall (chunks : list DocumentProcessor.Chunk) (currentChunk : list string) (chunkId : nat),
    DocumentProcessor.semanticLoop sentences type chunks currentChunk chunkId
    = (chunks, currentChunk ++ sentences, chunkId).
Proof.
  induction sentences as [|s sentences IH]; intros chunks cur chunkId.
  - cbn. rewrite app_nil_r. reflexivity.
  - cbn [DocumentProcessor.semanticLoop]. cbv zeta.
    unfold DocumentProcessor.analyzeChunkBreakpoint. cbn [andb].
    destruct (400 <? String.length (join " " (cur ++ [s])));
      rewrite IH, <- app_assoc; reflexivity.
Qed.

(** X22: chunking with a model client.  [createSemanticChunks] never
    splits: the check that would allow a split answers no on every
    path.  It returns no chunk for no sentence, and otherwise one chunk,
    numbered 0, that holds all the sentences joined by spaces and is
    marked as a semantic chunk.  So a processor with a HuggingFace
    client turns a whole document into at most one chunk, whatever its
    length. *)
Theorem semantic_chunking_gives_one_chunk :
  forall (sentences : list string) (type : string)
         (metadata : option VectorStore.Metadata),
    let whole :=
      {| DocumentProcessor.id := 0;
         DocumentProcessor.content := join " " sentences;
         DocumentProcessor.type := type;
         DocumentProcessor.sentenceCount := List.length sentences;
         DocumentProcessor.semanticChunk := true;
         DocumentProcessor.embedding := VectorStore.undefined;
         DocumentProcessor.embeddingModel := None |} in
    DocumentProcessor.createSemanticChunks sentences type metadata
    = match sentences with
      | [] => []
      | _ :: _ => [whole]
      end
    /\ (forall (p : DocumentProcessor.Processor) (client : VectorStore.HfClient)
               (text : string),
          DocumentProcessor.hf p = Some client ->
          sentences = DocumentProcessor.splitIntoSentences text ->
          DocumentProcessor.createIntelligentChunks p text type metadata
          = match sentences with
            | [] => []
            | _ :: _ => [whole]
            end
          /\ List.length (DocumentProcessor.createIntelligentChunks p text type metadata) <= 1).
Proof.
  intros sentences type metadata whole.
  assert (Hsem : DocumentProcessor.createSemanticChunks sentences type metadata
                 = match sentences with
                   | [] => []
                   | _ :: _ => [whole]
                   end).
  { unfold DocumentProcessor.createSemanticChunks.
    rewrite semanticLoop_accumulates. cbn [app].
    destruct sentences as [|s rest]; reflexivity. }
  split; [exact Hsem |].
  intros p client text Hhf Hs.
  unfold DocumentProcessor.createIntelligentChunks. rewrite Hhf, <- Hs, Hsem.
  destruct sentences as [|s rest]; cbn; split; try reflexivity; lia.
Qed.

(** An invariant of the loop of [createBasicChunks]: [Q] holds of the
    text being accumulated, [P] of the chunks pushed. *)
Lemma basicLoop_invariant (type : string) (metadata : option VectorStore.Metadata)
    (Q : string -> Prop) (P : DocumentProcessor.Chunk -> Prop) :
  (forall chunkId cur, Q cur -> 0 < String.length (trim cur) ->
     P (DocumentProcessor.basicChunk chunkId cur type metadata)) ->
  forall sentences : list string,
    Forall (fun s => Q s
                     /\ forall cur, Q cur ->
                          String.length cur + String.length s <= 500 ->
                          Q (cur ++ " " ++ s)%string) sentences ->
    forall (chunks : list DocumentProcessor.Chunk) (cur : string) (chunkId : nat),
      Q cur -> Forall P chunks ->
      Forall P (fst (fst (DocumentProcessor.basicLoop sentences type metadata
                            chunks cur chunkId)))
      /\ Q (snd (fst (DocumentProcessor.basicLoop sentences type metadata
                        chunks cur chunkId))).
Proof.
  intros Hpush sentences Hs.
  induction Hs as [|s sentences [Hstart Happ] _ IH]; intros chunks cur chunkId Hcur Hchunks.
  - cbn. split; assumption.
  - cbn [DocumentProcessor.basicLoop].
    destruct (500 <? String.length cur + String.length s) eqn:Eover.
    + destruct (0 <? String.length (trim cur)) eqn:Eblank.
      * apply IH; [exact Hstart |].
        apply Forall_app. split; [exact Hchunks |].
        constructor; [| constructor].
        apply Hpush; [exact Hcur | apply Nat.ltb_lt; exact Eblank].
      * apply IH; assumption.
    + apply IH; [| exact Hchunks].
      apply Happ; [exact Hcur | apply Nat.ltb_ge; exact Eover].
Qed.

Lemma basicChunks_invariant (type : string) (metadata : option VectorStore.Metadata)
    (Q : string -> Prop) (P : DocumentProcessor.Chunk -> Prop) (sentences : list string) :
  (forall chunkId cur, Q cur -> 0 < String.length (trim cur) ->
     P (DocumentProcessor.basicChunk chunkId cur type metadata)) ->
  Q EmptyString ->
  Forall (fun s => Q s
                   /\ forall cur, Q cur ->
                        String.length cur + String.length s <= 500 ->
                        Q (cur ++ " " ++ s)%string) sentences ->
  Forall P (DocumentProcessor.createBasicChunks sentences type metadata).
Proof.
  intros Hpush Hnil Hs.
  destruct (basicLoop_invariant type metadata Q P Hpush sentences Hs [] EmptyString 0 Hnil
              (Forall_nil _)) as [Hchunks Hcur].
  unfold DocumentProcessor.createBasicChunks.
  destruct (DocumentProcessor.basicLoop sentences type metadata [] EmptyString 0)
    as [[chunks cur] chunkId].
  cbn [fst snd] in *.
  destruct (0 <? String.length (trim cur)) eqn:E; [| exact Hchunks].
  apply Forall_app. split; [exact Hchunks |].
  constructor; [| constructor].
  apply Hpush; [exact Hcur | apply Nat.ltb_lt; exact E].
Qed.

(** The numbering of the basic chunks, and their number. *)
Lemma basicLoop_ids (type : string) (metadata : option VectorStore.Metadata)
    (sentences : list string) :
  forall (chunks : list DocumentProcessor.Chunk) (cur : string) (chunkId processed : nat),
    map DocumentProcessor.id chunks = seq 0 (List.length chunks) ->
    chunkId = List.length chunks ->
    List.length chunks + (if 0 <? String.length (trim cur) then 1 else 0) <= processed ->
    let '(chunks', cur', chunkId') :=
      DocumentProcessor.basicLoop sentences type metadata chunks cur chunkId in
    map DocumentProcessor.id chunks' = seq 0 (List.length chunks')
    /\ chunkId' = List.length chunks'
    /\ List.length chunks' + (if 0 <? String.length (trim cur') then 1 else 0)
       <= processed + List.length sentences.
Proof.
  induction sentences as [|s sentences IH]; intros chunks cur chunkId processed Hids Hid Hn.
  - cbn [DocumentProcessor.basicLoop List.length]. rewrite Nat.add_0_r.
    repeat split; assumption.
  - cbn [DocumentProcessor.basicLoop List.length].
    destruct (500 <? String.length cur + String.length s).
    + destruct (0 <? String.length (trim cur)) eqn:Eblank.
      * specialize (IH (chunks ++ [DocumentProcessor.basicChunk chunkId cur type metadata])
                      s (S chunkId) (S processed)).
        destruct (DocumentProcessor.basicLoop sentences type metadata _ s (S chunkId))
          as [[chunks' cur'] chunkId'].
        replace (processed + S (List.length sentences))
          with (S processed + List.length sentences) by lia.
        apply IH.
        -- rewrite map_app, length_app, Hids. cbn [map List.length DocumentProcessor.id
             DocumentProcessor.basicChunk].
           rewrite seq_app. cbn [seq]. rewrite Hid. reflexivity.
        -- rewrite length_app. cbn [List.length]. lia.
        -- rewrite length_app. cbn [List.length].
           destruct (0 <? String.length (trim s)); lia.
      * specialize (IH chunks s chunkId (S processed)).
        destruct (DocumentProcessor.basicLoop sentences type metadata chunks s chunkId)
          as [[chunks' cur'] chunkId'].
        replace (processed + S (List.length sentences))
          with (S processed + List.length sentences) by lia.
        apply IH; [exact Hids | exact Hid |].
        destruct (0 <? String.length (trim s)); lia.
    + specialize (IH chunks (cur ++ " " ++ s)%string chunkId (S processed)).
      destruct (DocumentProcessor.basicLoop sentences type metadata chunks _ chunkId)
        as [[chunks' cur'] chunkId'].
      replace (processed + S (List.length sentences))
        with (S processed + List.length sentences) by lia.
      apply IH; [exact Hids | exact Hid |].
      destruct (0 <? String.length (trim cur));
        destruct (0 <? String.length (trim (cur ++ " " ++ s))); lia.
Qed.

Lemma basicChunks_ids (sentences : list string) (type : string)
    (metadata : option VectorStore.Metadata) :
  let chunks := DocumentProcessor.createBasicChunks sentences type metadata in
  map DocumentProcessor.id chunks = seq 0 (List.length chunks)
  /\ List.length chunks <= List.length sentences.
Proof.
  cbv zeta. unfold DocumentProcessor.createBasicChunks.
  pose proof (basicLoop_ids type metadata sentences [] EmptyString 0 0 eq_refl eq_refl)
    as H.
  destruct (DocumentProcessor.basicLoop sentences type metadata [] EmptyString 0)
    as [[chunks cur] chunkId].
  destruct H as [Hids [Hid Hn]]; [cbn; lia |].
  destruct (0 <? String.length (trim cur)).
  - rewrite map_app, length_app, Hids. cbn [map List.length DocumentProcessor.id
      DocumentProcessor.basicChunk].
    rewrite seq_app. cbn [seq]. rewrite Hid. split; [reflexivity | lia].
  - split; [exact Hids | lia].
Qed.

(** X23: the basic chunks.  They are numbered 0, 1, 2, ... in order, so
    the number of a chunk is its index in the list (the index under
    which [storeDocument] files it); there are no more chunks than
    sentences; every chunk has a content that is not empty and neither
    begins nor ends with white space, and carries no embedding yet.
    When no sentence is longer than 500 code units, no chunk is longer
    than 501.  When the sentences hold no full stop, exclamation or
    question mark, as those of [splitIntoSentences] never do, the
    [sentenceCount] of every chunk is 0. *)
Theorem basic_chunks_are_numbered_and_bounded :
  forall (sentences : list string) (type : string)
         (metadata : option VectorStore.Metadata),
    let chunks := DocumentProcessor.createBasicChunks sentences type metadata in
    map DocumentProcessor.id chunks = seq 0 (List.length chunks)
    /\ List.length chunks <= List.length sentences
    /\ Forall (fun c =>
                 trimmed (DocumentProcessor.content c) = true
                 /\ 0 < String.length (DocumentProcessor.content c)
                 /\ DocumentProcessor.type c = type
                 /\ DocumentProcessor.semanticChunk c
                    = DocumentProcessor.inheritedSemantic metadata
                 /\ DocumentProcessor.embedding c = VectorStore.undefined
                 /\ DocumentProcessor.embeddingModel c = None)
              chunks
    /\ (Forall (fun s => String.length s <= 500) sentences ->
        Forall (fun c => String.length (DocumentProcessor.content c) <= 501) chunks)
    /\ (Forall (fun s => freeOf DocumentProcessor.isTerminator s = true) sentences ->
        Forall (fun c => DocumentProcessor.sentenceCount c = 0) chunks)
    /\ (forall text, sentences = DocumentProcessor.splitIntoSentences text ->
          Forall (fun c => DocumentProcessor.sentenceCount c = 0) chunks
          /\ forall p, DocumentProcessor.hf p = None ->
               DocumentProcessor.createIntelligentChunks p text type metadata = chunks).
Proof.
  intros sentences type metadata chunks.
  destruct (basicChunks_ids sentences type metadata) as [Hids Hcount].
  fold chunks in Hids, Hcount.
  assert (Hfree : Forall (fun s => freeOf DocumentProcessor.isTerminator s = true) sentences ->
                  Forall (fun c => DocumentProcessor.sentenceCount c = 0) chunks).
  { intros Hs.
    apply (basicChunks_invariant type metadata
             (fun cur => freeOf DocumentProcessor.isTerminator cur = true)).
    - intros chunkId cur Hcur _. cbn [DocumentProcessor.basicChunk
        DocumentProcessor.sentenceCount].
      rewrite (splitRuns_free _ cur Hcur). reflexivity.
    - reflexivity.
    - eapply Forall_impl; [| exact Hs]. intros s Hfs. split; [exact Hfs |].
      intros cur Hcur _. rewrite !freeOf_app, Hcur, Hfs. reflexivity. }
  split; [exact Hids |]. split; [exact Hcount |].
  split.
  { apply (basicChunks_invariant type metadata (fun _ => True)).
    - intros chunkId cur _ Hlen. cbn [DocumentProcessor.basicChunk
        DocumentProcessor.content DocumentProcessor.type DocumentProcessor.semanticChunk
        DocumentProcessor.embedding DocumentProcessor.embeddingModel].
      repeat split; [apply trim_trimmed | exact Hlen].
    - exact I.
    - apply Forall_forall. intros s _. split; [exact I | intros; exact I]. }
  split.
  { intros Hs.
    apply (basicChunks_invariant type metadata (fun cur => String.length cur <= 501)).
    - intros chunkId cur Hcur _. cbn [DocumentProcessor.basicChunk
        DocumentProcessor.content].
      pose proof (trim_length cur). lia.
    - cbn. lia.
    - eapply Forall_impl; [| exact Hs]. intros s Hls. cbv beta in *. split; [lia |].
      intros cur _ Hsum. rewrite !string_app_length. cbn [String.length]. lia. }
  split; [exact Hfree |].
  intros text Htext. split.
  - apply Hfree. rewrite Htext.
    eapply Forall_impl; [| apply sentences_clean]. intros s [_ [_ H]]. exact H.
  - intros p Hp. unfold DocumentProcessor.createIntelligentChunks.
    rewrite Hp, <- Htext. reflexivity.
Qed.

(** X24: the sentences of a text.  Every sentence [splitIntoSentences]
    returns is longer than 10 code units, neither begins nor ends with
    white space (trimming it again changes nothing), and holds no full
    stop, exclamation or question mark: the marks that end the
    sentences are not part of them. *)
Theorem sentences_are_trimmed_and_unpunctuated :
  forall text : string,
    Forall (fun sentence =>
              10 < String.length sentence
              /\ trimmed sentence = true
              /\ trim sentence = sentence
              /\ freeOf DocumentProcessor.isTerminator sentence = true
              /\ DocumentProcessor.splitRuns DocumentProcessor.isTerminator sentence
                 = [sentence])
           (DocumentProcessor.splitIntoSentences text).
Proof.
  intros text. eapply Forall_impl; [| apply sentences_clean].
  intros s [Ht [Hl Hf]].
  split; [exact Hl |]. split; [exact Ht |].
  split; [apply trim_of_trimmed; exact Ht |].
  split; [exact Hf | apply splitRuns_free; exact Hf].
Qed.

Lemma basicChunks_fresh (sentences : list string) (type : string)
    (metadata : option VectorStore.Metadata) :
  Forall (fun c => DocumentProcessor.embedding c = VectorStore.undefined
                   /\ DocumentProcessor.embeddingModel c = None)
         (DocumentProcessor.createBasicChunks sentences type metadata).
Proof.
  apply (basicChunks_invariant type metadata (fun _ => True)).
  - intros chunkId cur _ _. split; reflexivity.
  - exact I.
  - apply Forall_forall. intros s _. split; [exact I | intros; exact I].
Qed.

Lemma generateEmbeddings_without_client (p : DocumentProcessor.Processor)
    (chunks : list DocumentProcessor.Chunk) :
  DocumentProcessor.hf p = None -> DocumentProcessor.generateEmbeddings p chunks = chunks.
Proof.
  intros Hp. unfold DocumentProcessor.generateEmbeddings.
  rewrite <- (map_id chunks) at 2. apply map_ext. intros c.
  unfold DocumentProcessor.embedChunk. rewrite Hp. reflexivity.
Qed.

Lemma nth_error_seq0 (len n : nat) (x : nat) :
  nth_error (seq 0 len) n = Some x -> x = n.
Proof.
  intros H. assert (Hn : n < List.length (seq 0 len)).
  { apply nth_error_Some. rewrite H. discriminate. }
  rewrite length_seq in Hn.
  apply (nth_error_nth _ _ 0) in H. rewrite seq_nth in H by exact Hn. lia.
Qed.

(** X25: a text from upload to search, without providers.  When neither
    the document processor nor the store has a model client, the chunks
    handed to the store are the basic chunks of the sentences of the
    text; storing them under a document id returns, and files chunk
    number [n] under the key of index [n] with its content, the hash
    embedding of that content and the model [fallback]; and a search of
    the store for the content of a chunk, restricted to the document,
    returns a first hit of similarity 1 (exact arithmetic). *)
Theorem ingest_without_providers :
  forall (p : DocumentProcessor.Processor) (st : VectorStore.Store)
         (text type docId : string)
         (chunkMetadata documentMetadata : option VectorStore.Metadata),
    DocumentProcessor.hf p = None ->
    VectorStore.hf st = None ->
    let chunks :=
      DocumentProcessor.generateEmbeddings p
        (DocumentProcessor.createIntelligentChunks p text type chunkMetadata) in
    let processingResult :=
      {| VectorStore.chunks := Some (map DocumentProcessor.toStoreChunk chunks);
         VectorStore.metadata := documentMetadata |} in
    chunks = DocumentProcessor.createBasicChunks
               (DocumentProcessor.splitIntoSentences text) type chunkMetadata
    /\ exists final,
         snd (VectorStore.storeDocument st docId processingResult)
         = Returned (final, {| VectorStore.success := true;
                               VectorStore.chunksStored := List.length chunks |})
         /\ forall n c, nth_error chunks n = Some c ->
              DocumentProcessor.id c = n
              /\ exists v,
                   lookup (keyOf docId n) final = Some v
                   /\ VectorStore.content v = DocumentProcessor.content c
                   /\ VectorStore.documentId v = docId
                   /\ VectorStore.chunkId v = n
                   /\ VectorStore.embedding v
                      = VectorStore.simpleHashEmbedding (DocumentProcessor.content c)
                   /\ VectorStore.embeddingModel v = "fallback"%string
                   /\ exists top rest,
                        VectorStore.searchWithQuery final (DocumentProcessor.content c)
                          (Some [docId])
                          {| VectorStore.minSimilarity := None; VectorStore.topK := None |}
                        = Returned (top :: rest)
                        /\ VectorStore.similarity top = 1%R.
Proof.
  intros p st text type docId chunkMetadata documentMetadata Hp Hst chunks processingResult.
  assert (Hchunks : chunks = DocumentProcessor.createBasicChunks
                               (DocumentProcessor.splitIntoSentences text) type
                               chunkMetadata).
  { unfold chunks. rewrite generateEmbeddings_without_client by exact Hp.
    unfold DocumentProcessor.createIntelligentChunks. rewrite Hp. reflexivity. }
  split; [exact Hchunks |].
  set (st1 :=
    {| VectorStore.vectors := VectorStore.vectors st;
       VectorStore.documents :=
         mapSet docId
           {| VectorStore.doc_id := docId;
              VectorStore.doc_metadata := documentMetadata;
              VectorStore.chunksCount :=
                List.length (map DocumentProcessor.toStoreChunk chunks) |}
           (VectorStore.documents st);
       VectorStore.hf := VectorStore.hf st |}).
  destruct (storeChunks_lookup docId (map DocumentProcessor.toStoreChunk chunks) st1 0)
    as [final [added [Hret [Hin [_ [_ [Hhf _]]]]]]].
  exists final. split.
  { pose proof (storeDocument_unfold st docId processingResult) as Hu.
    cbv zeta in Hu. specialize (Hu final Hret).
    rewrite Hu. unfold chunksOf, processingResult. cbn [VectorStore.chunks].
    rewrite length_map. reflexivity. }
  intros n c Hn.
  assert (Hidn : DocumentProcessor.id c = n).
  { destruct (basicChunks_ids (DocumentProcessor.splitIntoSentences text) type
                chunkMetadata) as [Hids _].
    rewrite <- Hchunks in Hids.
    apply (nth_error_seq0 (List.length chunks)). rewrite <- Hids.
    apply map_nth_error. exact Hn. }
  split; [exact Hidn |].
  assert (Hfresh : DocumentProcessor.embedding c = VectorStore.undefined
                   /\ DocumentProcessor.embeddingModel c = None).
  { pose proof (basicChunks_fresh (DocumentProcessor.splitIntoSentences text) type
                  chunkMetadata) as Hall.
    rewrite <- Hchunks, Forall_forall in Hall. apply Hall.
    apply (nth_error_In _ _ Hn). }
  destruct Hfresh as [Hemb Hmodel].
  destruct (Hin n (DocumentProcessor.toStoreChunk c)
              (map_nth_error DocumentProcessor.toStoreChunk n chunks Hn))
    as [v [Hv Hstored]].
  cbn [Nat.add] in Hv, Hstored.
  destruct Hstored as [_ [Hdoc [Hcid [Hcontent [_ [_ [_ [_ [Hgen Hm]]]]]]]]].
  cbn [DocumentProcessor.toStoreChunk VectorStore.chunk_content
       VectorStore.chunk_embedding VectorStore.chunk_embeddingModel] in *.
  rewrite Hemb in Hgen. rewrite Hmodel in Hm.
  assert (Hhash : VectorStore.embedding v
                  = VectorStore.simpleHashEmbedding (DocumentProcessor.content c)).
  { specialize (Hgen eq_refl).
    unfold VectorStore.generateEmbedding in Hgen. cbn [VectorStore.hf st1] in Hgen.
    rewrite Hst in Hgen. cbn [tryCatch] in Hgen. injection Hgen as Hgen.
    symmetry. exact Hgen. }
  exists v. split; [exact Hv |]. split; [exact Hcontent |]. split; [exact Hdoc |].
  split; [exact Hcid |]. split; [exact Hhash |]. split; [exact Hm |].
  assert (Hfinal : VectorStore.hf final = None).
  { rewrite Hhf. cbn [st1 VectorStore.hf]. exact Hst. }
  assert (Hone : similarityTo
                   (VectorStore.JArray
                      (VectorStore.simpleHashEmbedding (DocumentProcessor.content c))) v
                 = 1%R).
  { unfold similarityTo. rewrite Hhash. apply cosine_self.
    rewrite store_embedding_norm. lra. }
  destruct (search_finds_perfect_match final
              (VectorStore.JArray
                 (VectorStore.simpleHashEmbedding (DocumentProcessor.content c)))
              (Some [docId])
              {| VectorStore.minSimilarity := None; VectorStore.topK := None |} v)
    as [top [rest [Hsearch [Htop _]]]].
  - unfold lookup in Hv. apply (mapGet_Some_In _ _ _ Hv).
  - exact Hone.
  - cbn. left. symmetry. exact Hdoc.
  - unfold VectorStore.effectiveMinSimilarity. cbn [VectorStore.minSimilarity].
    lra.
  - reflexivity.
  - exists top, rest. split; [| exact Htop].
    unfold VectorStore.searchWithQuery, VectorStore.generateEmbedding.
    rewrite Hfinal. cbn [tryCatch bind]. rewrite Hsearch. reflexivity.
Qed.

(** The hypotheses of X25 hold of a processor and an empty store without
    providers. *)
Lemma ingest_without_providers_witness :
  let text := "The quarterly revenue was 42 million dollars. Costs fell by a tenth."%string in
  let chunks :=
    DocumentProcessor.generateEmbeddings Examples.plainProcessor
      (DocumentProcessor.createIntelligentChunks Examples.plainProcessor text "pdf" None) in
  let processingResult :=
    {| VectorStore.chunks := Some (map DocumentProcessor.toStoreChunk chunks);
       VectorStore.metadata := None |} in
  chunks = DocumentProcessor.createBasicChunks
             (DocumentProcessor.splitIntoSentences text) "pdf" None
  /\ exists final,
       snd (VectorStore.storeDocument Examples.emptyStore "1" processingResult)
       = Returned (final, {| VectorStore.success := true;
                             VectorStore.chunksStored := List.length chunks |})
       /\ forall n c, nth_error chunks n = Some c ->
            DocumentProcessor.id c = n
            /\ exists v,
                 lookup (keyOf "1" n) final = Some v
                 /\ VectorStore.content v = DocumentProcessor.content c
                 /\ VectorStore.documentId v = "1"%string
                 /\ VectorStore.chunkId v = n
                 /\ VectorStore.embedding v
                    = VectorStore.simpleHashEmbedding (DocumentProcessor.content c)
                 /\ VectorStore.embeddingModel v = "fallback"%string
                 /\ exists top rest,
                      VectorStore.searchWithQuery final (DocumentProcessor.content c)
                        (Some ["1"%string])
                        {| VectorStore.minSimilarity := None; VectorStore.topK := None |}
                      = Returned (top :: rest)
                      /\ VectorStore.similarity top = 1%R.
Proof.
  apply (ingest_without_providers Examples.plainProcessor Examples.emptyStore
           "The quarterly revenue was 42 million dollars. Costs fell by a tenth."
           "pdf" "1" None None).
  - reflexivity.
  - reflexivity.
Defined.

End ChunkingLaws.

(* ================================================================== *)
(** * Keywords and entities of a query *)
(* ================================================================== *)

Section PreprocessingLaws.
Import Js Spec.

(** [split(/\s+/)] is the split at runs of the white-space class. *)
Lemma splitWs_splitRuns (s : string) :
  splitWs s = DocumentProcessor.splitRuns isWhiteSpace s.
Proof.
  induction s as [|c s IH]; [reflexivity |].
  cbn [splitWs DocumentProcessor.splitRuns]. rewrite IH. reflexivity.
Qed.

Lemma splitWs_pieces (s : string) :
  Forall (fun piece => freeOf isWhiteSpace piece = true) (splitWs s).
Proof. rewrite splitWs_splitRuns. apply splitRuns_freeOf. Qed.

(** The pieces of a split hold code units of the text only. *)
Lemma splitRuns_preserves (p : ascii -> bool) (property : ascii -> bool) (s : string) :
  freeOf property s = true ->
  Forall (fun piece => freeOf property piece = true) (DocumentProcessor.splitRuns p s).
Proof.
  induction s as [|c s IH]; cbn [DocumentProcessor.splitRuns freeOf]; intros H.
  - repeat constructor.
  - apply andb_true_iff in H. destruct H as [Hc Hs]. specialize (IH Hs).
    destruct (p c).
    + destruct s as [|c' s']; [repeat constructor |].
      destruct (p c'); [exact IH | constructor; [reflexivity | exact IH]].
    + destruct (DocumentProcessor.splitRuns p s) as [|w ws].
      * repeat constructor. cbn. rewrite Hc. reflexivity.
      * inversion IH as [|? ? Hw Hws]; subst.
        constructor; [| exact Hws]. cbn. rewrite Hc, Hw. reflexivity.
Qed.

Lemma toLowerCase_no_capital (s : string) : freeOf isCapital (toLowerCase s) = true.
Proof.
  induction s as [|c s IH]; [reflexivity |].
  cbn [toLowerCase freeOf]. rewrite IH, andb_true_r.
  unfold isCapital. rewrite lowerChar_idempotent, Ascii.eqb_refl. reflexivity.
Qed.

Lemma no_capital_fixed (s : string) : freeOf isCapital s = true -> toLowerCase s = s.
Proof.
  induction s as [|c s IH]; [reflexivity |].
  cbn [freeOf toLowerCase]. intros H. apply andb_true_iff in H. destruct H as [Hc Hs].
  unfold isCapital in Hc. apply negb_true_iff, negb_false_iff in Hc.
  apply Ascii.eqb_eq in Hc. rewrite Hc, (IH Hs). reflexivity.
Qed.

(** X26: the keywords and entities of a query.  [extractKeywords] returns
    at most 10 keywords; each is a token of the lower-cased query, is
    itself in lower case, holds no white space, is longer than 2 code
    units and is no stop word.  Every entity of [extractEntities] is a
    piece of the query without white space that begins with a capital
    A-Z followed by another ASCII letter.  [preprocessQuery] keeps the
    text of the query as it is, and its expanded text is the query, a
    space, and the keywords joined by spaces. *)
Theorem preprocessQuery_keywords_and_entities :
  forall query : string,
    let processed := RAGPipeline.preprocessQuery query in
    RAGPipeline.text processed = query
    /\ RAGPipeline.intent processed = RAGPipeline.classifyIntent query
    /\ RAGPipeline.processedText processed
       = (query ++ " " ++ join " " (RAGPipeline.keywords processed))%string
    /\ List.length (RAGPipeline.keywords processed) <= 10
    /\ Forall (fun keyword =>
                 In keyword (tokens query)
                 /\ toLowerCase keyword = keyword
                 /\ freeOf isWhiteSpace keyword = true
                 /\ 2 < String.length keyword
                 /\ ~ In keyword RAGPipeline.stopWords)
              (RAGPipeline.keywords processed)
    /\ Forall (fun entity =>
                 In entity (splitWs query)
                 /\ freeOf isWhiteSpace entity = true
                 /\ exists a b rest,
                      entity = String a (String b rest)
                      /\ RAGPipeline.isUpper a = true
                      /\ (RAGPipeline.isLower b = true \/ RAGPipeline.isUpper b = true))
              (RAGPipeline.entities processed).
Proof.
  intros query processed.
  unfold processed, RAGPipeline.preprocessQuery.
  cbn [RAGPipeline.text RAGPipeline.intent RAGPipeline.processedText
       RAGPipeline.keywords RAGPipeline.entities].
  split; [reflexivity |]. split; [reflexivity |]. split; [reflexivity |].
  split.
  { unfold RAGPipeline.extractKeywords.
    pose proof (slice0_length 10
      (filter (fun word => (2 <? String.length word) && negb (has RAGPipeline.stopWords word))
         (splitWs (toLowerCase query))) ltac:(lia)) as H.
    lia. }
  split.
  - apply Forall_forall. intros keyword Hk.
    unfold RAGPipeline.extractKeywords in Hk. apply slice0_incl in Hk.
    apply filter_In in Hk. destruct Hk as [Hin Hcond].
    apply andb_true_iff in Hcond. destruct Hcond as [Hlen Hstop].
    split; [exact Hin |].
    split.
    { apply no_capital_fixed.
      pose proof (splitRuns_preserves isWhiteSpace isCapital (toLowerCase query)
                    (toLowerCase_no_capital query)) as Hall.
      rewrite <- splitWs_splitRuns, Forall_forall in Hall. apply Hall. exact Hin. }
    split.
    { pose proof (splitWs_pieces (toLowerCase query)) as Hall.
      rewrite Forall_forall in Hall. apply Hall. exact Hin. }
    split; [apply Nat.ltb_lt; exact Hlen |].
    intros Hs. apply has_In in Hs. rewrite Hs in Hstop. discriminate Hstop.
  - apply Forall_forall. intros entity He.
    unfold RAGPipeline.extractEntities in He. apply filter_In in He.
    destruct He as [Hin Hent].
    split; [exact Hin |].
    split.
    { pose proof (splitWs_pieces query) as Hall.
      rewrite Forall_forall in Hall. apply Hall. exact Hin. }
    unfold RAGPipeline.isEntity in Hent.
    destruct entity as [|a [|b rest]]; try discriminate Hent.
    apply andb_true_iff in Hent. destruct Hent as [Ha Hb].
    exists a, b, rest. split; [reflexivity |]. split; [exact Ha |].
    apply orb_true_iff in Hb. exact Hb.
Qed.

End PreprocessingLaws.

(* ================================================================== *)
(** * The legacy similarity *)
(* ================================================================== *)

Section LegacyLaws.
Import Js Spec.
Open Scope R_scope.

Lemma same_elements_same_length (a b : list string) :
  NoDup a -> NoDup b -> (forall x, In x a <-> In x b) -> List.length a = List.length b.
Proof.
  intros Ha Hb H. apply Permutation_length. apply NoDup_Permutation; assumption.
Qed.

Lemma hash_similarity_bounds (queryHash contentHash : R) :
  0 <= queryHash -> 0 <= contentHash -> 0 < Rmax queryHash contentHash ->
  0 <= 1 - Rabs (queryHash - contentHash) / Rmax queryHash contentHash <= 1.
Proof.
  intros Hq Hc Hmax.
  assert (Habs : 0 <= Rabs (queryHash - contentHash) <= Rmax queryHash contentHash).
  { split; [apply Rabs_pos |].
    unfold Rabs, Rmax.
    destruct (Rcase_abs (queryHash - contentHash));
      destruct (Rle_dec queryHash contentHash); lra. }
  assert (Hdiv : 0 <= Rabs (queryHash - contentHash) / Rmax queryHash contentHash <= 1).
  { split.
    - apply Rmult_le_reg_r with (Rmax queryHash contentHash); [exact Hmax |].
      unfold Rdiv. rewrite Rmult_assoc, Rinv_l by lra. lra.
    - apply Rmult_le_reg_r with (Rmax queryHash contentHash); [exact Hmax |].
      unfold Rdiv. rewrite Rmult_assoc, Rinv_l by lra. lra. }
  lra.
Qed.

(** X27: the legacy similarity.  For two hashes that are not negative
    and not both 0 (with both 0 the source divides 0 by 0),
    [calculateSimilarity] lies in [0, 1]: it is 0.7 times the share of
    the distinct words of both texts that the two have in common, plus
    0.3 times a hash term in [0, 1]; for a text compared with itself
    under one hash it is 1. *)
Theorem legacy_similarity_bounds :
  forall (query content : string) (queryHash contentHash : R),
    0 <= queryHash -> 0 <= contentHash -> 0 < Rmax queryHash contentHash ->
    0 <= VectorStore.calculateSimilarity query content queryHash contentHash <= 1
    /\ (0 < queryHash ->
        VectorStore.calculateSimilarity query query queryHash queryHash = 1)
    /\ exists shared distinct : nat,
         card (fun w => In w (tokens query) /\ In w (tokens content)) shared
         /\ card (fun w => In w (tokens query) \/ In w (tokens content)) distinct
         /\ (1 <= distinct)%nat /\ (shared <= distinct)%nat
         /\ VectorStore.calculateSimilarity query content queryHash contentHash
            = INR shared / INR distinct * 0.7
              + (1 - Rabs (queryHash - contentHash) / Rmax queryHash contentHash) * 0.3.
Proof.
  intros query content qh ch Hq Hc Hmax.
  set (qw := newSet (splitWs (toLowerCase query))).
  set (cw := newSet (splitWs (toLowerCase content))).
  assert (Hqw : forall w, In w qw <-> In w (tokens query)) by (intros w; apply newSet_In).
  assert (Hcw : forall w, In w cw <-> In w (tokens content)) by (intros w; apply newSet_In).
  assert (Hunion : forall w, In w (newSet (qw ++ cw)) <-> In w qw \/ In w cw).
  { intros w. rewrite newSet_In. apply in_app_iff. }
  assert (Hpos : (1 <= List.length (newSet (qw ++ cw)))%nat).
  { apply newSet_nonempty. intros E. apply app_eq_nil in E. destruct E as [E _].
    pose proof (newSet_nonempty (splitWs (toLowerCase query)) (splitWs_nonempty _)) as H1.
    fold qw in H1. rewrite E in H1. cbn in H1. lia. }
  assert (Hle : (List.length (intersection qw cw) <= List.length (newSet (qw ++ cw)))%nat).
  { apply NoDup_incl_length; [apply newSet_NoDup |].
    intros w Hw. apply intersection_In in Hw. apply Hunion. left. apply Hw. }
  assert (Hformula :
    VectorStore.calculateSimilarity query content qh ch
    = INR (List.length (intersection qw cw)) / INR (List.length (newSet (qw ++ cw))) * 0.7
      + (1 - Rabs (qh - ch) / Rmax qh ch) * 0.3) by reflexivity.
  assert (Hjac : 0 <= INR (List.length (intersection qw cw))
                      / INR (List.length (newSet (qw ++ cw))) <= 1).
  { assert (0 < INR (List.length (newSet (qw ++ cw)))) by (apply (lt_INR 0); lia).
    pose proof (pos_INR (List.length (intersection qw cw))).
    apply le_INR in Hle. split.
    - apply Rmult_le_reg_r with (INR (List.length (newSet (qw ++ cw)))); [assumption |].
      unfold Rdiv. rewrite Rmult_assoc, Rinv_l by lra. lra.
    - apply Rmult_le_reg_r with (INR (List.length (newSet (qw ++ cw)))); [assumption |].
      unfold Rdiv. rewrite Rmult_assoc, Rinv_l by lra. lra. }
  pose proof (hash_similarity_bounds qh ch Hq Hc Hmax) as Hhash.
  split; [rewrite Hformula; lra |].
  split.
  - intros Hqpos.
    assert (Hsame : List.length (intersection qw qw) = List.length (newSet (qw ++ qw))).
    { apply same_elements_same_length; try apply newSet_NoDup.
      intros w. rewrite intersection_In, newSet_In, in_app_iff. tauto. }
    assert (Hn : (1 <= List.length (newSet (qw ++ qw)))%nat).
    { apply newSet_nonempty. intros E. apply app_eq_nil in E. destruct E as [E _].
      pose proof (newSet_nonempty (splitWs (toLowerCase query)) (splitWs_nonempty _)) as H1.
      fold qw in H1. rewrite E in H1. cbn in H1. lia. }
    change (VectorStore.calculateSimilarity query query qh qh)
      with (INR (List.length (intersection qw qw)) / INR (List.length (newSet (qw ++ qw)))
            * 0.7 + (1 - Rabs (qh - qh) / Rmax qh qh) * 0.3).
    rewrite Hsame.
    replace (qh - qh) with 0 by ring. rewrite Rabs_R0.
    assert (0 < INR (List.length (newSet (qw ++ qw)))) by (apply (lt_INR 0); lia).
    unfold Rdiv at 2. rewrite Rmult_0_l.
    unfold Rdiv. rewrite Rinv_r by lra. lra.
  - exists (List.length (intersection qw cw)), (List.length (newSet (qw ++ cw))).
    split.
    { exists (intersection qw cw).
      split; [apply newSet_NoDup |]. split; [| reflexivity].
      intros w. rewrite intersection_In, Hqw, Hcw. tauto. }
    split.
    { exists (newSet (qw ++ cw)).
      split; [apply newSet_NoDup |]. split; [| reflexivity].
      intros w. rewrite Hunion, Hqw, Hcw. tauto. }
    split; [exact Hpos |]. split; [exact Hle | exact Hformula].
Qed.

(** The hypotheses of X27 hold of the hashes 3 and 4. *)
Lemma legacy_similarity_bounds_witness :
  0 <= VectorStore.calculateSimilarity "revenue report" "annual revenue" 3 4 <= 1
  /\ (0 < 3 ->
      VectorStore.calculateSimilarity "revenue report" "revenue report" 3 3 = 1)
  /\ exists shared distinct : nat,
       card (fun w => In w (tokens "revenue report") /\ In w (tokens "annual revenue")) shared
       /\ card (fun w => In w (tokens "revenue report") \/ In w (tokens "annual revenue"))
               distinct
       /\ (1 <= distinct)%nat /\ (shared <= distinct)%nat
       /\ VectorStore.calculateSimilarity "revenue report" "annual revenue" 3 4
          = INR shared / INR distinct * 0.7
            + (1 - Rabs (3 - 4) / Rmax 3 4) * 0.3.
Proof.
  apply (legacy_similarity_bounds "revenue report" "annual revenue" 3 4).
  - lra.
  - lra.
  - unfold Rmax. destruct (Rle_dec 3 4); lra.
Defined.

End LegacyLaws.

(* ================================================================== *)
(** * Ranking: what filters and re-ranking can change *)
(* ================================================================== *)

Section RankingFacts.
Import Js Spec.
Context {A : Type} (score : A -> R).
Open Scope R_scope.

Let cmp (a b : A) : R := (score b - score a)%R.

Lemma insertSorted_front (x : A) (l : list A) :
  (forall y, In y l -> score y <= score x) -> insertSorted cmp x l = x :: l.
Proof.
  intros H. destruct l as [|y l]; [reflexivity |].
  cbn [insertSorted]. destruct (Rlt_dec 0 (cmp x y)) as [Hlt | _]; [| reflexivity].
  exfalso. unfold cmp in Hlt. pose proof (H y (or_introl eq_refl)). lra.
Qed.

(** Sorting a ranked list changes nothing. *)
Lemma sort_ranked (l : list A) : descending score l -> sort cmp l = l.
Proof.
  induction 1 as [|x l Hl IH Hx]; [reflexivity |].
  cbn [sort]. rewrite IH. apply insertSorted_front.
  rewrite Forall_forall in Hx. exact Hx.
Qed.

Lemma descending_tail (x : A) (l : list A) :
  descending score (x :: l) -> descending score l.
Proof. intros H. apply StronglySorted_inv in H. apply H. Qed.

Lemma insertSorted_filter (p : A -> bool) (x : A) (l : list A) :
  descending score l ->
  filter p (insertSorted cmp x l)
  = if p x then insertSorted cmp x (filter p l) else filter p l.
Proof.
  induction l as [|y l IH]; intros Hd.
  - cbn. destruct (p x); reflexivity.
  - cbn [insertSorted]. destruct (Rlt_dec 0 (cmp x y)) as [Hlt | Hge].
    + cbn [filter]. rewrite (IH (descending_tail y l Hd)).
      destruct (p y), (p x); try reflexivity.
      cbn [insertSorted]. destruct (Rlt_dec 0 (cmp x y)); [reflexivity | contradiction].
    + cbn [filter]. destruct (p x) eqn:Ex; [| reflexivity].
      symmetry.
      change (if p y then y :: filter p l else filter p l) with (filter p (y :: l)).
      apply insertSorted_front.
      intros z Hz. apply filter_In in Hz. destruct Hz as [Hz _].
      pose proof (descending_head score y l Hd z Hz) as Hzy.
      unfold cmp in Hge. lra.
Qed.

(** The stable sort commutes with filtering. *)
Lemma sort_filter (p : A -> bool) (l : list A) :
  filter p (sort cmp l) = sort cmp (filter p l).
Proof.
  induction l as [|x l IH]; [reflexivity |].
  cbn [sort filter]. rewrite insertSorted_filter by apply sort_descending.
  rewrite IH. destruct (p x); reflexivity.
Qed.




End RankingFacts.

Section RankingLaws.
Import Js Spec.
Open Scope R_scope.






(** X29: what re-ranking can change.  Re-ranking a re-ranked list
    changes nothing, and re-ranking commutes with dropping chunks.  The
    first chunk of a re-ranked list has the greatest composite score of
    all; so for a positive result count the first source of an answer is
    a search result whose composite score no other search result
    exceeds. *)
Theorem rerank_is_idempotent_and_puts_best_first :
  forall (query : string) (chunks : list VectorStore.SearchResult),
    let score := fun c => RAGPipeline.calculateChunkRelevance query (RAGPipeline.viewOf c) in
    RAGPipeline.rerank query (RAGPipeline.rerank query chunks) = RAGPipeline.rerank query chunks
    /\ (forall keep : VectorStore.SearchResult -> bool,
          RAGPipeline.rerank query (filter keep chunks)
          = filter keep (RAGPipeline.rerank query chunks))
    /\ (chunks <> [] ->
        exists best rest,
          RAGPipeline.rerank query chunks = best :: rest
          /\ In best chunks
          /\ forall c, In c chunks -> score c <= score best)
    /\ (forall (p : RAGPipeline.Pipeline) (ids : option (list string))
               (filters : VectorStore.Filters) (emb : VectorStore.JsValue),
          RAGPipeline.generateQueryEmbedding p query = Returned emb ->
          (0 < RAGPipeline.topK p)%Z ->
          chunks = VectorStore.searchWithEmbedding (RAGPipeline.vectorStore p) emb ids
                     (RAGPipeline.searchFilters p filters) ->
          chunks <> [] ->
          exists r best others,
            RAGPipeline.query p query ids filters = Returned r
            /\ RAGPipeline.sources r = RAGPipeline.toSource best :: others
            /\ In best chunks
            /\ forall c, In c chunks -> score c <= score best).
Proof.
  intros query chunks score.
  assert (Hdesc : descending score (RAGPipeline.rerank query chunks))
    by apply (sort_descending score).
  assert (Hbest : chunks <> [] ->
            exists best rest,
              RAGPipeline.rerank query chunks = best :: rest
              /\ In best chunks
              /\ forall c, In c chunks -> score c <= score best).
  { intros Hne.
    pose proof (rerank_perm query chunks) as Hperm.
    destruct (RAGPipeline.rerank query chunks) as [|best rest] eqn:E.
    - apply Permutation_sym, Permutation_nil in Hperm. contradiction.
    - exists best, rest. split; [reflexivity |].
      split; [apply (Permutation_in best (Permutation_sym Hperm)); left; reflexivity |].
      intros c Hc. apply (descending_head score best rest Hdesc).
      apply (Permutation_in c Hperm). exact Hc. }
  split; [apply (sort_ranked score); exact Hdesc |].
  split; [intros keep; symmetry; apply (sort_filter score) |].
  split; [exact Hbest |].
  intros p ids filters emb Hemb Hk Hfound Hne.
  destruct (query_branches p query ids filters emb Hemb) as [_ Hcons].
  rewrite <- Hfound in Hcons.
  destruct (Hcons Hne) as [response [_ Hq]].
  destruct (Hbest Hne) as [best [rest [Hr [Hin Hmax]]]].
  rewrite Hr in Hq.
  destruct (slice0_cons (RAGPipeline.topK p) best rest Hk) as [others [Hslice _]].
  rewrite Hslice in Hq.
  eexists. exists best. eexists.
  split; [exact Hq |]. cbn [RAGPipeline.sources map].
  split; [reflexivity |]. split; [exact Hin | exact Hmax].
Qed.

End RankingLaws.
